(** * scripts/tailor_resume.js: a shallow embedding and its properties

    The script tailors a resume with three calls to a generative-language
    endpoint and renders the result to PDF.  This development embeds the
    second (current) variant of the script: its string handling, the
    response-shape extraction, the generation client with its fallback
    payload, the prompt builders, the renderer and the top-level flow.

    Conventions.
    - A JavaScript string is the list of its UTF-16 code units.
    - A JavaScript value that comes out of [JSON.parse] is a [JSON] tree;
      [undefined] is [None] in an [option JSON].
    - Effects (network, file system, browser, process exit) are written in
      a state-and-exception monad over the trace of performed effects; the
      answers of the outside world come from a [Host] record.
    - Console output is not modelled. *)

From Stdlib Require Import List ZArith NArith Lia Bool Ascii String DecimalString.
Import ListNotations.

Set Implicit Arguments.

(* ===================================================================== *)
(** ** Strings as sequences of UTF-16 code units                          *)
(* ===================================================================== *)

Definition jsstring := list N.

(** An ASCII literal of the source. *)
Definition lit (s : string) : jsstring :=
  map N_of_ascii (list_ascii_of_string s).
Arguments lit s%_string.

Definition LF : jsstring := [10%N].
Definition DQ : jsstring := [34%N].
Definition EMDASH : jsstring := [8212%N].

Fixpoint str_eqb (a b : jsstring) : bool :=
  match a, b with
  | [], [] => true
  | x :: a', y :: b' => N.eqb x y && str_eqb a' b'
  | _, _ => false
  end.

(** [s.startsWith(p)] *)
Fixpoint startsWith (s p : jsstring) : bool :=
  match p, s with
  | [], _ => true
  | c :: p', d :: s' => N.eqb c d && startsWith s' p'
  | _ :: _, [] => false
  end.

(** [s.includes(p)] *)
Fixpoint includes (s p : jsstring) : bool :=
  startsWith s p ||
  match s with
  | [] => false
  | _ :: s' => includes s' p
  end.

(** [parts.join(sep)] on strings. *)
Fixpoint intercalate (sep : jsstring) (parts : list jsstring) : jsstring :=
  match parts with
  | [] => []
  | [p] => p
  | p :: rest => p ++ sep ++ intercalate sep rest
  end.

(** Decimal rendering of an integer, as in a template literal. *)
Definition Z_toString (z : Z) : jsstring :=
  lit (NilEmpty.string_of_int (Z.to_int z)).

(** White space and line terminators, the code units [trim] strips. *)
Definition isWhiteSpace (c : N) : bool :=
  ((9 <=? c) && (c <=? 13) || (c =? 32) || (c =? 160) || (c =? 5760)
   || (8192 <=? c) && (c <=? 8202)
   || (c =? 8232) || (c =? 8233) || (c =? 8239) || (c =? 8287)
   || (c =? 12288) || (c =? 65279))%N.

Fixpoint trimStart (s : jsstring) : jsstring :=
  match s with
  | c :: s' => if isWhiteSpace c then trimStart s' else s
  | [] => []
  end.

Definition trimEnd (s : jsstring) : jsstring := rev (trimStart (rev s)).

(** [s.trim()] *)
Definition String_trim (s : jsstring) : jsstring := trimEnd (trimStart s).

(** [s.replace(/\r/g, '')] *)
Definition removeCR (s : jsstring) : jsstring :=
  filter (fun c => negb (c =? 13)%N) s.

(** [s.replace(/-/g, '_')] *)
Definition dashesToUnderscores (s : jsstring) : jsstring :=
  map (fun c => if (c =? 45)%N then 95%N else c) s.

(** [s.replace(/^from/, to)]: a prefix is swapped, anything else is kept. *)
Definition replacePrefix (from to s : jsstring) : jsstring :=
  if startsWith s from then to ++ skipn (List.length from) s else s.

(** [s.replace(pat, repl)] with a string pattern: the first occurrence of
    [pat] is replaced by the expansion of [repl], in which [$$], [$&],
    [$`] and [$'] are special. *)
Fixpoint GetSubstitution (matched before after repl : jsstring) : jsstring :=
  match repl with
  | [] => []
  | c :: r =>
      if (c =? 36)%N then
        match r with
        | d :: r' =>
            if (d =? 36)%N then 36%N :: GetSubstitution matched before after r'
            else if (d =? 38)%N then matched ++ GetSubstitution matched before after r'
            else if (d =? 96)%N then before ++ GetSubstitution matched before after r'
            else if (d =? 39)%N then after ++ GetSubstitution matched before after r'
            else c :: GetSubstitution matched before after r
        | [] => [c]
        end
      else c :: GetSubstitution matched before after r
  end.

Fixpoint replaceFrom (before_rev s pat repl : jsstring) : jsstring :=
  if startsWith s pat then
    rev before_rev
      ++ GetSubstitution pat (rev before_rev) (skipn (List.length pat) s) repl
      ++ skipn (List.length pat) s
  else
    match s with
    | [] => rev before_rev
    | c :: s' => replaceFrom (c :: before_rev) s' pat repl
    end.

Definition String_replace (s pat repl : jsstring) : jsstring :=
  replaceFrom [] s pat repl.

(* --------------------------------------------------------------------- *)
(** *** The two regular expressions of the script                         *)
(* --------------------------------------------------------------------- *)

(** Case folding of the [i] flag (no [u] flag): only ASCII letters fold
    onto ASCII letters. *)
Definition asciiUpper (c : N) : N :=
  if ((97 <=? c) && (c <=? 122))%N then (c - 32)%N else c.

Fixpoint startsWith_ci (s p : jsstring) : bool :=
  match p, s with
  | [], _ => true
  | c :: p', d :: s' => N.eqb (asciiUpper c) (asciiUpper d) && startsWith_ci s' p'
  | _ :: _, [] => false
  end.

(** [.] matches anything but a line terminator. *)
Definition isLineTerminator (c : N) : bool :=
  ((c =? 10) || (c =? 13) || (c =? 8232) || (c =? 8233))%N.

(** [.*word] at the head of [s]: [word] occurs before the next line
    terminator. *)
Fixpoint dotStarThen (word s : jsstring) : bool :=
  startsWith_ci s word ||
  match s with
  | [] => false
  | c :: s' => negb (isLineTerminator c) && dotStarThen word s'
  end.

(** [/Unknown name.*temperature|Unknown name.*maxOutputTokens/i.test(s)] *)
Fixpoint unknownNameRegex (s : jsstring) : bool :=
  (startsWith_ci s (lit "Unknown name")
   && (dotStarThen (lit "temperature") (skipn 12 s)
       || dotStarThen (lit "maxOutputTokens") (skipn 12 s)))
  ||
  match s with
  | [] => false
  | _ :: s' => unknownNameRegex s'
  end.

(** The text up to and including the last [}] of [s], reversed scan. *)
Fixpoint upToLast (c : N) (s : jsstring) : option jsstring :=
  match s with
  | [] => None
  | d :: s' =>
      match upToLast c s' with
      | Some t => Some (d :: t)
      | None => if (d =? c)%N then Some [d] else None
      end
  end.

(** [s.match(/\{[\s\S]*\}/)]: [m[0]] when there is a match.  The match
    starts at the first [{] and, the star being greedy, ends at the last
    [}] after it. *)
Fixpoint matchBraces (s : jsstring) : option jsstring :=
  match s with
  | [] => None
  | c :: s' =>
      if (c =? 123)%N then
        match upToLast 125 s' with
        | Some t => Some (c :: t)
        | None => None
        end
      else matchBraces s'
  end.

(* ===================================================================== *)
(** ** JSON values                                                        *)
(* ===================================================================== *)

(** Numbers are IEEE doubles in the source.  The script never computes
    with them: it tests them for truth, prints them and serialises them.
    These operations are the interface. *)
Class JsNumber (number : Type) := {
  (** [ToBoolean]: false on zero and NaN *)
  num_truthy : number -> bool;
  (** neither NaN nor an infinity *)
  num_finite : number -> bool;
  (** [Number.prototype.toString], radix 10 *)
  num_toString : number -> jsstring;
  (** the value of the decimal literal [m * 10^e] *)
  num_lit : Z -> Z -> number;
  (** [NaN] *)
  num_nan : number
}.

#[warnings="-register-all"]
Inductive JSON (number : Type) : Type :=
| JNull
| JBool (b : bool)
| JNum (n : number)
| JStr (s : jsstring)
| JArr (items : list (JSON number))
| JObj (fields : list (jsstring * JSON number)).

Arguments JNull {number}.
Arguments JBool {number} b.
Arguments JNum {number} n.
Arguments JStr {number} s.
Arguments JArr {number} items.
Arguments JObj {number} fields.

(** Exceptions: [name] and [message] of the thrown error object. *)
Record exn := JsError { err_name : jsstring; err_message : jsstring }.

(** [new Error(msg)] *)
Definition Error (msg : jsstring) : exn := JsError (lit "Error") msg.

(** The runtime's error on [null.prop]. *)
Definition NullPropertyError (prop : jsstring) : exn :=
  JsError (lit "TypeError")
          (lit "Cannot read properties of null (reading '" ++ prop ++ lit "')").

(** [String(err)], that is [Error.prototype.toString]. *)
Definition String_of_exn (e : exn) : jsstring :=
  match err_name e, err_message e with
  | [], m => m
  | n, [] => n
  | n, m => n ++ lit ": " ++ m
  end.

(** Pure code that may throw. *)
Definition Result (A : Type) : Type := exn + A.

Definition rbind {A B} (m : Result A) (k : A -> Result B) : Result B :=
  match m with
  | inl e => inl e
  | inr a => k a
  end.

(** [arr.map(f)] with a callback that may throw: the first exception is
    the exception of the whole call. *)
Definition mapR {A B} (f : A -> Result B) : list A -> Result (list B) :=
  fix go (l : list A) : Result (list B) :=
    match l with
    | [] => inr []
    | x :: l' => rbind (f x) (fun y => rbind (go l') (fun ys => inr (y :: ys)))
    end.

(** The runtime's error on converting an object that has no usable
    [toString] or [valueOf]. *)
Definition NotPrimitiveError : exn :=
  JsError (lit "TypeError") (lit "Cannot convert object to primitive value").

Section Json.

Context {number : Type} {NUM : JsNumber number}.

(** [ToBoolean] *)
Definition truthy (v : JSON number) : bool :=
  match v with
  | JNull => false
  | JBool b => b
  | JNum n => num_truthy n
  | JStr s => match s with [] => false | _ => true end
  | JArr _ | JObj _ => true
  end.

(** Own property [k] of an object literal.  Keys are unique in a parsed
    object; the first binding is the one read. *)
Fixpoint lookup (k : jsstring) (fields : list (jsstring * JSON number))
    : option (JSON number) :=
  match fields with
  | [] => None
  | (k', v) :: rest => if str_eqb k k' then Some v else lookup k rest
  end.

(** [v.k] for the property names this script reads ([output_text],
    [candidates], [content], [output], [message], [text]), none of which
    is a built-in property of strings, numbers, booleans or arrays: the
    read throws on [null], finds own properties on objects and yields
    [undefined] elsewhere. *)
Definition getProp (v : JSON number) (k : jsstring) : Result (option (JSON number)) :=
  match v with
  | JNull => inl (NullPropertyError k)
  | JObj fields => inr (lookup k fields)
  | _ => inr None
  end.

(** [arr[0]] *)
Definition first (items : list (JSON number)) : option (JSON number) := hd_error items.

(** [arr.join(sep)], given the string conversion of elements: [null] (and
    [undefined]) elements give the empty string, the others are converted
    in order. *)
Definition Array_join (toStr : JSON number -> Result jsstring) (sep : jsstring)
    (items : list (JSON number)) : Result jsstring :=
  rbind (mapR (fun x => match x with JNull => inr [] | _ => toStr x end) items)
        (fun strs => inr (intercalate sep strs)).

(** [ToString].  An array converts by [join(',')].  A parsed object
    converts to ["[object Object]"] through [Object.prototype.toString],
    unless it has a field [toString] of its own: that field is not
    callable, [valueOf] does not give a primitive, and the conversion
    throws. *)
Fixpoint ToString (v : JSON number) : Result jsstring :=
  match v with
  | JNull => inr (lit "null")
  | JBool true => inr (lit "true")
  | JBool false => inr (lit "false")
  | JNum n => inr (num_toString n)
  | JStr s => inr s
  | JArr items => Array_join ToString (lit ",") items
  | JObj fields =>
      match lookup (lit "toString") fields with
      | Some _ => inl NotPrimitiveError
      | None => inr (lit "[object Object]")
      end
  end.

(** [items.join(sep)] *)
Definition join (sep : jsstring) (items : list (JSON number)) : Result jsstring :=
  Array_join ToString sep items.

(** Four lower-case hexadecimal digits. *)
Definition hexDigit (d : N) : N :=
  if (d <? 10)%N then (48 + d)%N else (87 + d)%N.

Definition unicodeEscape (c : N) : jsstring :=
  [92; 117; hexDigit (c / 4096 mod 16); hexDigit (c / 256 mod 16);
   hexDigit (c / 16 mod 16); hexDigit (c mod 16)]%N.

Definition isHighSurrogate (c : N) : bool := ((55296 <=? c) && (c <=? 56319))%N.
Definition isLowSurrogate (c : N) : bool := ((56320 <=? c) && (c <=? 57343))%N.

Definition escapeUnit (c : N) : jsstring :=
  if (c =? 8)%N then lit "\b"
  else if (c =? 9)%N then lit "\t"
  else if (c =? 10)%N then lit "\n"
  else if (c =? 12)%N then lit "\f"
  else if (c =? 13)%N then lit "\r"
  else if (c =? 34)%N then [92; 34]%N
  else if (c =? 92)%N then [92; 92]%N
  else if (c <? 32)%N || isHighSurrogate c || isLowSurrogate c
       then unicodeEscape c
  else [c].

Fixpoint quoteUnits (s : jsstring) : jsstring :=
  match s with
  | [] => []
  | c :: rest =>
      if isHighSurrogate c then
        match rest with
        | d :: rest' =>
            if isLowSurrogate d then c :: d :: quoteUnits rest'
            else unicodeEscape c ++ quoteUnits rest
        | [] => unicodeEscape c
        end
      else escapeUnit c ++ quoteUnits rest
  end.

(** [QuoteJSONString] *)
Definition quoteJSONString (s : jsstring) : jsstring :=
  DQ ++ quoteUnits s ++ DQ.

(** [JSON.stringify(v)] without indentation. *)
Fixpoint JSON_stringify (v : JSON number) : jsstring :=
  match v with
  | JNull => lit "null"
  | JBool true => lit "true"
  | JBool false => lit "false"
  | JNum n => if num_finite n then num_toString n else lit "null"
  | JStr s => quoteJSONString s
  | JArr items =>
      lit "[" ++ intercalate (lit ",") (map JSON_stringify items) ++ lit "]"
  | JObj fields =>
      lit "{"
        ++ intercalate (lit ",")
             (map (fun kv => quoteJSONString (fst kv) ++ lit ":"
                               ++ JSON_stringify (snd kv)) fields)
        ++ lit "}"
  end.

(* --------------------------------------------------------------------- *)
(** *** extractTextFromResponseJson                                       *)
(* --------------------------------------------------------------------- *)

(** [p => (typeof p === 'string' ? p : (p.text || JSON.stringify(p)))] *)
Definition partText (p : JSON number) : Result (JSON number) :=
  match p with
  | JStr _ => inr p
  | _ =>
      rbind (getProp p (lit "text")) (fun t =>
        match t with
        | Some tv => if truthy tv then inr tv else inr (JStr (JSON_stringify p))
        | None => inr (JStr (JSON_stringify p))
        end)
  end.

(** [o => (o.text || JSON.stringify(o))] *)
Definition itemText (o : JSON number) : Result (JSON number) :=
  rbind (getProp o (lit "text")) (fun t =>
    match t with
    | Some tv => if truthy tv then inr tv else inr (JStr (JSON_stringify o))
    | None => inr (JStr (JSON_stringify o))
    end).

(** [items.map(f).join('\n')] *)
Definition mapJoin (f : JSON number -> Result (JSON number))
    (items : list (JSON number)) : Result jsstring :=
  rbind (mapR f items) (fun texts => join LF texts).

(** The last test of the function and its fallback. *)
Definition topLevelOutput (json : JSON number) : Result jsstring :=
  rbind (getProp json (lit "output")) (fun output =>
    match output with
    | Some (JArr outs) =>
        match first outs with
        | Some out0 =>
            if truthy out0 then
              rbind (getProp out0 (lit "content")) (fun c =>
                match c with
                | Some (JArr parts) => mapJoin itemText parts
                | _ => inr (JSON_stringify json)
                end)
            else inr (JSON_stringify json)
        | None => inr (JSON_stringify json)
        end
    | _ => inr (JSON_stringify json)
    end).

(** The tests on [cand.message], then what follows the candidates block. *)
Definition fromMessage (json cand : JSON number) : Result jsstring :=
  rbind (getProp cand (lit "message")) (fun message =>
    match message with
    | Some msg =>
        if truthy msg then
          rbind (getProp msg (lit "content")) (fun mc =>
            match mc with
            | Some (JStr s) =>
                match s with
                | [] => topLevelOutput json
                | _ => inr s
                end
            | Some (JArr parts) => mapJoin itemText parts
            | _ => topLevelOutput json
            end)
        else topLevelOutput json
    | None => topLevelOutput json
    end).

Definition fromCandidate (json cand : JSON number) : Result jsstring :=
  rbind (getProp cand (lit "content")) (fun content =>
    match content with
    | Some (JStr s) => inr s
    | Some (JArr parts) => mapJoin partText parts
    | _ =>
        rbind (getProp cand (lit "output")) (fun output =>
          match output with
          | Some (JArr outs) => mapJoin itemText outs
          | _ => fromMessage json cand
          end)
    end).

Definition extractTextFromResponseJson (json : JSON number) : Result jsstring :=
  if negb (truthy json) then inr []
  else
    rbind (getProp json (lit "output_text")) (fun output_text =>
      match output_text with
      | Some (JStr s) => inr s
      | _ =>
          rbind (getProp json (lit "candidates")) (fun candidates =>
            match candidates with
            | Some (JArr cands) =>
                match first cands with
                | Some cand =>
                    if truthy cand then fromCandidate json cand
                    else topLevelOutput json
                | None => topLevelOutput json
                end
            | _ => topLevelOutput json
            end)
      end).

End Json.

(* ===================================================================== *)
(** ** The outside world and the effect monad                             *)
(* ===================================================================== *)

(** The argument of [fetch(url, {method, headers, body})]. *)
Record Request := {
  req_url : jsstring;
  req_method : jsstring;
  req_headers : list (jsstring * jsstring);
  req_body : jsstring
}.

(** What the script reads of a fetch [Response]. *)
Record Response (number : Type) := {
  res_status : Z;
  (** outcome of [res.json()]; [None] when it rejects *)
  res_json : option (JSON number);
  (** outcome of [res.text()] called after [res.json()] has rejected;
      [None] when it rejects too (a body that was consumed by [json()]
      cannot be read again) *)
  res_text : option jsstring
}.

(** [res.ok] *)
Definition res_ok {number} (r : Response number) : bool :=
  ((200 <=? res_status r) && (res_status r <=? 299))%Z.

Inductive FetchResult (number : Type) :=
| Responded (r : Response number)
| FetchFailed (e : exn).
Arguments FetchFailed {number} e.

(** The effects a run performs, in order. *)
Inductive event :=
| EvFetch (req : Request)
| EvMkdir (path : jsstring)
| EvWriteFile (path data : jsstring)
| EvReadFile (path : jsstring)
| EvBrowserLaunch
| EvNewPage
| EvSetContent (html : jsstring)
| EvPdf (path : jsstring)
| EvBrowserClose.

Definition trace := list event.

(** Library functions and the environment of one run.  Writes and
    directory creation under the output directory succeed ([Raw] below
    has the file system that can refuse them). *)
Record Host (number : Type) := {
  (** [JSON.parse]; [None] when it throws *)
  JSON_parse : jsstring -> option (JSON number);
  path_isAbsolute : jsstring -> bool;
  path_join : list jsstring -> jsstring;
  path_basename : jsstring -> jsstring;
  String_toLowerCase : jsstring -> jsstring;
  marked_parse : jsstring -> jsstring;
  (** [process.cwd()] and [__dirname] *)
  cwd : jsstring;
  dirname : jsstring;
  (** [typeof fetch !== 'undefined'] *)
  has_fetch : bool;
  (** the reply to a request, given what happened before it *)
  fetch : trace -> Request -> FetchResult number;
  (** paths that exist when the run starts *)
  fs_initial : jsstring -> bool;
  (** [fs.readFileSync(p)] and [fs.readFileSync(p, 'utf8')] *)
  fs_readFile : jsstring -> Result (list N);
  fs_readFile_utf8 : jsstring -> Result jsstring;
  (** [(await mammoth.extractRawText({ buffer })).value] *)
  mammoth_extractRawText : list N -> Result jsstring;
  (** failures of the browser, [None] for success *)
  launch_error : option exn;
  newPage_error : option exn;
  setContent_error : jsstring -> option exn;
  pdf_error : jsstring -> jsstring -> option exn;
  close_error : option exn
}.

(** How a computation ends: normally, by an uncaught exception, or by
    [process.exit(code)], which no handler intercepts. *)
Inductive completion (A : Type) :=
| Normal (a : A)
| Throw (e : exn)
| Exit (code : Z).
Arguments Throw {A} e.
Arguments Exit {A} code.

Definition M (A : Type) : Type := trace -> completion A * trace.

Definition ret {A} (a : A) : M A := fun tr => (Normal a, tr).

Definition bind {A B} (m : M A) (k : A -> M B) : M B :=
  fun tr =>
    match m tr with
    | (Normal a, tr') => k a tr'
    | (Throw e, tr') => (Throw e, tr')
    | (Exit c, tr') => (Exit c, tr')
    end.

Definition throw {A} (e : exn) : M A := fun tr => (Throw e, tr).

Definition process_exit {A} (code : Z) : M A := fun tr => (Exit code, tr).

(** [try { m } catch (err) { h err }] *)
Definition try_catch {A} (m : M A) (h : exn -> M A) : M A :=
  fun tr =>
    match m tr with
    | (Throw e, tr') => h e tr'
    | r => r
    end.

Definition liftR {A} (r : Result A) : M A :=
  match r with
  | inl e => throw e
  | inr a => ret a
  end.

Definition emit (e : event) : M unit := fun tr => (Normal tt, tr ++ [e]).

(** An effect that fails with [err] when there is one, and is recorded
    otherwise. *)
Definition attempt (err : option exn) (e : event) : M unit :=
  match err with
  | Some x => throw x
  | None => emit e
  end.

Declare Scope js_scope.
Delimit Scope js_scope with js.
Notation "x <- m ;; k" := (bind m (fun x => k))
  (at level 61, m at next level, right associativity) : js_scope.
Notation "m ;; k" := (bind m (fun _ => k))
  (at level 61, right associativity) : js_scope.
Open Scope js_scope.

Definition nonEmpty (s : jsstring) : bool :=
  match s with [] => false | _ => true end.

(** [a || b] on strings that may be absent. *)
Definition orElse (a : option jsstring) (b : jsstring) : jsstring :=
  match a with
  | Some s => if nonEmpty s then s else b
  | None => b
  end.

(** A value interpolated into a template literal, [null] included. *)
Definition interpolate (t : option jsstring) : jsstring :=
  match t with
  | Some s => s
  | None => lit "null"
  end.

(** [parseInt(s, 10)]: [None] is NaN. *)
Fixpoint digitsValue (acc : Z) (seen : bool) (s : jsstring) : option Z :=
  match s with
  | c :: s' =>
      if ((48 <=? c) && (c <=? 57))%N
      then digitsValue (10 * acc + Z.of_N (c - 48)) true s'
      else if seen then Some acc else None
  | [] => if seen then Some acc else None
  end.

Definition parseInt10 (s : jsstring) : option Z :=
  match trimStart s with
  | c :: s' =>
      if (c =? 45)%N then option_map Z.opp (digitsValue 0 false s')
      else if (c =? 43)%N then digitsValue 0 false s'
      else digitsValue 0 false (c :: s')
  | [] => None
  end.

(* ===================================================================== *)
(** ** The script                                                         *)
(* ===================================================================== *)

(** Module-level constants, computed once from the environment and the
    command line. *)
Record Config (number : Type) := {
  GEMINI_API_KEY : jsstring;
  GEMINI_MODEL : jsstring;
  MAX_OUTPUT_TOKENS : number;
  jobTitle : jsstring;
  jobDesc : jsstring;
  company : jsstring;
  resumePathInput : jsstring;
  maxIterations : Z
}.

(** The [opts] argument of [callGemini]; [None] is an absent field. *)
Record Options (number : Type) := {
  opt_model : option jsstring;
  opt_temperature : option number;
  opt_maxOutputTokens : option number
}.

(** What [postJson] returns: [{ ok, status, json, text }]. *)
Record Attempt (number : Type) := {
  a_ok : bool;
  a_status : Z;
  a_json : JSON number;
  a_text : option jsstring
}.

Definition GEMINI_BASE : jsstring :=
  lit "https://generativelanguage.googleapis.com/v1/models".

Section Script.

Context {number : Type} {NUM : JsNumber number}.
Variable host : Host number.

(* --------------------------------------------------------------------- *)
(** *** Primitive effects                                                 *)
(* --------------------------------------------------------------------- *)

Definition creates (p : jsstring) (e : event) : bool :=
  match e with
  | EvMkdir q | EvPdf q | EvWriteFile q _ => str_eqb p q
  | _ => false
  end.

(** Whether [p] exists after the effects of [tr]. *)
Definition pathExists (tr : trace) (p : jsstring) : bool :=
  fs_initial host p || existsb (creates p) tr.

Definition existsSync (p : jsstring) : M bool :=
  fun tr => (Normal (pathExists tr p), tr).

Definition mkdirSync (p : jsstring) : M unit := emit (EvMkdir p).

Definition writeFileSync (p data : jsstring) : M unit := emit (EvWriteFile p data).

Definition readFileSync (p : jsstring) : M (list N) :=
  emit (EvReadFile p) ;; liftR (fs_readFile host p).

Definition readFileSync_utf8 (p : jsstring) : M jsstring :=
  emit (EvReadFile p) ;; liftR (fs_readFile_utf8 host p).

(** [await fetch(url, init)]: the request goes out, then the host
    replies or the call rejects. *)
Definition doFetch (req : Request) : M (Response number) :=
  fun tr =>
    match fetch host tr req with
    | Responded r => (Normal r, tr ++ [EvFetch req])
    | FetchFailed e => (Throw e, tr ++ [EvFetch req])
    end.

(** [if (!fs.existsSync(dir)) fs.mkdirSync(dir)] *)
Definition ensureDir (dir : jsstring) : M unit :=
  ex <- existsSync dir ;;
  if ex then ret tt else mkdirSync dir.

Definition outputDir : jsstring := path_join host [cwd host; lit "output"].

Definition outputFile (name : jsstring) : jsstring :=
  path_join host [cwd host; lit "output"; name].

(* --------------------------------------------------------------------- *)
(** *** findResumeFile                                                    *)
(* --------------------------------------------------------------------- *)

(** The [filter] with the [seen] set: empty paths and repetitions go. *)
Fixpoint uniqPaths (seen candidates : list jsstring) : list jsstring :=
  match candidates with
  | [] => []
  | p :: rest =>
      if negb (nonEmpty p) then uniqPaths seen rest
      else if existsb (str_eqb p) seen then uniqPaths seen rest
      else p :: uniqPaths (p :: seen) rest
  end.

Definition resumeCandidates (requestedPath : jsstring) : list jsstring :=
  let here := cwd host in
  [ if path_isAbsolute host requestedPath then requestedPath
    else path_join host [here; requestedPath] ]
  ++ (if negb (startsWith requestedPath (lit "resumes/"))
         && negb (startsWith requestedPath (lit "resume/"))
      then [ path_join host [here; lit "resumes"; requestedPath];
             path_join host [here; lit "resume"; requestedPath] ]
      else [ path_join host
               [here; replacePrefix (lit "resumes/") (lit "resume/") requestedPath];
             path_join host
               [here; replacePrefix (lit "resume/") (lit "resumes/") requestedPath] ])
  ++ (let base := path_basename host requestedPath in
      [ path_join host [here; base];
        path_join host [here; String_toLowerCase host base];
        path_join host [here; dashesToUnderscores base] ]).

(** [for (const p of uniq) if (fs.existsSync(p)) return p; return null] *)
Fixpoint firstExisting (paths : list jsstring) : M (option jsstring) :=
  match paths with
  | [] => ret None
  | p :: rest =>
      ex <- existsSync p ;;
      if ex then ret (Some p) else firstExisting rest
  end.

Definition findResumeFile (requestedPath : jsstring) : M (option jsstring) :=
  firstExisting (uniqPaths [] (resumeCandidates requestedPath)).

(* --------------------------------------------------------------------- *)
(** *** extractTextFromDocx                                               *)
(* --------------------------------------------------------------------- *)

Definition extractTextFromDocx (filePath : jsstring) : M jsstring :=
  buffer <- readFileSync filePath ;;
  value <- liftR (mammoth_extractRawText host buffer) ;;
  ret (String_trim (removeCR value)).

(* --------------------------------------------------------------------- *)
(** *** callGemini                                                        *)
(* --------------------------------------------------------------------- *)

(** The request [postJson] sends. *)
Definition postRequest (url : jsstring) (bodyObj : JSON number) : Request :=
  {| req_url := url;
     req_method := lit "POST";
     req_headers := [(lit "Content-Type", lit "application/json")];
     req_body := JSON_stringify bodyObj |}.

(** [{ ok: res.ok, status: res.status, json, text }] after
    [try { json = await res.json() }
     catch (e) { text = await res.text().catch(() => null) }]. *)
Definition attemptOf (res : Response number) : Attempt number :=
  match res_json res with
  | Some j => {| a_ok := res_ok res; a_status := res_status res;
                 a_json := j; a_text := None |}
  | None => {| a_ok := res_ok res; a_status := res_status res;
               a_json := JNull; a_text := res_text res |}
  end.

Definition postJson (url : jsstring) (bodyObj : JSON number) : M (Attempt number) :=
  res <- doFetch (postRequest url bodyObj) ;;
  ret (attemptOf res).

(** [a.json ? JSON.stringify(a.json) : a.text] inside a template literal. *)
Definition describeAttempt (a : Attempt number) : jsstring :=
  if truthy (a_json a) then JSON_stringify (a_json a)
  else interpolate (a_text a).

(** [attempt1.json ? JSON.stringify(attempt1.json)
                   : (attempt1.text || `status ${attempt1.status}`)] *)
Definition errTextOf (a : Attempt number) : jsstring :=
  if truthy (a_json a) then JSON_stringify (a_json a)
  else orElse (a_text a) (lit "status " ++ Z_toString (a_status a)).

Definition contentsOf (prompt : jsstring) : JSON number :=
  JArr [ JObj [ (lit "parts", JArr [ JObj [ (lit "text", JStr prompt) ] ]) ] ].

Definition requestUrl (cfg : Config number) (opts : Options number) : jsstring :=
  GEMINI_BASE ++ lit "/" ++ orElse (opt_model opts) (GEMINI_MODEL cfg)
    ++ lit ":generateContent?key=" ++ GEMINI_API_KEY cfg.

Definition candidateConfigOf (cfg : Config number) (opts : Options number)
    : JSON number :=
  JObj [ (lit "temperature",
          JNum match opt_temperature opts with
               | Some t => t
               | None => num_lit 2 (-1)
               end);
         (lit "maxOutputTokens",
          JNum match opt_maxOutputTokens opts with
               | Some m => m
               | None => MAX_OUTPUT_TOKENS cfg
               end) ].

(** First payload: [{ contents, candidateConfig }]. *)
Definition body1Of cfg (prompt : jsstring) (opts : Options number) : JSON number :=
  JObj [ (lit "contents", contentsOf prompt);
         (lit "candidateConfig", candidateConfigOf cfg opts) ].

(** Minimal payload: [{ contents }]. *)
Definition body2Of (prompt : jsstring) : JSON number :=
  JObj [ (lit "contents", contentsOf prompt) ].

(** The two requests of one call. *)
Definition firstRequest cfg (prompt : jsstring) (opts : Options number) : Request :=
  postRequest (requestUrl cfg opts) (body1Of cfg prompt opts).

Definition fallbackRequest (cfg : Config number) (prompt : jsstring)
    (opts : Options number) : Request :=
  postRequest (requestUrl cfg opts) (body2Of prompt).

Definition bothFailedMessage (errText : jsstring) (attempt2 : Attempt number)
    : jsstring :=
  lit "Gemini API error (both attempts failed). First: " ++ errText
    ++ lit ". Second: " ++ describeAttempt attempt2.

Definition apiErrorMessage (attempt1 attempt2 : Attempt number) : jsstring :=
  lit "Gemini API error. Attempt1: " ++ describeAttempt attempt1
    ++ lit ". Attempt2: " ++ describeAttempt attempt2.

(** The message of the error thrown when neither attempt is [ok]. *)
Definition failureMessage (attempt1 attempt2 : Attempt number) : jsstring :=
  if (a_status attempt1 =? 400)%Z && unknownNameRegex (errTextOf attempt1)
  then bothFailedMessage (errTextOf attempt1) attempt2
  else apiErrorMessage attempt1 attempt2.

Definition callGemini (cfg : Config number) (prompt : jsstring)
    (opts : Options number) : M jsstring :=
  if negb (has_fetch host) then
    throw (Error (lit "Global fetch is not available in this Node runtime. Use Node 18+ (GitHub Actions uses Node 20)."))
  else
    let url := requestUrl cfg opts in
    attempt1 <- postJson url (body1Of cfg prompt opts) ;;
    if a_ok attempt1 then liftR (extractTextFromResponseJson (a_json attempt1))
    else
      let errText := errTextOf attempt1 in
      if (a_status attempt1 =? 400)%Z && unknownNameRegex errText then
        attempt2 <- postJson url (body2Of prompt) ;;
        if a_ok attempt2 then liftR (extractTextFromResponseJson (a_json attempt2))
        else throw (Error (bothFailedMessage errText attempt2))
      else
        attempt2 <- postJson url (body2Of prompt) ;;
        if a_ok attempt2 then liftR (extractTextFromResponseJson (a_json attempt2))
        else throw (Error (apiErrorMessage attempt1 attempt2)).

(* --------------------------------------------------------------------- *)
(** *** Prompt builders                                                   *)
(* --------------------------------------------------------------------- *)

Definition quoted (w : jsstring) : jsstring := DQ ++ w ++ DQ.

Definition buildTailorPrompt (resumeText jobTitle jobDesc : jsstring) : jsstring :=
  LF
  ++ lit "You are an expert resume writer. Tailor the following existing resume text to the job." ++ LF
  ++ LF
  ++ lit "=== EXISTING RESUME TEXT START ===" ++ LF
  ++ resumeText ++ LF
  ++ lit "=== EXISTING RESUME TEXT END ===" ++ LF
  ++ LF
  ++ lit "Job title: " ++ jobTitle ++ LF
  ++ lit "Job description:" ++ LF
  ++ jobDesc ++ LF
  ++ LF
  ++ lit "Task:" ++ LF
  ++ lit "1) Produce a tailored resume (in Markdown) that emphasizes relevant skills, achievements, and keywords matching the job description." ++ LF
  ++ lit "2) Keep it concise " ++ EMDASH ++ lit " 1-2 pages equivalent, with bullet points for responsibilities & achievements." ++ LF
  ++ lit "3) Where possible, quantify achievements (use reasonable placeholders if specific numbers are not present)." ++ LF
  ++ lit "4) Use headings: Name, Contact (placeholders allowed), Summary, Skills, Experience (with bullets), Education, Certifications." ++ LF
  ++ lit "5) Return ONLY the resume in Markdown (no analysis)." ++ LF.

Definition buildRecruiterReviewPrompt
    (tailoredResumeMarkdown company jobTitle jobDesc : jsstring) : jsstring :=
  LF
  ++ lit "You are now a recruiter at " ++ company
  ++ lit " reviewing a candidate for the role: " ++ jobTitle ++ lit "." ++ LF
  ++ LF
  ++ lit "Job description:" ++ LF
  ++ jobDesc ++ LF
  ++ LF
  ++ lit "Candidate tailored resume:" ++ LF
  ++ tailoredResumeMarkdown ++ LF
  ++ LF
  ++ lit "Task:" ++ LF
  ++ lit "1) As the recruiter, list up to 10 specific gaps or weaknesses where the candidate does not match the job (missing skills, experience, unclear quantification, seniority mismatch)." ++ LF
  ++ lit "2) For each gap, explain why it's important for the role and give a one-sentence suggestion on how to fix it in the resume or cover letter." ++ LF
  ++ lit "Return the response as JSON with fields: { " ++ quoted (lit "gaps")
  ++ lit ": [ { " ++ quoted (lit "issue") ++ lit ": " ++ quoted (lit "...")
  ++ lit ", " ++ quoted (lit "importance") ++ lit ": " ++ quoted (lit "...")
  ++ lit ", " ++ quoted (lit "fix") ++ lit ": " ++ quoted (lit "...")
  ++ lit " } ] }" ++ LF.

Definition buildFixPrompt (tailoredResumeMarkdown gapsJson : jsstring) : jsstring :=
  LF
  ++ lit "You are an expert resume writer. Given the tailored resume below and the recruiter's identified gaps, update and improve the resume to address the gaps." ++ LF
  ++ LF
  ++ lit "Tailored resume:" ++ LF
  ++ tailoredResumeMarkdown ++ LF
  ++ LF
  ++ lit "Recruiter gaps (JSON):" ++ LF
  ++ gapsJson ++ LF
  ++ LF
  ++ lit "Task:" ++ LF
  ++ lit "1) Modify the resume to address the gaps as best as possible. If quantification is invented, mark numbers with parentheses and note they should be replaced." ++ LF
  ++ lit "2) Return only the final updated resume in Markdown." ++ LF.

(* --------------------------------------------------------------------- *)
(** *** saveMarkdownAsPdf                                                 *)
(* --------------------------------------------------------------------- *)

Definition defaultTemplate : jsstring :=
  lit "<!doctype html><html><head><meta charset=" ++ quoted (lit "utf-8")
  ++ lit "><title>{{TITLE}}</title></head><body>{{CONTENT}}</body></html>".

Definition templatePath : jsstring :=
  path_join host
    [dirname host; lit ".."; lit "templates"; lit "resume_template.html"].

Definition fillTemplate (template htmlResume title : jsstring) : jsstring :=
  String_replace (String_replace template (lit "{{CONTENT}}") htmlResume)
                 (lit "{{TITLE}}") title.

(** The caller always passes [title]; its default value is not needed. *)
Definition saveMarkdownAsPdf (markdownText outPdfPath title : jsstring) : M unit :=
  hasTemplate <- existsSync templatePath ;;
  template <- (if hasTemplate then readFileSync_utf8 templatePath
               else ret defaultTemplate) ;;
  let htmlResume := marked_parse host markdownText in
  let filled := fillTemplate template htmlResume title in
  ensureDir outputDir ;;
  writeFileSync (outputFile (lit "tailored_resume_rendered.html")) filled ;;
  attempt (launch_error host) EvBrowserLaunch ;;
  attempt (newPage_error host) EvNewPage ;;
  attempt (setContent_error host filled) (EvSetContent filled) ;;
  attempt (pdf_error host filled outPdfPath) (EvPdf outPdfPath) ;;
  attempt (close_error host) EvBrowserClose.

(* --------------------------------------------------------------------- *)
(** *** Main flow                                                         *)
(* --------------------------------------------------------------------- *)

Definition mkOpts (temperature maxOutputTokens : number) : Options number :=
  {| opt_model := None;
     opt_temperature := Some temperature;
     opt_maxOutputTokens := Some maxOutputTokens |}.

(** Stage 2's [try { m = gapsRaw.match(...); if (m) gapsJson = m[0];
    JSON.parse(gapsJson) } catch (e) { gapsJson = gapsRaw }]. *)
Definition gapsJsonOf (gapsRaw : jsstring) : jsstring :=
  let gapsJson := match matchBraces gapsRaw with
                  | Some m0 => m0
                  | None => gapsRaw
                  end in
  match JSON_parse host gapsJson with
  | Some _ => gapsJson
  | None => gapsRaw
  end.

Definition tailorOpts : Options number := mkOpts (num_lit 2 (-1)) (num_lit 4096 0).
Definition reviewOpts : Options number := mkOpts (num_lit 1 (-1)) (num_lit 1024 0).
Definition fixOpts : Options number := mkOpts (num_lit 15 (-2)) (num_lit 4096 0).

(** The [try] block from the extraction to the rendering. *)
Definition stages (cfg : Config number) (resolvedResume : jsstring) : M unit :=
  resumeText <- extractTextFromDocx resolvedResume ;;
  (* Stage 1: tailor *)
  let tailorPrompt := buildTailorPrompt resumeText (jobTitle cfg) (jobDesc cfg) in
  tailored <- callGemini cfg tailorPrompt tailorOpts ;;
  writeFileSync (outputFile (lit "tailored_resume_stage1.md")) tailored ;;
  (* Stage 2: recruiter review *)
  let reviewPrompt :=
    buildRecruiterReviewPrompt tailored (company cfg) (jobTitle cfg) (jobDesc cfg) in
  gapsRaw <- callGemini cfg reviewPrompt reviewOpts ;;
  let gapsJson := gapsJsonOf gapsRaw in
  writeFileSync (outputFile (lit "recruiter_gaps.json.txt")) gapsJson ;;
  (* Stage 3: fix gaps *)
  let fixPrompt := buildFixPrompt tailored gapsJson in
  fixedResume <- callGemini cfg fixPrompt fixOpts ;;
  writeFileSync (outputFile (lit "tailored_resume_final.md")) fixedResume ;;
  (* Render PDF *)
  let outPdf := outputFile (lit "tailored_resume_final.pdf") in
  saveMarkdownAsPdf fixedResume outPdf (jobTitle cfg ++ lit " - Tailored Resume").

(** The path the script looks the resume up under. *)
Definition requestedResume (cfg : Config number) : jsstring :=
  orElse (Some (resumePathInput cfg)) (lit "resumes/Keshav-resume.docx").

(** The body of the [try] block. *)
Definition mainBody (cfg : Config number) : M unit :=
  ensureDir outputDir ;;
  resolvedResume <- findResumeFile (requestedResume cfg) ;;
  resumeFile <- match resolvedResume with
                | Some p => if nonEmpty p then ret p else process_exit 2
                | None => process_exit 2
                end ;;
  stages cfg resumeFile ;;
  process_exit 0.

(** The [catch (err)] block. *)
Definition onError (err : exn) : M unit :=
  try_catch
    (ensureDir outputDir ;;
     writeFileSync (outputFile (lit "error.txt")) (String_of_exn err))
    (fun _ => ret tt) ;;
  process_exit 10.

Definition main (cfg : Config number) : M unit :=
  try_catch (mainBody cfg) onError.

End Script.

(* --------------------------------------------------------------------- *)
(** *** Module level: environment, command line, then the main flow       *)
(* --------------------------------------------------------------------- *)

(** The flags minimist hands over, as text; [None] is an absent flag. *)
Record Argv := {
  arg_job_title : option jsstring;        (* argv['job-title'] *)
  arg_jobTitle : option jsstring;         (* argv.jobTitle *)
  arg_job_desc : option jsstring;         (* argv['job-desc'] *)
  arg_jobDesc : option jsstring;          (* argv.jobDesc *)
  arg_job_description : option jsstring;  (* argv['job-description'] *)
  arg_company : option jsstring;          (* argv.company *)
  arg_resume_path : option jsstring;      (* argv['resume-path'] *)
  arg_max_iterations : option jsstring    (* argv['max-iterations'] *)
}.

Record ProcessEnv := {
  env_GEMINI_API_KEY : option jsstring;
  env_GEMINI_MODEL : option jsstring;
  env_MAX_OUTPUT_TOKENS : option jsstring
}.

(** [parseInt(argv['max-iterations'] || 1, 10) || 1] *)
Definition maxIterationsOf (argv : Argv) : Z :=
  match parseInt10 (orElse (arg_max_iterations argv) (lit "1")) with
  | Some n => if (n =? 0)%Z then 1%Z else n
  | None => 1%Z
  end.

Definition configOf {number} {NUM : JsNumber number}
    (key : jsstring) (penv : ProcessEnv) (argv : Argv) : Config number :=
  {| GEMINI_API_KEY := key;
     GEMINI_MODEL := orElse (env_GEMINI_MODEL penv) (lit "gemini-2.5-flash");
     MAX_OUTPUT_TOKENS :=
       match parseInt10 (orElse (env_MAX_OUTPUT_TOKENS penv) (lit "4096")) with
       | Some n => num_lit n 0
       | None => num_nan
       end;
     jobTitle := orElse (arg_job_title argv)
                   (orElse (arg_jobTitle argv) (lit "Software Engineer"));
     jobDesc := orElse (arg_job_desc argv)
                  (orElse (arg_jobDesc argv) (orElse (arg_job_description argv) []));
     company := orElse (arg_company argv) (lit "Company");
     resumePathInput := orElse (arg_resume_path argv)
                          (lit "resumes/Keshav-resume.docx");
     maxIterations := maxIterationsOf argv |}.

Definition program {number} {NUM : JsNumber number} (host : Host number)
    (penv : ProcessEnv) (argv : Argv) : M unit :=
  match env_GEMINI_API_KEY penv with
  | Some key => if nonEmpty key then main host (configOf key penv argv)
                else process_exit 1
  | None => process_exit 1
  end.

(** A run of the script from an empty trace. *)
Definition run {number} {NUM : JsNumber number} (host : Host number)
    (penv : ProcessEnv) (argv : Argv) : completion unit * trace :=
  program host penv argv [].

(* ===================================================================== *)
(** ** The documented response shapes                                     *)
(* ===================================================================== *)

(** The specification describes response parsing as a match over an
    enumerated set of shapes, tried in a fixed order, with an opaque-text
    default.  [shapeOf] and [shapeText] follow that description; they are
    compared with [extractTextFromResponseJson] below. *)

Section Shapes.

Context {number : Type} {NUM : JsNumber number}.

Inductive Shape :=
| NoResponse                                       (* a falsy response *)
| DirectText (s : jsstring)                        (* output_text *)
| CandidateString (s : jsstring)                   (* candidates[0].content, a string *)
| CandidateParts (parts : list (JSON number))      (* candidates[0].content, a list *)
| CandidateOutput (outs : list (JSON number))      (* candidates[0].output *)
| MessageString (s : jsstring)                     (* candidates[0].message.content, a string *)
| MessageParts (parts : list (JSON number))        (* candidates[0].message.content, a list *)
| TopLevelOutput (parts : list (JSON number))      (* output[0].content *)
| Opaque.                                          (* none of the above *)

(** A field of an object; anything else has no fields. *)
Definition field (v : JSON number) (k : jsstring) : option (JSON number) :=
  match v with
  | JObj fields => lookup k fields
  | _ => None
  end.

Definition messageShape (cand : JSON number) : option Shape :=
  match field cand (lit "message") with
  | Some msg =>
      match field msg (lit "content") with
      | Some (JStr (c :: s)) => Some (MessageString (c :: s))
      | Some (JArr parts) => Some (MessageParts parts)
      | _ => None
      end
  | None => None
  end.

Definition candidateShape (cand : JSON number) : option Shape :=
  match field cand (lit "content") with
  | Some (JStr s) => Some (CandidateString s)
  | Some (JArr parts) => Some (CandidateParts parts)
  | _ =>
      match field cand (lit "output") with
      | Some (JArr outs) => Some (CandidateOutput outs)
      | _ => messageShape cand
      end
  end.

Definition firstCandidate (json : JSON number) : option (JSON number) :=
  match field json (lit "candidates") with
  | Some (JArr (cand :: _)) => Some cand
  | _ => None
  end.

Definition topLevelShape (json : JSON number) : Shape :=
  match field json (lit "output") with
  | Some (JArr (out0 :: _)) =>
      match field out0 (lit "content") with
      | Some (JArr parts) => TopLevelOutput parts
      | _ => Opaque
      end
  | _ => Opaque
  end.

Definition shapeOf (json : JSON number) : Shape :=
  if negb (truthy json) then NoResponse
  else
    match field json (lit "output_text") with
    | Some (JStr s) => DirectText s
    | _ =>
        match firstCandidate json with
        | Some cand =>
            match candidateShape cand with
            | Some shape => shape
            | None => topLevelShape json
            end
        | None => topLevelShape json
        end
    end.

(** The text a part stands for: itself when a string, its truthy [text]
    field, and its serialisation otherwise. *)
Definition textOfPart (p : JSON number) : JSON number :=
  match p with
  | JStr _ => p
  | _ =>
      match field p (lit "text") with
      | Some t => if truthy t then t else JStr (JSON_stringify p)
      | None => JStr (JSON_stringify p)
      end
  end.

(** As [textOfPart], without the special case for strings. *)
Definition textOfItem (o : JSON number) : JSON number :=
  match field o (lit "text") with
  | Some t => if truthy t then t else JStr (JSON_stringify o)
  | None => JStr (JSON_stringify o)
  end.

(** The text of a shape.  Lists are joined with newlines, each text
    converted to a string as [join] does (which is where a text that
    JavaScript cannot convert makes the result an exception). *)
Definition shapeText (json : JSON number) (shape : Shape) : Result jsstring :=
  match shape with
  | NoResponse => inr []
  | DirectText s | CandidateString s | MessageString s => inr s
  | CandidateParts parts => join LF (map textOfPart parts)
  | CandidateOutput parts | MessageParts parts | TopLevelOutput parts =>
      join LF (map textOfItem parts)
  | Opaque => inr (JSON_stringify json)
  end.

(** The list a shape maps over, if any. *)
Definition shapeParts (shape : Shape) : list (JSON number) :=
  match shape with
  | CandidateParts parts | CandidateOutput parts
  | MessageParts parts | TopLevelOutput parts => parts
  | _ => []
  end.

Definition isNull (v : JSON number) : bool :=
  match v with
  | JNull => true
  | _ => false
  end.

End Shapes.

(* ===================================================================== *)
(** ** Observations on traces                                             *)
(* ===================================================================== *)

Definition isFetch (e : event) : bool :=
  match e with
  | EvFetch _ => true
  | _ => false
  end.

Definition isPost (e : event) : bool :=
  match e with
  | EvFetch req => str_eqb (req_method req) (lit "POST")
  | _ => false
  end.

Definition isReadFile (e : event) : bool :=
  match e with
  | EvReadFile _ => true
  | _ => false
  end.

Definition isClose (e : event) : bool :=
  match e with
  | EvBrowserClose => true
  | _ => false
  end.

Definition isLaunch (e : event) : bool :=
  match e with
  | EvBrowserLaunch => true
  | _ => false
  end.

(** A step of the headless browser, the export included. *)
Definition isBrowserStep (e : event) : bool :=
  match e with
  | EvBrowserLaunch | EvNewPage | EvSetContent _ | EvPdf _ | EvBrowserClose => true
  | _ => false
  end.

(** No browser step and no export among the effects. *)
Definition noBrowserStep (evs : trace) : Prop :=
  Forall (fun e => isBrowserStep e = false) evs.

(** Number of network calls in a trace. *)
Definition networkCalls (tr : trace) : nat := List.length (filter isFetch tr).

(** No leading, respectively trailing, white space. *)
Definition noLeadingSpace (s : jsstring) : Prop :=
  forall c rest, s = c :: rest -> isWhiteSpace c = false.

Definition noTrailingSpace (s : jsstring) : Prop :=
  forall c front, s = front ++ [c] -> isWhiteSpace c = false.

(** The effects of [m] are appended to the trace and all satisfy [P]. *)
Definition emitsOnly {A} (P : event -> Prop) (m : M A) : Prop :=
  forall tr, exists evs, snd (m tr) = tr ++ evs /\ Forall P evs.

(** [m] never ends the process. *)
Definition neverExits {A} (m : M A) : Prop :=
  forall tr code, fst (m tr) <> Exit code.

Section Orchestration.

Context {number : Type} {NUM : JsNumber number}.
Variable host : Host number.

(** The trace once the output directory has been ensured. *)
Definition afterEnsureOutput (tr : trace) : trace :=
  if pathExists host tr (outputDir host) then tr
  else tr ++ [EvMkdir (outputDir host)].

(** The first candidate location that exists, if any. *)
Definition resolveResume (requestedPath : jsstring) (tr : trace) : option jsstring :=
  find (pathExists host tr) (uniqPaths [] (resumeCandidates host requestedPath)).

(** The gap analysis as the specification words it: the brace-delimited
    substring when there is one and it parses as JSON, the raw critique
    text otherwise. *)
Definition gapAnalysisArtifact (gapsRaw : jsstring) : jsstring :=
  match matchBraces gapsRaw with
  | Some substring =>
      match JSON_parse host substring with
      | Some _ => substring
      | None => gapsRaw
      end
  | None => gapsRaw
  end.

(** The effects of one run of the renderer: none of the browser, or the
    write of the page, then the launch, then steps on that page. *)
Definition pageBeforeBrowser (outPdfPath : jsstring) (evs : trace) : Prop :=
  noBrowserStep evs
  \/ exists pre html post,
       evs = pre ++ EvWriteFile (outputFile host (lit "tailored_resume_rendered.html")) html
                 :: EvBrowserLaunch :: post
       /\ noBrowserStep pre
       /\ (forall h, In (EvSetContent h) post -> h = html)
       /\ (forall p, In (EvPdf p) post -> p = outPdfPath).

End Orchestration.

(** [argv] with another value for the max-iterations flag. *)
Definition withMaxIterations (argv : Argv) (v : option jsstring) : Argv :=
  {| arg_job_title := arg_job_title argv;
     arg_jobTitle := arg_jobTitle argv;
     arg_job_desc := arg_job_desc argv;
     arg_jobDesc := arg_jobDesc argv;
     arg_job_description := arg_job_description argv;
     arg_company := arg_company argv;
     arg_resume_path := arg_resume_path argv;
     arg_max_iterations := v |}.

(* ===================================================================== *)
(** ** A concrete host for examples                                       *)
(* ===================================================================== *)

Module Demo.

(** Exact decimals [m * 10^e] and NaN, printed in positional notation
    (as JavaScript prints numbers between 1e-6 and 1e21). *)
Inductive decimal :=
| Dec (m e : Z)
| NotANumber.

Fixpoint fractionDigits (n : nat) (f : Z) : jsstring :=
  match n with
  | O => []
  | S n' => Z.to_N (48 + (f / 10 ^ Z.of_nat n') mod 10) :: fractionDigits n' f
  end.

Fixpoint dropZeros (s : jsstring) : jsstring :=
  match s with
  | c :: s' => if (c =? 48)%N then dropZeros s' else s
  | [] => []
  end.

Definition decimal_toString (d : decimal) : jsstring :=
  match d with
  | NotANumber => lit "NaN"
  | Dec m e =>
      if (m =? 0)%Z then lit "0"
      else if (0 <=? e)%Z then Z_toString (m * 10 ^ e)
      else
        let scale := (10 ^ (- e))%Z in
        let frac := rev (dropZeros (rev (fractionDigits (Z.to_nat (- e))
                                                        (Z.abs m mod scale)))) in
        (if (m <? 0)%Z then lit "-" else [])
          ++ (if (Z.abs m / scale =? 0)%Z then lit "0" else Z_toString (Z.abs m / scale))
          ++ match frac with
             | [] => []
             | _ => lit "." ++ frac
             end
  end.

#[global] Instance decimalNumber : JsNumber decimal := {|
  num_truthy d := match d with Dec m _ => negb (m =? 0)%Z | NotANumber => false end;
  num_finite d := match d with Dec _ _ => true | NotANumber => false end;
  num_toString := decimal_toString;
  num_lit := Dec;
  num_nan := NotANumber
|}.

(** [path.join], [path.isAbsolute] and [path.basename] on POSIX paths
    without [.], [..] or repeated separators. *)
Definition posix_join (parts : list jsstring) : jsstring :=
  intercalate (lit "/") parts.

Definition posix_isAbsolute (p : jsstring) : bool := startsWith p (lit "/").

Fixpoint posix_basename_from (acc p : jsstring) : jsstring :=
  match p with
  | [] => acc
  | c :: p' => if (c =? 47)%N then posix_basename_from p' p'
               else posix_basename_from acc p'
  end.

Definition posix_basename (p : jsstring) : jsstring := posix_basename_from p p.

Definition asciiLower (c : N) : N :=
  if ((65 <=? c) && (c <=? 90))%N then (c + 32)%N else c.

(** The parser on the few texts the examples feed it. *)
Definition parse_known (s : jsstring) : option (JSON decimal) :=
  if str_eqb s (lit "{}") then Some (JObj [])
  else if str_eqb s (lit "[]") then Some (JArr [])
  else None.

(** The Markdown transform on a single line of plain text. *)
Definition paragraph (md : jsstring) : jsstring :=
  lit "<p>" ++ md ++ lit "</p>" ++ LF.

(** The n-th network call gets the n-th scripted reply; the network is
    down once the script is exhausted. *)
Definition scripted (script : list (FetchResult decimal))
    (tr : trace) (req : Request) : FetchResult decimal :=
  nth (networkCalls tr) script
      (FetchFailed (JsError (lit "TypeError") (lit "fetch failed"))).

(** A host with the files [existing], a resume whose raw text is [docx],
    network replies [script] and a browser that fails at PDF export when
    [pdfFailure] is given. *)
Definition host (existing : list jsstring) (docx : jsstring)
    (script : list (FetchResult decimal)) (pdfFailure : option exn)
    : Host decimal :=
  {| JSON_parse := parse_known;
     path_isAbsolute := posix_isAbsolute;
     path_join := posix_join;
     path_basename := posix_basename;
     String_toLowerCase := map asciiLower;
     marked_parse := paragraph;
     cwd := lit "/work";
     dirname := lit "/work/scripts";
     has_fetch := true;
     fetch := scripted script;
     fs_initial := fun p => existsb (str_eqb p) existing;
     fs_readFile := fun _ => inr [80; 75]%N;
     fs_readFile_utf8 := fun p => inl (JsError (lit "Error") (lit "ENOENT"));
     mammoth_extractRawText := fun _ => inr docx;
     launch_error := None;
     newPage_error := None;
     setContent_error := fun _ => None;
     pdf_error := fun _ _ => pdfFailure;
     close_error := None |}.

(** A reply with a JSON body. *)
Definition reply (status : Z) (body : JSON decimal) : FetchResult decimal :=
  Responded {| res_status := status; res_json := Some body; res_text := None |}.

(** A reply whose body is not JSON and cannot be read a second time. *)
Definition replyNotJson (status : Z) : FetchResult decimal :=
  Responded {| res_status := status; res_json := None; res_text := None |}.

Definition config : Config decimal :=
  {| GEMINI_API_KEY := lit "k";
     GEMINI_MODEL := lit "gemini-2.5-flash";
     MAX_OUTPUT_TOKENS := Dec 4096 0;
     jobTitle := lit "Software Engineer";
     jobDesc := lit "Build things";
     company := lit "Company";
     resumePathInput := lit "resumes/Keshav-resume.docx";
     maxIterations := 1 |}.

Definition resume : jsstring := lit "/work/resumes/Keshav-resume.docx".

(** A successful reply carrying [text] in [output_text]. *)
Definition textReply (text : jsstring) : FetchResult decimal :=
  reply 200 (JObj [(lit "output_text", JStr text)]).

(** A run in which the three calls succeed; the critique is not JSON. *)
Definition happyScript : list (FetchResult decimal) :=
  [ textReply (lit "Jane Doe, engineer");
    textReply (lit "Gaps: {missing: metrics}");
    textReply (lit "Jane Doe, engineer (5 services)") ].

(** A response whose first candidate carries a list of parts. *)
Definition partsResponse : JSON decimal :=
  JObj [(lit "candidates",
         JArr [JObj [(lit "content",
                      JArr [JObj [(lit "text", JStr (lit "Jane Doe"))];
                            JStr (lit "Engineer");
                            JObj [(lit "n", JNum (Dec 5 0))]])]])].

End Demo.

(* ===================================================================== *)
(** ** Further observations                                               *)
(* ===================================================================== *)

Section PartTexts.

Context {number : Type} {NUM : JsNumber number}.

(** The text of a part that is a string, or an object whose [text] is a
    non-empty string. *)
Definition plainText (p : JSON number) : option jsstring :=
  match p with
  | JStr s => Some s
  | JObj fields =>
      match lookup (lit "text") fields with
      | Some (JStr (c :: s)) => Some (c :: s)
      | _ => None
      end
  | _ => None
  end.

(** Whether a shape maps over a list with the callback that has no
    special case for strings. *)
Definition isItemList (shape : @Shape number) : bool :=
  match shape with
  | CandidateOutput _ | MessageParts _ | TopLevelOutput _ => true
  | _ => false
  end.

(** What the function does once its shape is known. *)
Definition shapeRun (json : JSON number) (shape : @Shape number) : Result jsstring :=
  match shape with
  | NoResponse => inr []
  | DirectText s | CandidateString s | MessageString s => inr s
  | CandidateParts parts => mapJoin partText parts
  | CandidateOutput parts | MessageParts parts | TopLevelOutput parts =>
      mapJoin itemText parts
  | Opaque => inr (JSON_stringify json)
  end.

End PartTexts.

Section RunEffects.

Context {number : Type} {NUM : JsNumber number}.
Variable host : Host number.
Variable cfg : Config number.

(** The URL every request of a run goes to. *)
Definition endpoint : jsstring :=
  GEMINI_BASE ++ lit "/" ++ GEMINI_MODEL cfg
    ++ lit ":generateContent?key=" ++ GEMINI_API_KEY cfg.

(** The files a run may write. *)
Definition artifactNames : list jsstring :=
  [ lit "tailored_resume_stage1.md";
    lit "recruiter_gaps.json.txt";
    lit "tailored_resume_final.md";
    lit "tailored_resume_rendered.html";
    lit "error.txt" ].

(** The effects a run of the main flow may have. *)
Definition expectedEffect (e : event) : Prop :=
  match e with
  | EvFetch req =>
      req_url req = endpoint
      /\ req_method req = lit "POST"
      /\ req_headers req = [(lit "Content-Type", lit "application/json")]
  | EvMkdir p => p = outputDir host
  | EvWriteFile p _ => In p (map (outputFile host) artifactNames)
  | EvReadFile p =>
      In p (resumeCandidates host (requestedResume cfg)) \/ p = templatePath host
  | EvPdf p => p = outputFile host (lit "tailored_resume_final.pdf")
  | EvBrowserLaunch | EvNewPage | EvSetContent _ | EvBrowserClose => True
  end.

End RunEffects.

(** An effect that is not a network call. *)
Definition notFetch (e : event) : Prop := isFetch e = false.

(** [m] adds at most [n] network calls to the trace. *)
Definition sendsAtMost {A} (n : nat) (m : M A) : Prop :=
  forall tr, exists evs, snd (m tr) = tr ++ evs /\ (networkCalls evs <= n)%nat.

(* ===================================================================== *)
(** ** The first variant of the script                                    *)
(* ===================================================================== *)

(** The source file also holds the earlier variant of the script: one
    request per call and no fallback, truth tests in the response
    parsing, a relative output directory, and exit status 1 for every
    failure.  It is embedded here under the names it has in the source.
    [Config] is shared; this variant has no [MAX_OUTPUT_TOKENS] and
    calls [resumePathInput] [resumePath]. *)
Module V1.

Section Script.

Context {number : Type} {NUM : JsNumber number}.
Variable host : Host number.
Variable cfg : Config number.

(** The [TypeError] of [fs.writeFileSync] for data that is not a
    string. *)
Variable invalidData : JSON number -> exn.

(** [v[0]] on a truthy value: the first element of an array, the first
    code unit of a string, the property ["0"] of an object. *)
Definition index0 (v : JSON number) : option (JSON number) :=
  match v with
  | JArr items => first items
  | JStr (c :: _) => Some (JStr [c])
  | JObj fields => lookup (lit "0") fields
  | _ => None
  end.

(** A text handed on as a value. *)
Definition asValue (r : Result jsstring) : Result (JSON number) :=
  rbind r (fun s => inr (JStr s)).

(** The response parsing at the end of [callGemini].  The tests on the
    candidate and on the top-level output are those of the second
    variant ([fromCandidate], [topLevelOutput]); the tests before them
    are truth tests. *)
Definition responseText (json : JSON number) : Result (JSON number) :=
  rbind (getProp json (lit "output_text")) (fun output_text =>
    let afterOutputText :=
      rbind (getProp json (lit "candidates")) (fun candidates =>
        match candidates with
        | Some cs =>
            if truthy cs then
              match index0 cs with
              | Some c =>
                  if truthy c then asValue (fromCandidate json c)
                  else asValue (topLevelOutput json)
              | None => asValue (topLevelOutput json)
              end
            else asValue (topLevelOutput json)
        | None => asValue (topLevelOutput json)
        end) in
    match output_text with
    | Some v => if truthy v then inr v else afterOutputText
    | None => afterOutputText
    end).

Definition requestUrl : jsstring :=
  GEMINI_BASE ++ lit "/" ++ GEMINI_MODEL cfg
    ++ lit ":generateContent?key=" ++ GEMINI_API_KEY cfg.

(** [{ contents, temperature, maxOutputTokens }] *)
Definition bodyOf (prompt : jsstring) (options : Options number) : JSON number :=
  JObj [ (lit "contents", contentsOf prompt);
         (lit "temperature",
          JNum match opt_temperature options with
               | Some t => t
               | None => num_lit 2 (-1)
               end);
         (lit "maxOutputTokens",
          JNum match opt_maxOutputTokens options with
               | Some m => m
               | None => num_lit 4096 0
               end) ].

Definition requestOf (prompt : jsstring) (options : Options number) : Request :=
  postRequest requestUrl (bodyOf prompt options).

Definition callGemini (prompt : jsstring) (options : Options number)
    : M (JSON number) :=
  if negb (has_fetch host) then
    throw (Error (lit "Global fetch is not available in this Node runtime. Ensure Node 18+ or change the script to include a fetch polyfill."))
  else
    res <- doFetch host (requestOf prompt options) ;;
    match res_json res with
    | None =>
        (* [res.json()] rejected; [text] is [res.text()], or the empty
           string when that rejects too *)
        throw (Error (lit "Invalid JSON from Gemini: " ++ Z_toString (res_status res)
                        ++ lit " " ++ match res_text res with
                                      | Some text => text
                                      | None => []
                                      end))
    | Some json =>
        if negb (res_ok res) then
          throw (Error (lit "Gemini API Error: " ++ JSON_stringify json))
        else liftR (responseText json)
    end.

Definition noOptions : Options number :=
  {| opt_model := None; opt_temperature := None; opt_maxOutputTokens := None |}.

Definition buildTailorPrompt (resumeText jobTitle jobDesc : jsstring) : jsstring :=
  LF
  ++ lit "You are an expert resume writer. Tailor the following resume to the job role." ++ LF
  ++ LF
  ++ lit "=== ORIGINAL RESUME ===" ++ LF
  ++ resumeText ++ LF
  ++ lit "=== END OF RESUME ===" ++ LF
  ++ LF
  ++ lit "Job title: " ++ jobTitle ++ LF
  ++ lit "Job description:" ++ LF
  ++ jobDesc ++ LF
  ++ LF
  ++ lit "Create a resume in Markdown:" ++ LF
  ++ lit "- Focus on measurable achievements" ++ LF
  ++ lit "- Improve clarity" ++ LF
  ++ lit "- Use ATS-friendly bullet points" ++ LF
  ++ lit "- Keep it max 2 pages" ++ LF
  ++ lit "- ONLY output the resume in Markdown." ++ LF.

Definition buildRecruiterPrompt (tailored company jobTitle jobDesc : jsstring)
    : jsstring :=
  LF
  ++ lit "You are a recruiter at " ++ company
  ++ lit ". Review the candidate's resume for the job: " ++ jobTitle ++ lit "." ++ LF
  ++ LF
  ++ lit "Job description:" ++ LF
  ++ jobDesc ++ LF
  ++ LF
  ++ lit "Candidate resume:" ++ LF
  ++ tailored ++ LF
  ++ LF
  ++ lit "List weaknesses or gaps in JSON: " ++ LF
  ++ lit "{" ++ LF
  ++ lit "  " ++ quoted (lit "gaps") ++ lit ": [" ++ LF
  ++ lit "    {" ++ quoted (lit "issue") ++ lit ":" ++ quoted (lit "...")
  ++ lit ", " ++ quoted (lit "importance") ++ lit ":" ++ quoted (lit "...")
  ++ lit ", " ++ quoted (lit "fix") ++ lit ":" ++ quoted (lit "...") ++ lit "}" ++ LF
  ++ lit "  ]" ++ LF
  ++ lit "}" ++ LF.

Definition buildFixPrompt (tailored gaps : jsstring) : jsstring :=
  LF
  ++ lit "You are a senior resume expert. Improve the resume below using the gap analysis." ++ LF
  ++ LF
  ++ lit "Resume:" ++ LF
  ++ tailored ++ LF
  ++ LF
  ++ lit "Gaps JSON:" ++ LF
  ++ gaps ++ LF
  ++ LF
  ++ lit "Return ONLY the final improved resume in Markdown." ++ LF.

(** [fs.writeFileSync(path, value)] for a value that may not be a
    string: the write hands the string back, anything else throws. *)
Definition writeValue (path : jsstring) (value : JSON number) : M jsstring :=
  match value with
  | JStr s => writeFileSync path s ;; ret s
  | _ => throw (invalidData value)
  end.

Definition defaultTemplate : jsstring :=
  lit "<html><body>{{CONTENT}}</body></html>".

Definition renderPDF (md pathOut : jsstring) : M unit :=
  hasTemplate <- existsSync host (templatePath host) ;;
  htmlTemplate <- (if hasTemplate then readFileSync_utf8 host (templatePath host)
                   else ret defaultTemplate) ;;
  let html := String_replace
                (String_replace htmlTemplate (lit "{{CONTENT}}") (marked_parse host md))
                (lit "{{TITLE}}") (lit "Tailored Resume") in
  ensureDir host (lit "output") ;;
  writeFileSync (lit "output/rendered.html") html ;;
  attempt (launch_error host) EvBrowserLaunch ;;
  attempt (newPage_error host) EvNewPage ;;
  attempt (setContent_error host html) (EvSetContent html) ;;
  attempt (pdf_error host html pathOut) (EvPdf pathOut) ;;
  attempt (close_error host) EvBrowserClose.

(** [path.isAbsolute(resumePath) ? resumePath
                                 : path.join(process.cwd(), resumePath)] *)
Definition absResume : jsstring :=
  if path_isAbsolute host (resumePathInput cfg) then resumePathInput cfg
  else path_join host [cwd host; resumePathInput cfg].

(** The [try] block.  The values the calls return reach the prompts
    only after they were written, that is as strings. *)
Definition mainBody : M unit :=
  found <- existsSync host absResume ;;
  (if found then ret tt
   else throw (Error (lit "Resume file not found: " ++ absResume))) ;;
  ensureDir host (lit "output") ;;
  resumeText <- extractTextFromDocx host absResume ;;
  tailoredValue <- callGemini (buildTailorPrompt resumeText (jobTitle cfg) (jobDesc cfg))
                              noOptions ;;
  tailored <- writeValue (lit "output/tailored_stage1.md") tailoredValue ;;
  gapsValue <- callGemini (buildRecruiterPrompt tailored (company cfg) (jobTitle cfg)
                                                (jobDesc cfg))
                          noOptions ;;
  gaps <- writeValue (lit "output/recruiter_gaps.json") gapsValue ;;
  improvedValue <- callGemini (buildFixPrompt tailored gaps) noOptions ;;
  improved <- writeValue (lit "output/tailored_final.md") improvedValue ;;
  renderPDF improved (lit "output/tailored_final.pdf").

(** The [catch] block. *)
Definition onError (err : exn) : M unit :=
  ensureDir host (lit "output") ;;
  writeFileSync (lit "output/error.txt") (String_of_exn err) ;;
  process_exit 1.

(** The main flow.  Nothing calls [process.exit] on success: a normal
    end is exit status 0. *)
Definition main : M unit := try_catch mainBody onError.

End Script.

End V1.

Module Samples.

Import Demo.

(** A reply in the shape the generateContent endpoint documents: the
    candidate's content is an object holding the parts. *)
Definition generateContentResponse : JSON decimal :=
  JObj [(lit "candidates",
         JArr [JObj [(lit "content",
                      JObj [(lit "parts",
                             JArr [JObj [(lit "text", JStr (lit "Jane Doe"))]]);
                            (lit "role", JStr (lit "model"))]);
                     (lit "finishReason", JStr (lit "STOP"))]])].

(** A candidate whose content list has a null element. *)
Definition nullPartResponse : JSON decimal :=
  JObj [(lit "candidates",
         JArr [JObj [(lit "content",
                      JArr [JStr (lit "Jane Doe"); JNull])]])].

(** A candidate whose message content is a list of strings. *)
Definition messageStringsResponse : JSON decimal :=
  JObj [(lit "candidates",
         JArr [JObj [(lit "message",
                      JObj [(lit "content",
                             JArr [JStr (lit "Jane"); JStr (lit "Doe")])])]])].

(** A candidate whose content is a list of plain parts. *)
Definition plainPartsResponse : JSON decimal :=
  JObj [(lit "candidates",
         JArr [JObj [(lit "content",
                      JArr [JObj [(lit "text", JStr (lit "Jane Doe"))];
                            JStr (lit "Engineer")])]])].

(** An error body of the endpoint. *)
Definition errorBody (message : jsstring) : JSON decimal :=
  JObj [(lit "error", JObj [(lit "code", JNum (Dec 400 0));
                            (lit "message", JStr message)])].

End Samples.

(* ===================================================================== *)
(** ** Flags as minimist hands them over, and a file system that can refuse *)
(* ===================================================================== *)

(** The embedding above takes the four flags the main flow reads as text
    and lets [fs.mkdirSync] and [fs.writeFileSync] succeed.  Neither is
    given: minimist hands a flag over as a string, as a number (a value
    that looks numeric), as [true] (a bare flag), as an array (a repeated
    flag) or as an object (a dotted flag), and both file-system calls can
    throw.  [Raw] embeds the functions that depend on either once more,
    under the names they have in the source; the functions that depend on
    neither ([extractTextFromDocx], [callGemini], the response parsing,
    [fillTemplate], the critique parsing) are the ones above.  With text
    flags and a file system that accepts every write the two embeddings
    agree ([raw_main_on_text_flags] below). *)

(** What can go wrong outside the script, beyond [Host]. *)
Record Faults (number : Type) := {
  (** the error of [fs.mkdirSync(p)] after the effects so far, [None]
      when the directory is created *)
  mkdir_error : trace -> jsstring -> option exn;
  (** the error of [fs.writeFileSync(p, data, 'utf8')], [None] when the
      file is written *)
  writeFile_error : trace -> jsstring -> jsstring -> option exn;
  (** the [TypeError] ([ERR_INVALID_ARG_TYPE]) of [path.isAbsolute] for
      an argument that is not a string *)
  invalidPathArgument : JSON number -> exn
}.

Module Raw.

(** The module-level constants computed from the flags.  A flag value is
    a [JSON] value; minimist produces no [null]. *)
Record Flags (number : Type) := {
  jobTitle : JSON number;
  jobDesc : JSON number;
  company : JSON number;
  resumePathInput : JSON number
}.

Section Script.

Context {number : Type} {NUM : JsNumber number}.
Variable host : Host number.
Variable faults : Faults number.

Definition mkdirSync (p : jsstring) : M unit :=
  fun tr => attempt (mkdir_error faults tr p) (EvMkdir p) tr.

Definition writeFileSync (p data : jsstring) : M unit :=
  fun tr => attempt (writeFile_error faults tr p data) (EvWriteFile p data) tr.

(** [if (!fs.existsSync(dir)) fs.mkdirSync(dir)] *)
Definition ensureDir (dir : jsstring) : M unit :=
  ex <- existsSync host dir ;;
  if ex then ret tt else mkdirSync dir.

(** [a || b] on values. *)
Definition orValue (a b : JSON number) : JSON number :=
  if truthy a then a else b.

(** [path.isAbsolute(requestedPath)] is the first statement: it throws
    on anything but a string, and on a string the function goes on as
    embedded above. *)
Definition findResumeFile (requestedPath : JSON number) : M (option jsstring) :=
  match requestedPath with
  | JStr p => findResumeFile host p
  | _ => throw (invalidPathArgument faults requestedPath)
  end.

(** The template literals convert the flags they interpolate, in the
    order of the placeholders; a conversion that throws is the
    exception of the call. *)
Definition buildTailorPrompt (resumeText : jsstring) (jobTitle jobDesc : JSON number)
    : Result jsstring :=
  rbind (ToString jobTitle) (fun title =>
  rbind (ToString jobDesc) (fun desc =>
  inr (buildTailorPrompt resumeText title desc))).

Definition buildRecruiterReviewPrompt (tailoredResumeMarkdown : jsstring)
    (company jobTitle jobDesc : JSON number) : Result jsstring :=
  rbind (ToString company) (fun name =>
  rbind (ToString jobTitle) (fun title =>
  rbind (ToString jobDesc) (fun desc =>
  inr (buildRecruiterReviewPrompt tailoredResumeMarkdown name title desc)))).

(** [`${jobTitle} - Tailored Resume`] *)
Definition pdfTitle (jobTitle : JSON number) : Result jsstring :=
  rbind (ToString jobTitle) (fun title => inr (title ++ lit " - Tailored Resume")).

Definition saveMarkdownAsPdf (markdownText outPdfPath title : jsstring) : M unit :=
  hasTemplate <- existsSync host (templatePath host) ;;
  template <- (if hasTemplate then readFileSync_utf8 host (templatePath host)
               else ret defaultTemplate) ;;
  let htmlResume := marked_parse host markdownText in
  let filled := fillTemplate template htmlResume title in
  ensureDir (outputDir host) ;;
  writeFileSync (outputFile host (lit "tailored_resume_rendered.html")) filled ;;
  attempt (launch_error host) EvBrowserLaunch ;;
  attempt (newPage_error host) EvNewPage ;;
  attempt (setContent_error host filled) (EvSetContent filled) ;;
  attempt (pdf_error host filled outPdfPath) (EvPdf outPdfPath) ;;
  attempt (close_error host) EvBrowserClose.

(** The [try] block from the extraction to the rendering.  [cfg]
    supplies the constants the environment gives as text (the key, the
    model, the token cap), which is all [callGemini] reads of it. *)
Definition stages (cfg : Config number) (flags : Flags number)
    (resolvedResume : jsstring) : M unit :=
  resumeText <- extractTextFromDocx host resolvedResume ;;
  (* Stage 1: tailor *)
  tailorPrompt <- liftR (buildTailorPrompt resumeText (jobTitle flags) (jobDesc flags)) ;;
  tailored <- callGemini host cfg tailorPrompt tailorOpts ;;
  writeFileSync (outputFile host (lit "tailored_resume_stage1.md")) tailored ;;
  (* Stage 2: recruiter review *)
  reviewPrompt <- liftR (buildRecruiterReviewPrompt tailored (company flags)
                           (jobTitle flags) (jobDesc flags)) ;;
  gapsRaw <- callGemini host cfg reviewPrompt reviewOpts ;;
  let gapsJson := gapsJsonOf host gapsRaw in
  writeFileSync (outputFile host (lit "recruiter_gaps.json.txt")) gapsJson ;;
  (* Stage 3: fix gaps *)
  let fixPrompt := buildFixPrompt tailored gapsJson in
  fixedResume <- callGemini host cfg fixPrompt fixOpts ;;
  writeFileSync (outputFile host (lit "tailored_resume_final.md")) fixedResume ;;
  (* Render PDF *)
  let outPdf := outputFile host (lit "tailored_resume_final.pdf") in
  title <- liftR (pdfTitle (jobTitle flags)) ;;
  saveMarkdownAsPdf fixedResume outPdf title.

(** [resumePathInput || 'resumes/Keshav-resume.docx'] *)
Definition requestedResume (flags : Flags number) : JSON number :=
  orValue (resumePathInput flags) (JStr (lit "resumes/Keshav-resume.docx")).

(** The body of the [try] block. *)
Definition mainBody (cfg : Config number) (flags : Flags number) : M unit :=
  ensureDir (outputDir host) ;;
  resolvedResume <- findResumeFile (requestedResume flags) ;;
  resumeFile <- match resolvedResume with
                | Some p => if nonEmpty p then ret p else process_exit 2
                | None => process_exit 2
                end ;;
  stages cfg flags resumeFile ;;
  process_exit 0.

(** The [catch (err)] block: the report is attempted, what it throws is
    dropped, and the process exits with 10 either way. *)
Definition onError (err : exn) : M unit :=
  try_catch
    (ensureDir (outputDir host) ;;
     writeFileSync (outputFile host (lit "error.txt")) (String_of_exn err))
    (fun _ => ret tt) ;;
  process_exit 10.

Definition main (cfg : Config number) (flags : Flags number) : M unit :=
  try_catch (mainBody cfg flags) onError.

(** *** Observations *)

(** The trace once the output directory has been ensured; [None] when it
    is missing and its creation is refused. *)
Definition afterEnsureOutput (tr : trace) : option trace :=
  if pathExists host tr (outputDir host) then Some tr
  else match mkdir_error faults tr (outputDir host) with
       | None => Some (tr ++ [EvMkdir (outputDir host)])
       | Some _ => None
       end.

(** The trace once the [catch] block has run on [err]: the error
    artifact is its last entry when the directory is there or can be
    created and the write is accepted, and is missing otherwise. *)
Definition afterErrorReport (err : exn) (tr : trace) : trace :=
  match afterEnsureOutput tr with
  | Some tr1 =>
      match writeFile_error faults tr1 (outputFile host (lit "error.txt"))
                            (String_of_exn err) with
      | None => tr1 ++ [EvWriteFile (outputFile host (lit "error.txt"))
                                    (String_of_exn err)]
      | Some _ => tr1
      end
  | None => tr
  end.

End Script.

(** *** Module level *)

(** The constants the environment supplies; [callGemini] reads nothing
    else of the record. *)
Definition envConfig {number} {NUM : JsNumber number}
    (key : jsstring) (penv : ProcessEnv) : Config number :=
  configOf key penv
    {| arg_job_title := None; arg_jobTitle := None; arg_job_desc := None;
       arg_jobDesc := None; arg_job_description := None; arg_company := None;
       arg_resume_path := None; arg_max_iterations := None |}.

(** The flags as minimist hands them over; [None] is an absent flag. *)
Record Argv (number : Type) := {
  arg_job_title : option (JSON number);        (* argv['job-title'] *)
  arg_jobTitle : option (JSON number);         (* argv.jobTitle *)
  arg_job_desc : option (JSON number);         (* argv['job-desc'] *)
  arg_jobDesc : option (JSON number);          (* argv.jobDesc *)
  arg_job_description : option (JSON number);  (* argv['job-description'] *)
  arg_company : option (JSON number);          (* argv.company *)
  arg_resume_path : option (JSON number);      (* argv['resume-path'] *)
  arg_max_iterations : option (JSON number)    (* argv['max-iterations'] *)
}.

Section ModuleLevel.

Context {number : Type} {NUM : JsNumber number}.

(** [flag || b], where an absent flag is [undefined]. *)
Definition flagOr (flag : option (JSON number)) (b : JSON number) : JSON number :=
  match flag with
  | Some v => orValue v b
  | None => b
  end.

Definition flagsOf (argv : Argv number) : Flags number :=
  {| jobTitle := flagOr (arg_job_title argv)
                   (flagOr (arg_jobTitle argv) (JStr (lit "Software Engineer")));
     jobDesc := flagOr (arg_job_desc argv)
                  (flagOr (arg_jobDesc argv)
                     (flagOr (arg_job_description argv) (JStr [])));
     company := flagOr (arg_company argv) (JStr (lit "Company"));
     resumePathInput := flagOr (arg_resume_path argv)
                          (JStr (lit "resumes/Keshav-resume.docx")) |}.

(** [parseInt(argv['max-iterations'] || 1, 10) || 1]: [parseInt]
    converts its argument to a string first, which throws on an object
    with a [toString] field of its own. *)
Definition maxIterationsOf (argv : Argv number) : Result Z :=
  rbind (ToString (flagOr (arg_max_iterations argv) (JNum (num_lit 1 0))))
        (fun s => inr match parseInt10 s with
                      | Some n => if (n =? 0)%Z then 1%Z else n
                      | None => 1%Z
                      end).

(** The script from its first statement: the credential check, the
    constants, then the main flow.  An exception at module level is not
    caught by anything. *)
Definition program (host : Host number) (faults : Faults number)
    (penv : ProcessEnv) (argv : Argv number) : M unit :=
  match env_GEMINI_API_KEY penv with
  | Some key =>
      if nonEmpty key then
        match maxIterationsOf argv with
        | inl e => throw e
        | inr _ => main host faults (envConfig key penv) (flagsOf argv)
        end
      else process_exit 1
  | None => process_exit 1
  end.

(** A run of the script from an empty trace. *)
Definition run (host : Host number) (faults : Faults number)
    (penv : ProcessEnv) (argv : Argv number) : completion unit * trace :=
  program host faults penv argv [].

(** The status the process ends with: that of [process.exit], 1 for an
    exception nothing caught, 0 when the script runs to its end. *)
Definition exitStatus {A} (c : completion A) : Z :=
  match c with
  | Normal _ => 0
  | Throw _ => 1
  | Exit code => code
  end.

End ModuleLevel.

End Raw.

(** Examples for [Raw]: a working directory that is read-only or not,
    and the usual flags. *)
Module RawDemo.

(** How Node words the value it received. *)
Definition received (v : JSON Demo.decimal) : jsstring :=
  match v with
  | JNull => lit "null"
  | JBool true => lit "type boolean (true)"
  | JBool false => lit "type boolean (false)"
  | JNum n => lit "type number (" ++ Demo.decimal_toString n ++ lit ")"
  | JStr s => lit "type string ('" ++ s ++ lit "')"
  | JArr _ => lit "an instance of Array"
  | JObj _ => lit "an instance of Object"
  end.

Definition invalidArgType (v : JSON Demo.decimal) : exn :=
  JsError (lit "TypeError [ERR_INVALID_ARG_TYPE]")
          (lit "The " ++ quoted (lit "path")
             ++ lit " argument must be of type string. Received " ++ received v).

Definition denied (call p : jsstring) : exn :=
  JsError (lit "Error")
          (lit "EACCES: permission denied, " ++ call ++ lit " '" ++ p ++ lit "'").

Definition faults (readOnly : bool) : Faults Demo.decimal :=
  {| mkdir_error := fun _ p => if readOnly then Some (denied (lit "mkdir") p) else None;
     writeFile_error := fun _ p _ => if readOnly then Some (denied (lit "open") p) else None;
     invalidPathArgument := invalidArgType |}.

Definition flags : Raw.Flags Demo.decimal :=
  {| Raw.jobTitle := JStr (lit "Software Engineer");
     Raw.jobDesc := JStr (lit "Build things");
     Raw.company := JStr (lit "Company");
     Raw.resumePathInput := JStr (lit "resumes/Keshav-resume.docx") |}.

(** [--resume-path 123] *)
Definition numericPath : Raw.Flags Demo.decimal :=
  {| Raw.jobTitle := JStr (lit "Software Engineer");
     Raw.jobDesc := JStr (lit "Build things");
     Raw.company := JStr (lit "Company");
     Raw.resumePathInput := JNum (Demo.Dec 123 0) |}.

End RawDemo.

(* ===================================================================== *)
(** ** Properties                                                         *)
(* ===================================================================== *)

(* --------------------------------------------------------------------- *)
(** *** Strings                                                           *)
(* --------------------------------------------------------------------- *)

Lemma trimStart_suffix (s : jsstring) :
  exists dropped, s = dropped ++ trimStart s.
Proof.
  induction s as [|c s IH]; simpl.
  - exists []. reflexivity.
  - destruct (isWhiteSpace c).
    + destruct IH as [d Hd]. exists (c :: d). simpl. now rewrite <- Hd.
    + exists []. reflexivity.
Qed.

Lemma trimStart_head (s : jsstring) : noLeadingSpace (trimStart s).
Proof.
  induction s as [|c s IH]; simpl; intros d rest H.
  - discriminate.
  - destruct (isWhiteSpace c) eqn:E.
    + eapply IH; eauto.
    + now injection H as -> _.
Qed.

Lemma trimEnd_prefix (s : jsstring) :
  exists dropped, s = trimEnd s ++ dropped.
Proof.
  unfold trimEnd.
  destruct (trimStart_suffix (rev s)) as [d Hd].
  exists (rev d).
  rewrite <- rev_app_distr, <- Hd. now rewrite rev_involutive.
Qed.

Lemma trimEnd_last (s : jsstring) : noTrailingSpace (trimEnd s).
Proof.
  unfold trimEnd. intros c front H.
  apply (f_equal (@rev N)) in H.
  rewrite rev_involutive, rev_app_distr in H. simpl in H.
  eapply trimStart_head; eauto.
Qed.

Lemma String_trim_leading (s : jsstring) : noLeadingSpace (String_trim s).
Proof.
  unfold String_trim. intros c rest H.
  destruct (trimEnd_prefix (trimStart s)) as [d Hd].
  rewrite H in Hd. simpl in Hd.
  eapply trimStart_head; eauto.
Qed.

Lemma String_trim_trailing (s : jsstring) : noTrailingSpace (String_trim s).
Proof. apply trimEnd_last. Qed.

Lemma String_trim_In (s : jsstring) (c : N) : In c (String_trim s) -> In c s.
Proof.
  unfold String_trim. intros H.
  destruct (trimEnd_prefix (trimStart s)) as [d Hd].
  destruct (trimStart_suffix s) as [d' Hd'].
  rewrite Hd'. apply in_or_app. right.
  rewrite Hd. apply in_or_app. now left.
Qed.

Lemma removeCR_no_CR (s : jsstring) : ~ In 13%N (removeCR s).
Proof.
  unfold removeCR. intros H. apply filter_In in H as [_ H].
  discriminate.
Qed.

Lemma startsWith_app (a b : jsstring) : startsWith (a ++ b) a = true.
Proof.
  induction a as [|x a IH]; simpl.
  - now destruct b.
  - now rewrite N.eqb_refl, IH.
Qed.

Lemma startsWith_includes (s p : jsstring) :
  startsWith s p = true -> includes s p = true.
Proof. intros H. destruct s; simpl in *; now rewrite H. Qed.

Lemma includes_app (pre s post : jsstring) : includes (pre ++ s ++ post) s = true.
Proof.
  induction pre as [|x pre IH]; simpl.
  - apply startsWith_includes, startsWith_app.
  - rewrite IH. apply orb_true_r.
Qed.

(* --------------------------------------------------------------------- *)
(** *** The effect monad                                                  *)
(* --------------------------------------------------------------------- *)

Create HintDb effects.

Section Effects.

Context {number : Type} {NUM : JsNumber number}.
Variable host : Host number.
Variable P : event -> Prop.

Lemma emitsOnly_ret {A} (a : A) : emitsOnly P (ret a).
Proof. intros tr. exists []. simpl. now rewrite app_nil_r. Qed.

Lemma emitsOnly_throw {A} (e : exn) : emitsOnly P (@throw A e).
Proof. intros tr. exists []. simpl. now rewrite app_nil_r. Qed.

Lemma emitsOnly_exit {A} (c : Z) : emitsOnly P (@process_exit A c).
Proof. intros tr. exists []. simpl. now rewrite app_nil_r. Qed.

Lemma emitsOnly_liftR {A} (r : Result A) : emitsOnly P (liftR r).
Proof. destruct r; [apply emitsOnly_throw | apply emitsOnly_ret]. Qed.

Lemma emitsOnly_emit (e : event) : P e -> emitsOnly P (emit e).
Proof. intros H tr. exists [e]. simpl. auto. Qed.

Lemma emitsOnly_attempt (err : option exn) (e : event) :
  P e -> emitsOnly P (attempt err e).
Proof.
  intros H. destruct err; [apply emitsOnly_throw | now apply emitsOnly_emit].
Qed.

Lemma emitsOnly_bind {A B} (m : M A) (k : A -> M B) :
  emitsOnly P m -> (forall a, emitsOnly P (k a)) -> emitsOnly P (bind m k).
Proof.
  intros Hm Hk tr. unfold bind.
  destruct (Hm tr) as [evs [E1 F1]].
  destruct (m tr) as [[a|e|c] tr1]; simpl in E1; subst tr1.
  - destruct (Hk a (tr ++ evs)) as [evs2 [E2 F2]].
    exists (evs ++ evs2). rewrite E2, app_assoc. split; [reflexivity|].
    apply Forall_app; auto.
  - exists evs. auto.
  - exists evs. auto.
Qed.

Lemma emitsOnly_try_catch {A} (m : M A) (h : exn -> M A) :
  emitsOnly P m -> (forall e, emitsOnly P (h e)) -> emitsOnly P (try_catch m h).
Proof.
  intros Hm Hh tr. unfold try_catch.
  destruct (Hm tr) as [evs [E1 F1]].
  destruct (m tr) as [[a|e|c] tr1]; simpl in E1; subst tr1.
  - exists evs. auto.
  - destruct (Hh e (tr ++ evs)) as [evs2 [E2 F2]].
    exists (evs ++ evs2). rewrite E2, app_assoc. split; [reflexivity|].
    apply Forall_app; auto.
  - exists evs. auto.
Qed.

Lemma emitsOnly_existsSync (p : jsstring) : emitsOnly P (existsSync host p).
Proof. intros tr. exists []. simpl. now rewrite app_nil_r. Qed.

Lemma emitsOnly_doFetch (req : Request) :
  P (EvFetch req) -> emitsOnly P (doFetch host req).
Proof.
  intros H tr. exists [EvFetch req]. unfold doFetch.
  destruct (fetch host tr req); simpl; auto.
Qed.

Lemma emitsOnly_if {A} (b : bool) (m1 m2 : M A) :
  emitsOnly P m1 -> emitsOnly P m2 -> emitsOnly P (if b then m1 else m2).
Proof. now destruct b. Qed.

End Effects.

#[export] Hint Resolve emitsOnly_ret emitsOnly_throw emitsOnly_exit
  emitsOnly_liftR emitsOnly_emit emitsOnly_attempt emitsOnly_bind
  emitsOnly_try_catch emitsOnly_existsSync emitsOnly_doFetch emitsOnly_if
  : effects.

Lemma neverExits_ret {A} (a : A) : neverExits (ret a).
Proof. intros tr c. discriminate. Qed.

Lemma neverExits_throw {A} (e : exn) : neverExits (@throw A e).
Proof. intros tr c. discriminate. Qed.

Lemma neverExits_liftR {A} (r : Result A) : neverExits (liftR r).
Proof. destruct r; [apply neverExits_throw | apply neverExits_ret]. Qed.

Lemma neverExits_emit (e : event) : neverExits (emit e).
Proof. intros tr c. discriminate. Qed.

Lemma neverExits_attempt (err : option exn) (e : event) :
  neverExits (attempt err e).
Proof. destruct err; [apply neverExits_throw | apply neverExits_emit]. Qed.

Lemma neverExits_bind {A B} (m : M A) (k : A -> M B) :
  neverExits m -> (forall a, neverExits (k a)) -> neverExits (bind m k).
Proof.
  intros Hm Hk tr c. unfold bind. specialize (Hm tr).
  destruct (m tr) as [[a|e|c'] tr1]; simpl in *.
  - apply Hk.
  - discriminate.
  - exfalso. now apply (Hm c').
Qed.

Lemma neverExits_if {A} (b : bool) (m1 m2 : M A) :
  neverExits m1 -> neverExits m2 -> neverExits (if b then m1 else m2).
Proof. now destruct b. Qed.

#[export] Hint Resolve neverExits_ret neverExits_throw neverExits_liftR
  neverExits_emit neverExits_attempt neverExits_bind neverExits_if : effects.

(* --------------------------------------------------------------------- *)
(** *** Document text extractor                                           *)
(* --------------------------------------------------------------------- *)

(** C7.  For a resume file that can be read and that mammoth accepts,
    [extractTextFromDocx] returns a string, and that string contains no
    carriage return and neither starts nor ends with white space. *)
Theorem extractTextFromDocx_clean
    {number : Type} {NUM : JsNumber number} (host : Host number)
    (filePath : jsstring) (buffer : list N) (value : jsstring) (tr : trace) :
  fs_readFile host filePath = inr buffer ->
  mammoth_extractRawText host buffer = inr value ->
  exists text,
    extractTextFromDocx host filePath tr
      = (Normal text, tr ++ [EvReadFile filePath])
    /\ ~ In 13%N text
    /\ noLeadingSpace text
    /\ noTrailingSpace text.
Proof.
  intros Hread Hdocx.
  exists (String_trim (removeCR value)).
  split; [| split; [| split]].
  - unfold extractTextFromDocx, readFileSync, bind, emit.
    rewrite Hread. simpl. now rewrite Hdocx.
  - intros H. apply String_trim_In in H. now apply removeCR_no_CR in H.
  - apply String_trim_leading.
  - apply String_trim_trailing.
Qed.

Lemma extractTextFromDocx_clean_witness :
  exists text,
    extractTextFromDocx
      (Demo.host [Demo.resume] [32; 74; 111; 13; 10; 68; 111; 101; 13; 10; 9]%N [] None)
      Demo.resume []
      = (Normal text, [] ++ [EvReadFile Demo.resume])
    /\ ~ In 13%N text
    /\ noLeadingSpace text
    /\ noTrailingSpace text.
Proof.
  apply (@extractTextFromDocx_clean _ _ _ Demo.resume [80; 75]%N
           [32; 74; 111; 13; 10; 68; 111; 101; 13; 10; 9]%N []);
    reflexivity.
Defined.

(* --------------------------------------------------------------------- *)
(** *** Prompt builders                                                   *)
(* --------------------------------------------------------------------- *)

Lemma includes_here (s post : jsstring) : includes (s ++ post) s = true.
Proof. apply startsWith_includes, startsWith_app. Qed.

Lemma includes_skip (pre t s : jsstring) :
  includes t s = true -> includes (pre ++ t) s = true.
Proof.
  intros H. induction pre as [|x pre IH]; simpl; [assumption|].
  rewrite IH. apply orb_true_r.
Qed.

Ltac find_embedded :=
  repeat (apply includes_here || apply includes_skip).

(** Each prompt carries the texts it is built from. *)
Lemma prompts_embed_inputs (resumeText title desc comp gaps : jsstring) :
  includes (buildTailorPrompt resumeText title desc) resumeText = true
  /\ includes (buildTailorPrompt resumeText title desc) title = true
  /\ includes (buildTailorPrompt resumeText title desc) desc = true
  /\ includes (buildRecruiterReviewPrompt resumeText comp title desc) resumeText = true
  /\ includes (buildRecruiterReviewPrompt resumeText comp title desc) comp = true
  /\ includes (buildFixPrompt resumeText gaps) resumeText = true
  /\ includes (buildFixPrompt resumeText gaps) gaps = true.
Proof.
  unfold buildTailorPrompt, buildRecruiterReviewPrompt, buildFixPrompt.
  repeat split; find_embedded.
Qed.

(** C8.  The three prompt builders are functions of their string
    arguments alone: they return a prompt for all inputs, and two calls
    of the same builder on equal inputs return equal prompts, code unit
    for code unit. *)
Theorem prompt_builders_deterministic
    (resume1 resume2 title1 title2 desc1 desc2 : jsstring)
    (company1 company2 gaps1 gaps2 : jsstring) :
  resume1 = resume2 -> title1 = title2 -> desc1 = desc2 ->
  company1 = company2 -> gaps1 = gaps2 ->
  buildTailorPrompt resume1 title1 desc1 = buildTailorPrompt resume2 title2 desc2
  /\ buildRecruiterReviewPrompt resume1 company1 title1 desc1
     = buildRecruiterReviewPrompt resume2 company2 title2 desc2
  /\ buildFixPrompt resume1 gaps1 = buildFixPrompt resume2 gaps2.
Proof. intros -> -> -> -> ->. repeat split. Qed.

Lemma prompt_builders_deterministic_witness :
  buildTailorPrompt (lit "R") (lit "T") (lit "D")
    = buildTailorPrompt (lit "R") (lit "T") (lit "D")
  /\ buildRecruiterReviewPrompt (lit "R") (lit "C") (lit "T") (lit "D")
     = buildRecruiterReviewPrompt (lit "R") (lit "C") (lit "T") (lit "D")
  /\ buildFixPrompt (lit "R") (lit "{}") = buildFixPrompt (lit "R") (lit "{}").
Proof.
  apply (@prompt_builders_deterministic (lit "R") (lit "R") (lit "T") (lit "T")
           (lit "D") (lit "D") (lit "C") (lit "C") (lit "{}") (lit "{}"));
    reflexivity.
Defined.

(* --------------------------------------------------------------------- *)
(** *** Response-shape extraction                                         *)
(* --------------------------------------------------------------------- *)

Section Extraction.

Context {number : Type} {NUM : JsNumber number}.

Lemma getProp_field (v : JSON number) (k : jsstring) :
  isNull v = false -> getProp v k = inr (field v k).
Proof. destruct v; simpl; intros H; try reflexivity; discriminate. Qed.

Lemma truthy_not_null (v : JSON number) : truthy v = true -> isNull v = false.
Proof. destruct v; simpl; intros H; try reflexivity; discriminate. Qed.

Lemma field_falsy (v : JSON number) (k : jsstring) :
  truthy v = false -> field v k = None.
Proof. destruct v; simpl; intros H; try reflexivity; discriminate. Qed.

Lemma partText_textOfPart (p : JSON number) :
  isNull p = false -> partText p = inr (textOfPart p).
Proof.
  intros H. unfold partText, textOfPart.
  destruct p; try discriminate; try reflexivity; simpl;
    match goal with
    | |- context [lookup ?k ?f] => destruct (lookup k f) as [t|]; [destruct (truthy t)|]
    end; reflexivity.
Qed.

Lemma itemText_textOfItem (o : JSON number) :
  isNull o = false -> itemText o = inr (textOfItem o).
Proof.
  intros H. unfold itemText, textOfItem.
  rewrite (getProp_field _ _ H). simpl.
  destruct (field o (lit "text")) as [t|]; [destruct (truthy t)|]; reflexivity.
Qed.

Lemma mapR_total {A B} (f : A -> Result B) (g : A -> B) (l : list A) :
  Forall (fun x => f x = inr (g x)) l -> mapR f l = inr (map g l).
Proof.
  induction 1 as [|x l Hx _ IH]; simpl; [reflexivity|].
  rewrite Hx. simpl. fold (mapR f l). now rewrite IH.
Qed.

Lemma mapJoin_parts (parts : list (JSON number)) :
  Forall (fun p => isNull p = false) parts ->
  mapJoin partText parts = join LF (map textOfPart parts).
Proof.
  intros H. unfold mapJoin.
  rewrite (mapR_total partText textOfPart); [reflexivity|].
  eapply Forall_impl; [|exact H]. apply partText_textOfPart.
Qed.

Lemma mapJoin_items (items : list (JSON number)) :
  Forall (fun p => isNull p = false) items ->
  mapJoin itemText items = join LF (map textOfItem items).
Proof.
  intros H. unfold mapJoin.
  rewrite (mapR_total itemText textOfItem); [reflexivity|].
  eapply Forall_impl; [|exact H]. apply itemText_textOfItem.
Qed.

Lemma topLevelOutput_shape (json : JSON number) :
  isNull json = false ->
  Forall (fun p => isNull p = false) (shapeParts (topLevelShape json)) ->
  topLevelOutput json = shapeText json (topLevelShape json).
Proof.
  intros Hn. unfold topLevelOutput, topLevelShape.
  rewrite (getProp_field _ _ Hn). simpl.
  destruct (field json (lit "output")) as [[| | | |outs|]|]; try reflexivity.
  destruct outs as [|out0 outs]; simpl; [reflexivity|].
  destruct (truthy out0) eqn:T.
  - rewrite (getProp_field _ _ (truthy_not_null _ T)). simpl.
    destruct (field out0 (lit "content")) as [[| | | |parts|]|]; try reflexivity.
    simpl. apply mapJoin_items.
  - now rewrite (field_falsy _ _ T).
Qed.

Lemma fromMessage_shape (json cand : JSON number) :
  isNull json = false -> isNull cand = false ->
  Forall (fun p => isNull p = false)
         (shapeParts match messageShape cand with
                     | Some shape => shape
                     | None => topLevelShape json
                     end) ->
  fromMessage json cand
    = shapeText json match messageShape cand with
                     | Some shape => shape
                     | None => topLevelShape json
                     end.
Proof.
  intros Hj Hc. unfold fromMessage, messageShape.
  rewrite (getProp_field _ _ Hc). simpl.
  destruct (field cand (lit "message")) as [msg|];
    [|now apply topLevelOutput_shape].
  destruct (truthy msg) eqn:T.
  - rewrite (getProp_field _ _ (truthy_not_null _ T)). simpl.
    destruct (field msg (lit "content")) as [[| | |s|parts|]|];
      try (now apply topLevelOutput_shape).
    + destruct s; [now apply topLevelOutput_shape | reflexivity].
    + simpl. apply mapJoin_items.
  - rewrite (field_falsy _ _ T). now apply topLevelOutput_shape.
Qed.

Lemma fromCandidate_shape (json cand : JSON number) :
  isNull json = false -> isNull cand = false ->
  Forall (fun p => isNull p = false)
         (shapeParts match candidateShape cand with
                     | Some shape => shape
                     | None => topLevelShape json
                     end) ->
  fromCandidate json cand
    = shapeText json match candidateShape cand with
                     | Some shape => shape
                     | None => topLevelShape json
                     end.
Proof.
  intros Hj Hc. unfold fromCandidate, candidateShape.
  rewrite !(getProp_field _ _ Hc). simpl.
  destruct (field cand (lit "content")) as [[| | |s|parts|]|];
    try reflexivity; try (simpl; apply mapJoin_parts);
    (destruct (field cand (lit "output")) as [[| | | |outs|]|];
     try (now apply fromMessage_shape); simpl; apply mapJoin_items).
Qed.

End Extraction.




(** The missed case of the same function: a null element in a list of
    parts makes the callback read a property of null. *)
Lemma extractText_null_part_throws :
  extractTextFromResponseJson
    (JObj [(lit "candidates",
            JArr [JObj [(lit "content", JArr [@JNull Demo.decimal])]])])
  = inl (NullPropertyError (lit "text")).
Proof. reflexivity. Qed.

(* --------------------------------------------------------------------- *)
(** *** Generation client                                                 *)
(* --------------------------------------------------------------------- *)

Section Client.

Context {number : Type} {NUM : JsNumber number}.
Variable host : Host number.
Variable cfg : Config number.
Variable prompt : jsstring.
Variable opts : Options number.

Let req1 : Request := firstRequest cfg prompt opts.
Let req2 : Request := fallbackRequest cfg prompt opts.

(** What one call does, by cases on the replies of the host. *)
Lemma callGemini_cases (tr : trace) :
  has_fetch host = true ->
  callGemini host cfg prompt opts tr =
    match fetch host tr req1 with
    | FetchFailed e => (Throw e, tr ++ [EvFetch req1])
    | Responded r1 =>
        if res_ok r1 then
          liftR (extractTextFromResponseJson (a_json (attemptOf r1)))
                (tr ++ [EvFetch req1])
        else
          match fetch host (tr ++ [EvFetch req1]) req2 with
          | FetchFailed e => (Throw e, (tr ++ [EvFetch req1]) ++ [EvFetch req2])
          | Responded r2 =>
              if res_ok r2 then
                liftR (extractTextFromResponseJson (a_json (attemptOf r2)))
                      ((tr ++ [EvFetch req1]) ++ [EvFetch req2])
              else
                (Throw (Error (failureMessage (attemptOf r1) (attemptOf r2))),
                 (tr ++ [EvFetch req1]) ++ [EvFetch req2])
          end
    end.
Proof.
  intros Hf. unfold callGemini. rewrite Hf. simpl.
  unfold postJson, bind, doFetch, failureMessage.
  fold req1.
  change (postRequest (requestUrl cfg opts) (body1Of cfg prompt opts)) with req1.
  change (postRequest (requestUrl cfg opts) (body2Of prompt)) with req2.
  destruct (fetch host tr req1) as [r1|e1]; [|reflexivity].
  assert (Hok : forall r : Response number, a_ok (attemptOf r) = res_ok r).
  { intros r. unfold attemptOf. now destruct (res_json r). }
  unfold ret at 1. rewrite Hok.
  destruct (res_ok r1); [reflexivity|].
  destruct ((a_status (attemptOf r1) =? 400)%Z
            && unknownNameRegex (errTextOf (attemptOf r1)));
    (destruct (fetch host (tr ++ [EvFetch req1]) req2) as [r2|e2]; [|reflexivity];
     unfold ret; rewrite Hok; now destruct (res_ok r2)).
Qed.

(** Every effect of a call is a POST request, and there are at most two
    of them. *)
Lemma callGemini_at_most_two_posts (tr : trace) :
  exists evs,
    snd (callGemini host cfg prompt opts tr) = tr ++ evs
    /\ Forall (fun e => isPost e = true) evs
    /\ (List.length evs <= 2)%nat.
Proof.
  destruct (has_fetch host) eqn:Hf.
  - rewrite (callGemini_cases tr Hf).
    assert (L : forall (r : Result jsstring) t, snd (liftR r t) = t)
      by (intros [e|a] t; reflexivity).
    destruct (fetch host tr req1) as [r1|e1].
    + destruct (res_ok r1).
      * exists [EvFetch req1]. rewrite L. repeat constructor.
      * exists [EvFetch req1; EvFetch req2].
        split; [| repeat constructor].
        destruct (fetch host (tr ++ [EvFetch req1]) req2) as [r2|e2];
          [destruct (res_ok r2)|]; rewrite ?L; simpl;
          now rewrite <- app_assoc.
    + exists [EvFetch req1]. repeat constructor.
  - exists []. unfold callGemini. rewrite Hf. simpl.
    rewrite app_nil_r. repeat constructor.
Qed.

(** When both replies arrive and neither is [ok], the call throws the
    error with [failureMessage]. *)
Lemma callGemini_both_fail (tr : trace) (r1 r2 : Response number) :
  has_fetch host = true ->
  fetch host tr req1 = Responded r1 -> res_ok r1 = false ->
  fetch host (tr ++ [EvFetch req1]) req2 = Responded r2 -> res_ok r2 = false ->
  callGemini host cfg prompt opts tr
    = (Throw (Error (failureMessage (attemptOf r1) (attemptOf r2))),
       (tr ++ [EvFetch req1]) ++ [EvFetch req2]).
Proof.
  intros Hf H1 O1 H2 O2. rewrite (callGemini_cases tr Hf).
  now rewrite H1, O1, H2, O2.
Qed.

(** Conversely, a call that throws either saw both attempts fail, or
    hands on a rejection of [fetch], or failed while reading a reply
    that was [ok]. *)
Lemma callGemini_throw_cases (tr tr' : trace) (e : exn) :
  has_fetch host = true ->
  callGemini host cfg prompt opts tr = (Throw e, tr') ->
  (exists r1 r2,
      fetch host tr req1 = Responded r1 /\ res_ok r1 = false
      /\ fetch host (tr ++ [EvFetch req1]) req2 = Responded r2
      /\ res_ok r2 = false
      /\ e = Error (failureMessage (attemptOf r1) (attemptOf r2)))
  \/ fetch host tr req1 = FetchFailed e
  \/ fetch host (tr ++ [EvFetch req1]) req2 = FetchFailed e
  \/ (exists r, res_ok r = true
                /\ extractTextFromResponseJson (a_json (attemptOf r)) = inl e).
Proof.
  intros Hf. rewrite (callGemini_cases tr Hf).
  assert (L : forall (r : Result jsstring) t,
             liftR r t = (Throw e, tr') -> r = inl e)
    by (intros [x|a] t H; inversion H; reflexivity).
  destruct (fetch host tr req1) as [r1|e1] eqn:F1.
  - destruct (res_ok r1) eqn:O1.
    + intros H. right. right. right. exists r1. split; [assumption|].
      eapply L; eauto.
    + destruct (fetch host (tr ++ [EvFetch req1]) req2) as [r2|e2] eqn:F2.
      * destruct (res_ok r2) eqn:O2.
        -- intros H. right. right. right. exists r2. split; [assumption|].
           eapply L; eauto.
        -- intros H. inversion H. left. exists r1, r2. auto.
      * intros H. inversion H. subst. auto.
  - intros H. inversion H. subst. auto.
Qed.

(** The error message shows, for each attempt, what [describeAttempt]
    makes of it; for the first attempt of the unknown-field branch it
    shows [errTextOf]. *)
Lemma failureMessage_includes (a1 a2 : Attempt number) :
  includes (failureMessage a1 a2) (describeAttempt a2) = true
  /\ (includes (failureMessage a1 a2) (describeAttempt a1) = true
      \/ includes (failureMessage a1 a2) (errTextOf a1) = true).
Proof.
  unfold failureMessage, bothFailedMessage, apiErrorMessage.
  destruct ((a_status a1 =? 400)%Z && unknownNameRegex (errTextOf a1)).
  - split.
    + rewrite !app_assoc.
      rewrite <- (app_nil_r (_ ++ describeAttempt a2)), <- app_assoc.
      apply includes_app.
    + right. apply includes_app.
  - split.
    + rewrite !app_assoc.
      rewrite <- (app_nil_r (_ ++ describeAttempt a2)), <- app_assoc.
      apply includes_app.
    + left. apply includes_app.
Qed.

(** A failed attempt whose body parsed to a truthy JSON value appears in
    the message by its serialisation. *)
Lemma failureMessage_includes_json (a1 a2 : Attempt number) :
  (truthy (a_json a1) = true ->
   includes (failureMessage a1 a2) (JSON_stringify (a_json a1)) = true)
  /\ (truthy (a_json a2) = true ->
      includes (failureMessage a1 a2) (JSON_stringify (a_json a2)) = true).
Proof.
  destruct (failureMessage_includes a1 a2) as [H2 H1].
  unfold describeAttempt, errTextOf in *.
  split; intros T; rewrite T in *; [now destruct H1 | assumption].
Qed.

End Client.

(** C1, at a failing input.  Both attempts are answered with status 500
    and the JSON body [false].  Two POST requests go out and the call
    throws, but the message of the error is
    ["Gemini API error. Attempt1: null. Attempt2: null"]: it shows
    neither body. *)
Theorem callGemini_falsy_failure_bodies :
  let h := Demo.host [] [] [Demo.reply 500 (JBool false);
                            Demo.reply 500 (JBool false)] None in
  let first := firstRequest Demo.config (lit "hi") tailorOpts in
  let fallback := fallbackRequest Demo.config (lit "hi") tailorOpts in
  let message := lit "Gemini API error. Attempt1: null. Attempt2: null" in
  callGemini h Demo.config (lit "hi") tailorOpts []
    = (Throw (Error message), [EvFetch first; EvFetch fallback])
  /\ JSON_stringify (@JBool Demo.decimal false) = lit "false"
  /\ includes message (JSON_stringify (@JBool Demo.decimal false)) = false.
Proof. repeat split. Qed.

(** The same message results when both failure bodies are not JSON and
    cannot be read again after [res.json()] has consumed them. *)
Lemma callGemini_unreadable_failure_bodies :
  let h := Demo.host [] [] [Demo.replyNotJson 502; Demo.replyNotJson 502] None in
  fst (callGemini h Demo.config (lit "hi") tailorOpts [])
    = Throw (Error (lit "Gemini API error. Attempt1: null. Attempt2: null")).
Proof. reflexivity. Qed.

(** C10.  An attempt that is answered with a success status and a body
    that is not JSON makes [callGemini] return the empty string: no
    error is raised and no further request is sent.  This holds for the
    first attempt and for the fallback attempt. *)
Theorem callGemini_unparsable_success
    {number : Type} {NUM : JsNumber number} (host : Host number)
    (cfg : Config number) (prompt : jsstring) (opts : Options number)
    (tr : trace) :
  has_fetch host = true ->
  (forall r,
      fetch host tr (firstRequest cfg prompt opts) = Responded r ->
      res_ok r = true -> res_json r = None ->
      callGemini host cfg prompt opts tr
        = (Normal [], tr ++ [EvFetch (firstRequest cfg prompt opts)]))
  /\ (forall r1 r2,
      fetch host tr (firstRequest cfg prompt opts) = Responded r1 ->
      res_ok r1 = false ->
      fetch host (tr ++ [EvFetch (firstRequest cfg prompt opts)])
            (fallbackRequest cfg prompt opts) = Responded r2 ->
      res_ok r2 = true -> res_json r2 = None ->
      callGemini host cfg prompt opts tr
        = (Normal [], (tr ++ [EvFetch (firstRequest cfg prompt opts)])
                        ++ [EvFetch (fallbackRequest cfg prompt opts)])).
Proof.
  intros Hf. split.
  - intros r F O J. rewrite (callGemini_cases host cfg prompt opts tr Hf).
    rewrite F, O. unfold attemptOf. now rewrite J.
  - intros r1 r2 F1 O1 F2 O2 J.
    rewrite (callGemini_cases host cfg prompt opts tr Hf).
    rewrite F1, O1, F2, O2. unfold attemptOf. now rewrite J.
Qed.

Lemma callGemini_unparsable_success_witness :
  callGemini (Demo.host [] [] [Demo.replyNotJson 200] None)
             Demo.config (lit "hi") tailorOpts []
    = (Normal [], [] ++ [EvFetch (firstRequest Demo.config (lit "hi") tailorOpts)])
  /\ callGemini (Demo.host [] [] [Demo.reply 500 (JObj []); Demo.replyNotJson 200] None)
                Demo.config (lit "hi") tailorOpts []
     = (Normal [], ([] ++ [EvFetch (firstRequest Demo.config (lit "hi") tailorOpts)])
                     ++ [EvFetch (fallbackRequest Demo.config (lit "hi") tailorOpts)]).
Proof.
  split.
  - refine (proj1 (callGemini_unparsable_success
                     (Demo.host [] [] [Demo.replyNotJson 200] None)
                     Demo.config (lit "hi") tailorOpts [] eq_refl)
                  {| res_status := 200; res_json := None; res_text := None |}
                  eq_refl eq_refl eq_refl).
  - refine (proj2 (callGemini_unparsable_success
                     (Demo.host [] [] [Demo.reply 500 (JObj []);
                                       Demo.replyNotJson 200] None)
                     Demo.config (lit "hi") tailorOpts [] eq_refl)
                  {| res_status := 500; res_json := Some (JObj []); res_text := None |}
                  {| res_status := 200; res_json := None; res_text := None |}
                  eq_refl eq_refl eq_refl eq_refl eq_refl).
Defined.

(* --------------------------------------------------------------------- *)
(** *** Document renderer                                                 *)
(* --------------------------------------------------------------------- *)

Ltac trace_tail :=
  rewrite <- ?app_assoc; simpl; reflexivity.

(** A run that stopped on an exception, without a close event. *)
Ltac stopped_early :=
  eexists; split; [trace_tail | reflexivity].

(** A run that went through: the close event is last. *)
Ltac went_through :=
  eexists; split; [trace_tail |];
  match goal with
  | |- exists pre, ?l = pre ++ [EvBrowserClose] /\ _ => exists (removelast l)
  end;
  simpl; split; [reflexivity | auto 10].

Ltac browser_steps host :=
  destruct (launch_error host); simpl; [stopped_early|];
  destruct (newPage_error host); simpl; [stopped_early|];
  destruct (setContent_error host _); simpl; [stopped_early|];
  destruct (pdf_error host _ _); simpl; [stopped_early|];
  destruct (close_error host); simpl; [stopped_early | went_through].

(** C4, as amended.  When [saveMarkdownAsPdf] returns normally, closing
    the browser was its last effect and the browser had been launched.
    When it throws (setting the content or exporting the PDF failed, or
    any other step did), the exception goes to the caller and the close
    step has not run.  It never ends the process itself. *)
Theorem saveMarkdownAsPdf_closes_on_success
    {number : Type} {NUM : JsNumber number} (host : Host number)
    (markdownText outPdfPath title : jsstring) (tr : trace) :
  exists evs,
    snd (saveMarkdownAsPdf host markdownText outPdfPath title tr) = tr ++ evs
    /\ match fst (saveMarkdownAsPdf host markdownText outPdfPath title tr) with
       | Normal _ =>
           exists pre, evs = pre ++ [EvBrowserClose] /\ In EvBrowserLaunch pre
       | Throw _ => existsb isClose evs = false
       | Exit _ => False
       end.
Proof.
  unfold saveMarkdownAsPdf, ensureDir, bind, existsSync, readFileSync_utf8,
    writeFileSync, mkdirSync, attempt, emit, bind.
  destruct (pathExists host tr (templatePath host)).
  - destruct (fs_readFile_utf8 host (templatePath host)) as [e|template]; simpl.
    + exists [EvReadFile (templatePath host)]. auto.
    + destruct (pathExists host _ (outputDir host)); browser_steps host.
  - simpl. destruct (pathExists host _ (outputDir host)); browser_steps host.
Qed.

(** C4, as stated, fails when the PDF export throws: the browser has
    been launched, the exception reaches the caller, and no close step
    has run. *)
Lemma saveMarkdownAsPdf_leaves_browser_open :
  let h := Demo.host [] [] [] (Some (Error (lit "Protocol error (Page.printToPDF)"))) in
  let r := saveMarkdownAsPdf h (lit "Jane Doe") (lit "/work/output/out.pdf")
                             (lit "Resume") [] in
  fst r = Throw (Error (lit "Protocol error (Page.printToPDF)"))
  /\ existsb isLaunch (snd r) = true
  /\ existsb isClose (snd r) = false.
Proof. repeat split. Qed.

(* --------------------------------------------------------------------- *)
(** *** Pipeline orchestrator                                             *)
(* --------------------------------------------------------------------- *)

Section Orchestrator.

Context {number : Type} {NUM : JsNumber number}.
Variable host : Host number.

Lemma neverExits_existsSync (p : jsstring) : neverExits (existsSync host p).
Proof. intros tr c. discriminate. Qed.

Lemma neverExits_doFetch (req : Request) : neverExits (doFetch host req).
Proof.
  intros tr c. unfold doFetch. destruct (fetch host tr req); discriminate.
Qed.

Hint Resolve neverExits_existsSync neverExits_doFetch : effects.

Lemma neverExits_callGemini cfg prompt opts :
  neverExits (callGemini host cfg prompt opts).
Proof. unfold callGemini, postJson. cbv zeta. auto 20 with effects. Qed.

Lemma neverExits_extractTextFromDocx (p : jsstring) :
  neverExits (extractTextFromDocx host p).
Proof. unfold extractTextFromDocx, readFileSync. auto 20 with effects. Qed.

Lemma neverExits_saveMarkdownAsPdf (md out title : jsstring) :
  neverExits (saveMarkdownAsPdf host md out title).
Proof.
  unfold saveMarkdownAsPdf, ensureDir, readFileSync_utf8, writeFileSync, mkdirSync.
  cbv zeta. auto 30 with effects.
Qed.

Hint Resolve neverExits_callGemini neverExits_extractTextFromDocx
  neverExits_saveMarkdownAsPdf : effects.

Lemma neverExits_stages cfg (resumeFile : jsstring) :
  neverExits (stages host cfg resumeFile).
Proof. unfold stages, writeFileSync. cbv zeta. auto 30 with effects. Qed.

Lemma ensureDir_run (tr : trace) :
  ensureDir host (outputDir host) tr = (Normal tt, afterEnsureOutput host tr).
Proof.
  unfold ensureDir, afterEnsureOutput, bind, existsSync.
  now destruct (pathExists host tr (outputDir host)).
Qed.

Lemma firstExisting_find (paths : list jsstring) (tr : trace) :
  firstExisting host paths tr = (Normal (find (pathExists host tr) paths), tr).
Proof.
  induction paths as [|p paths IH]; simpl; [reflexivity|].
  unfold bind, existsSync. destruct (pathExists host tr p); [reflexivity|].
  apply IH.
Qed.

Lemma findResumeFile_resolve (requestedPath : jsstring) (tr : trace) :
  findResumeFile host requestedPath tr
    = (Normal (resolveResume host requestedPath tr), tr).
Proof. apply firstExisting_find. Qed.

Lemma uniqPaths_nonEmpty (seen candidates : list jsstring) :
  Forall (fun p => nonEmpty p = true) (uniqPaths seen candidates).
Proof.
  revert seen. induction candidates as [|p rest IH]; intros seen; simpl.
  - constructor.
  - destruct (nonEmpty p) eqn:E; simpl; [|apply IH].
    destruct (existsb (str_eqb p) seen); [apply IH|].
    constructor; [assumption | apply IH].
Qed.

Lemma uniqPaths_incl (seen candidates : list jsstring) (p : jsstring) :
  In p (uniqPaths seen candidates) -> In p candidates.
Proof.
  revert seen. induction candidates as [|q rest IH]; intros seen; simpl; [auto|].
  destruct (nonEmpty q); simpl.
  - destruct (existsb (str_eqb q) seen).
    + intros H. right. eapply IH; eauto.
    + intros [H|H]; [now left | right; eapply IH; eauto].
  - intros H. right. eapply IH; eauto.
Qed.

Lemma resolveResume_nonEmpty (requestedPath p : jsstring) (tr : trace) :
  resolveResume host requestedPath tr = Some p -> nonEmpty p = true.
Proof.
  unfold resolveResume. intros H. apply find_some in H as [H _].
  pose proof (uniqPaths_nonEmpty [] (resumeCandidates host requestedPath)) as F.
  rewrite Forall_forall in F. now apply F.
Qed.

Lemma resolveResume_absent (requestedPath : jsstring) (tr : trace) :
  (forall p, In p (resumeCandidates host requestedPath) ->
             pathExists host tr p = false) ->
  resolveResume host requestedPath tr = None.
Proof.
  intros H. unfold resolveResume.
  destruct (find _ _) as [p|] eqn:F; [|reflexivity].
  apply find_some in F as [F1 F2].
  apply uniqPaths_incl in F1. rewrite (H p F1) in F2. discriminate.
Qed.

(** The [try] block, by cases on the resolution of the resume and on
    how the stages end. *)
Lemma mainBody_run cfg (tr : trace) :
  mainBody host cfg tr =
    match resolveResume host (requestedResume cfg) (afterEnsureOutput host tr) with
    | None => (Exit 2, afterEnsureOutput host tr)
    | Some p =>
        match stages host cfg p (afterEnsureOutput host tr) with
        | (Normal _, tr2) => (Exit 0, tr2)
        | (Throw e, tr2) => (Throw e, tr2)
        | (Exit c, tr2) => (Exit c, tr2)
        end
    end.
Proof.
  unfold mainBody, bind at 1. rewrite ensureDir_run.
  unfold bind at 1. rewrite findResumeFile_resolve.
  destruct (resolveResume _ _ _) as [p|] eqn:R; [|reflexivity].
  rewrite (resolveResume_nonEmpty _ _ R).
  unfold bind, ret, process_exit.
  now destruct (stages host cfg p (afterEnsureOutput host tr)) as [[u|e|c] tr2].
Qed.

(** The [catch] block writes the error artifact and exits with 10. *)
Lemma onError_run (err : exn) (tr : trace) :
  onError host err tr
    = (Exit 10,
       afterEnsureOutput host tr
         ++ [EvWriteFile (outputFile host (lit "error.txt")) (String_of_exn err)]).
Proof.
  unfold onError, bind, try_catch. rewrite ensureDir_run. reflexivity.
Qed.

Lemma gapsJsonOf_artifact (gapsRaw : jsstring) :
  gapsJsonOf host gapsRaw = gapAnalysisArtifact host gapsRaw.
Proof.
  unfold gapsJsonOf, gapAnalysisArtifact.
  destruct (matchBraces gapsRaw); [reflexivity|].
  now destruct (JSON_parse host gapsRaw).
Qed.

Lemma callGemini_needs_fetch cfg prompt opts (tr tr' : trace) (text : jsstring) :
  callGemini host cfg prompt opts tr = (Normal text, tr') ->
  has_fetch host = true.
Proof.
  unfold callGemini. destruct (has_fetch host); [reflexivity | discriminate].
Qed.

Lemma callGemini_first_request cfg prompt opts (tr : trace) :
  has_fetch host = true ->
  exists rest,
    snd (callGemini host cfg prompt opts tr)
      = tr ++ EvFetch (firstRequest cfg prompt opts) :: rest.
Proof.
  intros Hf. rewrite (callGemini_cases host cfg prompt opts tr Hf).
  assert (L : forall (r : Result jsstring) t, snd (liftR r t) = t)
    by (intros [e|a] t; reflexivity).
  destruct (fetch host tr _) as [r1|e1].
  - destruct (res_ok r1).
    + exists []. now rewrite L.
    + exists [EvFetch (fallbackRequest cfg prompt opts)].
      destruct (fetch host _ _) as [r2|e2]; [destruct (res_ok r2)|];
        rewrite ?L; simpl; now rewrite <- app_assoc.
  - exists []. reflexivity.
Qed.

End Orchestrator.

Lemma bind_run {A B} (m : M A) (k : A -> M B) (tr : trace) :
  bind m k tr = match m tr with
                | (Normal a, tr') => k a tr'
                | (Throw e, tr') => (Throw e, tr')
                | (Exit c, tr') => (Exit c, tr')
                end.
Proof. reflexivity. Qed.

Lemma saveMarkdownAsPdf_appends
    {number : Type} {NUM : JsNumber number} (host : Host number)
    (md out title : jsstring) :
  emitsOnly (fun _ => True) (saveMarkdownAsPdf host md out title).
Proof.
  unfold saveMarkdownAsPdf, ensureDir, readFileSync_utf8, writeFileSync, mkdirSync.
  cbv zeta. auto 30 with effects.
Qed.





(** The credential check comes before the main flow: without the key
    the script exits with status 1 and has no effect. *)
Lemma program_without_credential
    {number : Type} {NUM : JsNumber number} (host : Host number)
    (penv : ProcessEnv) (argv : Argv) :
  orElse (env_GEMINI_API_KEY penv) [] = [] ->
  run host penv argv = (Exit 1, []).
Proof.
  unfold run, program, orElse.
  destruct (env_GEMINI_API_KEY penv) as [key|]; [|reflexivity].
  destruct key; [reflexivity | discriminate].
Qed.

(** With the key, a run of the script is the main flow on the constants
    computed from the environment and the command line. *)
Lemma program_with_credential
    {number : Type} {NUM : JsNumber number} (host : Host number)
    (penv : ProcessEnv) (argv : Argv) (key : jsstring) :
  env_GEMINI_API_KEY penv = Some key -> nonEmpty key = true ->
  run host penv argv = main host (configOf key penv argv) [].
Proof. unfold run, program. now intros -> ->. Qed.

(** A full run on the example host: exit status 0, and the artifacts in
    the order they are produced. *)
Example successful_run_artifacts :
  let h := Demo.host [Demo.resume] (lit "  Jane Doe ") Demo.happyScript None in
  fst (main h Demo.config []) = Exit 0
  /\ filter nonEmpty
        (map (fun e => match e with
                       | EvWriteFile p _ | EvPdf p => p
                       | _ => []
                       end)
             (snd (main h Demo.config [])))
     = [ lit "/work/output/tailored_resume_stage1.md";
         lit "/work/output/recruiter_gaps.json.txt";
         lit "/work/output/tailored_resume_final.md";
         lit "/work/output/tailored_resume_rendered.html";
         lit "/work/output/tailored_resume_final.pdf" ]
  /\ networkCalls (snd (main h Demo.config [])) = 3%nat.
Proof. vm_compute. repeat split. Qed.

(* ===================================================================== *)
(** ** Further properties                                                 *)
(* ===================================================================== *)

(* --------------------------------------------------------------------- *)
(** *** Response-shape extraction: errors and list texts                  *)
(* --------------------------------------------------------------------- *)

Section ExtractionErrors.

Context {number : Type} {NUM : JsNumber number}.

(** Induction on JSON values, with the hypothesis for the elements of
    arrays and the values of objects. *)
Lemma JSON_nested_ind (P : JSON number -> Prop) :
  P JNull ->
  (forall b, P (JBool b)) ->
  (forall n, P (JNum n)) ->
  (forall s, P (JStr s)) ->
  (forall items, Forall P items -> P (JArr items)) ->
  (forall fields, Forall (fun kv => P (snd kv)) fields -> P (JObj fields)) ->
  forall v, P v.
Proof.
  intros Hnull Hbool Hnum Hstr Harr Hobj.
  fix IH 1. intros [| b | n | s | items | fields].
  - exact Hnull.
  - apply Hbool.
  - apply Hnum.
  - apply Hstr.
  - apply Harr. induction items as [|x items IHitems]; constructor.
    + apply IH.
    + exact IHitems.
  - apply Hobj. induction fields as [|[k x] fields IHfields]; constructor.
    + apply IH.
    + exact IHfields.
Qed.

Lemma mapR_error {A B} (f : A -> Result B) (l : list A) (e : exn) :
  mapR f l = inl e -> exists x, In x l /\ f x = inl e.
Proof.
  induction l as [|x l IH]; simpl; [discriminate|].
  destruct (f x) as [e'|y] eqn:Fx; simpl.
  - intros H. injection H as <-. exists x. auto.
  - fold (mapR f l). destruct (mapR f l) as [e'|ys]; simpl; [|discriminate].
    intros H. injection H as <-.
    destruct (IH eq_refl) as [x' [Hin Hx']]. exists x'. auto.
Qed.

Lemma mapR_first_error {A B} (f : A -> Result B) (l : list A) (x : A) (e : exn) :
  In x l -> f x = inl e ->
  (forall y e', f y = inl e' -> e' = e) ->
  mapR f l = inl e.
Proof.
  intros Hin Hx Hall. induction l as [|y l IH]; [destruct Hin|].
  simpl. destruct (f y) as [e'|b] eqn:Fy; simpl.
  - now rewrite (Hall _ _ Fy).
  - fold (mapR f l). destruct Hin as [->|Hin]; [congruence|].
    now rewrite (IH Hin).
Qed.

Lemma ToString_error (v : JSON number) (e : exn) :
  ToString v = inl e -> e = NotPrimitiveError.
Proof.
  revert e. induction v as [| b | n | s | items IH | fields _] using JSON_nested_ind;
    intros e; simpl.
  - discriminate.
  - destruct b; discriminate.
  - discriminate.
  - discriminate.
  - unfold Array_join.
    destruct (mapR _ items) as [e'|strs] eqn:Hm; simpl; [|discriminate].
    intros H. injection H as <-.
    apply mapR_error in Hm as [x [Hin Hx]].
    rewrite Forall_forall in IH.
    destruct x; try discriminate; now apply (IH _ Hin).
  - destruct (lookup (lit "toString") fields); [|discriminate].
    intros H. now injection H as <-.
Qed.

Lemma join_error (sep : jsstring) (items : list (JSON number)) (e : exn) :
  join sep items = inl e -> e = NotPrimitiveError.
Proof.
  unfold join, Array_join.
  destruct (mapR _ items) as [e'|strs] eqn:Hm; simpl; [|discriminate].
  intros H. injection H as <-.
  apply mapR_error in Hm as [x [Hin Hx]].
  destruct x; try discriminate; now apply ToString_error in Hx.
Qed.

Lemma partText_error (p : JSON number) (e : exn) :
  partText p = inl e -> p = JNull /\ e = NullPropertyError (lit "text").
Proof.
  destruct p; simpl; try discriminate.
  - intros H. now injection H as <-.
  - destruct (lookup (lit "text") fields) as [t|]; [destruct (truthy t)|];
      discriminate.
Qed.

Lemma itemText_error (o : JSON number) (e : exn) :
  itemText o = inl e -> o = JNull /\ e = NullPropertyError (lit "text").
Proof.
  destruct o; unfold itemText; simpl; try discriminate.
  - intros H. now injection H as <-.
  - destruct (lookup (lit "text") fields) as [t|]; [destruct (truthy t)|];
      discriminate.
Qed.

Lemma topLevelOutput_run (json : JSON number) :
  isNull json = false ->
  topLevelOutput json = shapeRun json (topLevelShape json).
Proof.
  intros Hn. unfold topLevelOutput, topLevelShape.
  rewrite (getProp_field _ _ Hn). simpl.
  destruct (field json (lit "output")) as [[| | | |outs|]|]; try reflexivity.
  destruct outs as [|out0 outs]; simpl; [reflexivity|].
  destruct (truthy out0) eqn:T.
  - rewrite (getProp_field _ _ (truthy_not_null _ T)). simpl.
    now destruct (field out0 (lit "content")) as [[| | | |parts|]|].
  - now rewrite (field_falsy _ _ T).
Qed.

Lemma fromMessage_run (json cand : JSON number) :
  isNull json = false -> isNull cand = false ->
  fromMessage json cand
    = shapeRun json match messageShape cand with
                    | Some shape => shape
                    | None => topLevelShape json
                    end.
Proof.
  intros Hj Hc. unfold fromMessage, messageShape.
  rewrite (getProp_field _ _ Hc). simpl.
  destruct (field cand (lit "message")) as [msg|];
    [|now apply topLevelOutput_run].
  destruct (truthy msg) eqn:T.
  - rewrite (getProp_field _ _ (truthy_not_null _ T)). simpl.
    destruct (field msg (lit "content")) as [[| | |s|parts|]|];
      try (now apply topLevelOutput_run).
    + destruct s; [now apply topLevelOutput_run | reflexivity].
    + reflexivity.
  - rewrite (field_falsy _ _ T). now apply topLevelOutput_run.
Qed.

Lemma fromCandidate_run (json cand : JSON number) :
  isNull json = false -> isNull cand = false ->
  fromCandidate json cand
    = shapeRun json match candidateShape cand with
                    | Some shape => shape
                    | None => topLevelShape json
                    end.
Proof.
  intros Hj Hc. unfold fromCandidate, candidateShape.
  rewrite !(getProp_field _ _ Hc). simpl.
  destruct (field cand (lit "content")) as [[| | |s|parts|]|];
    try reflexivity;
    (destruct (field cand (lit "output")) as [[| | | |outs|]|];
     try (now apply fromMessage_run); reflexivity).
Qed.

(** The function, shape by shape, on every response. *)
Lemma extractText_run (json : JSON number) :
  extractTextFromResponseJson json = shapeRun json (shapeOf json).
Proof.
  unfold extractTextFromResponseJson, shapeOf.
  destruct (truthy json) eqn:T; simpl; [|reflexivity].
  pose proof (truthy_not_null _ T) as Hn.
  rewrite !(getProp_field _ _ Hn). simpl.
  destruct (field json (lit "output_text")) as [[| | |s| |]|];
    try reflexivity;
    (unfold firstCandidate;
     destruct (field json (lit "candidates")) as [[| | | |cands|]|];
     try (now apply topLevelOutput_run);
     destruct cands as [|cand cands]; simpl;
     [now apply topLevelOutput_run|];
     destruct (truthy cand) eqn:Tc;
     [ now apply fromCandidate_run, truthy_not_null
     | unfold candidateShape, messageShape;
       rewrite !(field_falsy _ _ Tc); now apply topLevelOutput_run ]).
Qed.

Lemma mapJoin_error (f : JSON number -> Result (JSON number))
    (items : list (JSON number)) (e : exn) :
  mapJoin f items = inl e ->
  (exists x, In x items /\ f x = inl e) \/ e = NotPrimitiveError.
Proof.
  unfold mapJoin. destruct (mapR f items) as [e'|texts] eqn:Hm; simpl.
  - intros H. injection H as <-. left. now apply mapR_error.
  - intros H. right. now apply join_error in H.
Qed.

Lemma mapJoin_null (f : JSON number -> Result (JSON number))
    (items : list (JSON number)) :
  (forall y e, f y = inl e -> y = JNull /\ e = NullPropertyError (lit "text")) ->
  f JNull = inl (NullPropertyError (lit "text")) ->
  In JNull items ->
  mapJoin f items = inl (NullPropertyError (lit "text")).
Proof.
  intros Hf Hnull Hin. unfold mapJoin.
  rewrite (mapR_first_error f items JNull Hin Hnull); [reflexivity|].
  intros y e' Hy. now destruct (Hf _ _ Hy).
Qed.

End ExtractionErrors.

(** X1.  The extraction throws the error of reading [text] on null
    exactly when the list of the matched shape has a null element. *)
Theorem extractText_throws_on_null_element
    {number : Type} {NUM : JsNumber number} (json : JSON number) :
  extractTextFromResponseJson json = inl (NullPropertyError (lit "text"))
  <-> In JNull (shapeParts (shapeOf json)).
Proof.
  assert (D : NullPropertyError (lit "text") <> NotPrimitiveError)
    by (vm_compute; discriminate).
  rewrite extractText_run. split.
  - destruct (shapeOf json); simpl; try discriminate; intros H;
      (apply mapJoin_error in H as [[x [Hin Hx]]|H]; [|contradiction]);
      (apply partText_error in Hx || apply itemText_error in Hx);
      destruct Hx as [-> _]; assumption.
  - destruct (shapeOf json); simpl; try contradiction; intros H;
      apply mapJoin_null;
      solve [ assumption | reflexivity
            | apply partText_error | apply itemText_error ].
Qed.

Lemma shapeRun_error {number : Type} {NUM : JsNumber number}
    (json : JSON number) (shape : Shape) (e : exn) :
  shapeRun json shape = inl e ->
  (e = NullPropertyError (lit "text") \/ e = NotPrimitiveError)
  /\ shapeParts shape <> [].
Proof.
  destruct shape as [| | |parts|parts| |parts|parts|]; simpl;
    try discriminate; intros H; (split; [|
      destruct parts; [discriminate H | discriminate]]);
    apply mapJoin_error in H as [[x [Hin Hx]]|H]; auto;
    (apply partText_error in Hx || apply itemText_error in Hx);
    destruct Hx as [_ ->]; auto.
Qed.

(** X2.  The extraction throws nothing but two type errors of the
    runtime: the read of [text] on a null list element, and the failed
    string conversion of a text that is (or holds) an object with a
    [toString] field.  A response that matches no list shape never
    throws. *)
Theorem extractText_exceptions
    {number : Type} {NUM : JsNumber number} (json : JSON number) (e : exn) :
  extractTextFromResponseJson json = inl e ->
  (e = NullPropertyError (lit "text") \/ e = NotPrimitiveError)
  /\ shapeParts (shapeOf json) <> [].
Proof. rewrite extractText_run. apply shapeRun_error. Qed.

Lemma extractText_exceptions_witness :
  (NullPropertyError (lit "text") = NullPropertyError (lit "text")
   \/ NullPropertyError (lit "text") = NotPrimitiveError)
  /\ shapeParts (shapeOf Samples.nullPartResponse) <> [].
Proof.
  apply (@extractText_exceptions _ _ Samples.nullPartResponse).
  reflexivity.
Defined.

(** X3.  A reply in the documented generateContent shape, where the
    candidate's content is an object holding the parts, matches none of
    the shapes the function looks for: the result is the serialisation
    of the whole reply, not the text of the parts. *)
Theorem extractText_content_object_is_opaque
    {number : Type} {NUM : JsNumber number}
    (json cand : JSON number) (contentFields : list (jsstring * JSON number)) :
  truthy json = true ->
  field json (lit "output_text") = None ->
  firstCandidate json = Some cand ->
  field cand (lit "content") = Some (JObj contentFields) ->
  field cand (lit "output") = None ->
  field cand (lit "message") = None ->
  field json (lit "output") = None ->
  extractTextFromResponseJson json = inr (JSON_stringify json).
Proof.
  intros T Ho Hc Hcontent Hout Hmsg Htop.
  rewrite extractText_run. unfold shapeOf.
  rewrite T, Ho, Hc. simpl.
  unfold candidateShape, messageShape, topLevelShape.
  now rewrite Hcontent, Hout, Hmsg, Htop.
Qed.

Lemma extractText_content_object_is_opaque_witness :
  extractTextFromResponseJson Samples.generateContentResponse
    = inr (JSON_stringify Samples.generateContentResponse).
Proof.
  refine (@extractText_content_object_is_opaque _ _
            Samples.generateContentResponse _ _ _ _ _ _ _ _ _);
    reflexivity.
Defined.

Lemma join_strings {number : Type} {NUM : JsNumber number}
    (sep : jsstring) (texts : list jsstring) :
  join sep (map (@JStr number) texts) = inr (intercalate sep texts).
Proof.
  unfold join, Array_join.
  assert (H : mapR (fun x : JSON number =>
                      match x with JNull => inr [] | _ => ToString x end)
                   (map (@JStr number) texts) = inr texts).
  { induction texts as [|s texts IH]; simpl; [reflexivity|].
    fold (mapR (fun x : JSON number =>
                  match x with JNull => inr [] | _ => ToString x end)
               (map (@JStr number) texts)).
    now rewrite IH. }
  now rewrite H.
Qed.

(** X4.  When the first candidate's content is a list whose parts are
    strings or objects with a non-empty string [text], the result is
    these texts joined by newlines. *)
Theorem extractText_joins_part_texts
    {number : Type} {NUM : JsNumber number}
    (json : JSON number) (parts : list (JSON number)) (texts : list jsstring) :
  shapeOf json = CandidateParts parts ->
  map plainText parts = map Some texts ->
  extractTextFromResponseJson json = inr (intercalate LF texts).
Proof.
  intros Hs Ht. rewrite extractText_run, Hs. simpl. unfold mapJoin.
  assert (H : mapR partText parts = inr (map (@JStr number) texts)).
  { clear Hs. revert texts Ht.
    induction parts as [|p parts IH]; intros [|s texts] Ht;
      try discriminate; [reflexivity|].
    simpl in Ht. injection Ht as Hp Ht.
    simpl. fold (mapR partText parts). rewrite (IH _ Ht).
    destruct p; try discriminate; simpl in *.
    - now injection Hp as ->.
    - destruct (lookup (lit "text") fields) as [[| | |[|c t]| |]|];
        try discriminate. now injection Hp as <-. }
  rewrite H. simpl. apply join_strings.
Qed.

Lemma extractText_joins_part_texts_witness :
  extractTextFromResponseJson Samples.plainPartsResponse
    = inr (intercalate LF [lit "Jane Doe"; lit "Engineer"]).
Proof.
  refine (@extractText_joins_part_texts _ _ Samples.plainPartsResponse
            [JObj [(lit "text", JStr (lit "Jane Doe"))]; JStr (lit "Engineer")]
            _ _ _); reflexivity.
Defined.

(** X5.  In the other list shapes (a candidate's output list or message
    content, the top-level output) the callback has no case for strings:
    string elements come out in their JSON form, quotes included. *)
Theorem extractText_quotes_string_items
    {number : Type} {NUM : JsNumber number}
    (json : JSON number) (strs : list jsstring) :
  isItemList (shapeOf json) = true ->
  shapeParts (shapeOf json) = map (@JStr number) strs ->
  extractTextFromResponseJson json
    = inr (intercalate LF (map quoteJSONString strs)).
Proof.
  intros Hk Hp. rewrite extractText_run.
  assert (H : mapJoin itemText (map (@JStr number) strs)
              = inr (intercalate LF (map quoteJSONString strs))).
  { unfold mapJoin.
    assert (Hm : mapR itemText (map (@JStr number) strs)
                 = inr (map (@JStr number) (map quoteJSONString strs))).
    { clear Hp. induction strs as [|s strs IH]; simpl; [reflexivity|].
      fold (mapR itemText (map (@JStr number) strs)). now rewrite IH. }
    rewrite Hm. simpl. apply join_strings. }
  destruct (shapeOf json); try discriminate; simpl in *; now rewrite Hp.
Qed.

Lemma extractText_quotes_string_items_witness :
  extractTextFromResponseJson Samples.messageStringsResponse
    = inr (intercalate LF [quoted (lit "Jane"); quoted (lit "Doe")]).
Proof.
  refine (@extractText_quotes_string_items _ _ Samples.messageStringsResponse
            [lit "Jane"; lit "Doe"] _ _); reflexivity.
Defined.

(* --------------------------------------------------------------------- *)
(** *** Generation client: requests, results and exceptions               *)
(* --------------------------------------------------------------------- *)

(** X6.  With [fetch] available, a call sends the request with
    [candidateConfig] first, and sends the contents-only request exactly
    when the first reply arrives with a status that is not [ok]; it
    sends nothing else. *)
Theorem callGemini_requests_sent
    {number : Type} {NUM : JsNumber number} (host : Host number)
    (cfg : Config number) (prompt : jsstring) (opts : Options number)
    (tr : trace) :
  has_fetch host = true ->
  snd (callGemini host cfg prompt opts tr)
    = tr ++ EvFetch (firstRequest cfg prompt opts)
         :: match fetch host tr (firstRequest cfg prompt opts) with
            | Responded r1 =>
                if res_ok r1 then []
                else [EvFetch (fallbackRequest cfg prompt opts)]
            | FetchFailed _ => []
            end.
Proof.
  intros Hf. rewrite (callGemini_cases host cfg prompt opts tr Hf).
  assert (L : forall (r : Result jsstring) t, snd (liftR r t) = t)
    by (intros [e|a] t; reflexivity).
  destruct (fetch host tr _) as [r1|e1]; [|reflexivity].
  destruct (res_ok r1); [now rewrite L|].
  destruct (fetch host _ _) as [r2|e2]; [destruct (res_ok r2)|];
    rewrite ?L; simpl; now rewrite <- app_assoc.
Qed.

Lemma callGemini_requests_sent_witness :
  snd (callGemini (Demo.host [] [] [Demo.reply 503 (JObj []);
                                    Demo.textReply (lit "Jane Doe")] None)
                  Demo.config (lit "hi") tailorOpts [])
    = [ EvFetch (firstRequest Demo.config (lit "hi") tailorOpts);
        EvFetch (fallbackRequest Demo.config (lit "hi") tailorOpts) ].
Proof.
  exact (@callGemini_requests_sent _ _
           (Demo.host [] [] [Demo.reply 503 (JObj []);
                             Demo.textReply (lit "Jane Doe")] None)
           Demo.config (lit "hi") tailorOpts [] eq_refl).
Defined.

(** X7.  When both attempts are answered with a status that is not [ok]
    and with JSON bodies that are truthy (objects, as the endpoint
    sends them), the call throws an [Error] whose message starts with
    ["Gemini API error"] and contains the serialisation of both bodies. *)
Theorem callGemini_error_carries_json_bodies
    {number : Type} {NUM : JsNumber number} (host : Host number)
    (cfg : Config number) (prompt : jsstring) (opts : Options number)
    (tr : trace) (r1 r2 : Response number) (j1 j2 : JSON number) :
  has_fetch host = true ->
  fetch host tr (firstRequest cfg prompt opts) = Responded r1 ->
  res_ok r1 = false -> res_json r1 = Some j1 -> truthy j1 = true ->
  fetch host (tr ++ [EvFetch (firstRequest cfg prompt opts)])
        (fallbackRequest cfg prompt opts) = Responded r2 ->
  res_ok r2 = false -> res_json r2 = Some j2 -> truthy j2 = true ->
  exists message,
    fst (callGemini host cfg prompt opts tr) = Throw (Error message)
    /\ startsWith message (lit "Gemini API error") = true
    /\ includes message (JSON_stringify j1) = true
    /\ includes message (JSON_stringify j2) = true.
Proof.
  intros Hf F1 O1 J1 T1 F2 O2 J2 T2.
  exists (failureMessage (attemptOf r1) (attemptOf r2)).
  rewrite (callGemini_both_fail host cfg prompt opts tr Hf F1 O1 F2 O2).
  assert (A1 : a_json (attemptOf r1) = j1) by (unfold attemptOf; now rewrite J1).
  assert (A2 : a_json (attemptOf r2) = j2) by (unfold attemptOf; now rewrite J2).
  destruct (failureMessage_includes_json (attemptOf r1) (attemptOf r2)) as [I1 I2].
  rewrite A1 in I1. rewrite A2 in I2.
  repeat split; auto.
  unfold failureMessage, bothFailedMessage, apiErrorMessage.
  destruct (_ && _); reflexivity.
Qed.

Lemma callGemini_error_carries_json_bodies_witness :
  let h := Demo.host [] []
             [ Demo.reply 400 (Samples.errorBody (lit "Unknown name temperature"));
               Demo.reply 400 (Samples.errorBody (lit "contents is required")) ]
             None in
  exists message,
    fst (callGemini h Demo.config (lit "hi") tailorOpts []) = Throw (Error message)
    /\ startsWith message (lit "Gemini API error") = true
    /\ includes message
         (JSON_stringify (Samples.errorBody (lit "Unknown name temperature"))) = true
    /\ includes message
         (JSON_stringify (Samples.errorBody (lit "contents is required"))) = true.
Proof.
  intros h.
  refine (@callGemini_error_carries_json_bodies _ _ h Demo.config (lit "hi")
            tailorOpts []
            {| res_status := 400;
               res_json := Some (Samples.errorBody (lit "Unknown name temperature"));
               res_text := None |}
            {| res_status := 400;
               res_json := Some (Samples.errorBody (lit "contents is required"));
               res_text := None |}
            _ _ _ _ _ _ _ _ _ _ _); reflexivity.
Defined.

(** X8.  A call that returns a text returns the text extracted from a
    reply whose status is [ok]: from the first reply, or from the
    fallback reply after a first reply that was not [ok]. *)
Theorem callGemini_returns_text_of_ok_reply
    {number : Type} {NUM : JsNumber number} (host : Host number)
    (cfg : Config number) (prompt : jsstring) (opts : Options number)
    (tr tr' : trace) (text : jsstring) :
  callGemini host cfg prompt opts tr = (Normal text, tr') ->
  exists r,
    res_ok r = true
    /\ extractTextFromResponseJson (a_json (attemptOf r)) = inr text
    /\ (fetch host tr (firstRequest cfg prompt opts) = Responded r
        \/ exists r1,
             fetch host tr (firstRequest cfg prompt opts) = Responded r1
             /\ res_ok r1 = false
             /\ fetch host (tr ++ [EvFetch (firstRequest cfg prompt opts)])
                       (fallbackRequest cfg prompt opts) = Responded r).
Proof.
  intros H. pose proof (callGemini_needs_fetch _ _ _ _ _ H) as Hf.
  rewrite (callGemini_cases host cfg prompt opts tr Hf) in H.
  assert (L : forall (x : Result jsstring) t,
             liftR x t = (Normal text, tr') -> x = inr text)
    by (intros [e|a] t E; inversion E; reflexivity).
  destruct (fetch host tr _) as [r1|e1] eqn:F1; [|discriminate H].
  destruct (res_ok r1) eqn:O1.
  - exists r1. repeat split; eauto.
  - destruct (fetch host (tr ++ _) _) as [r2|e2] eqn:F2; [|discriminate H].
    destruct (res_ok r2) eqn:O2; [|discriminate H].
    exists r2. repeat split; eauto.
Qed.

Lemma callGemini_returns_text_of_ok_reply_witness :
  let h := Demo.host [] [] [Demo.reply 503 (JObj []);
                            Demo.textReply (lit "Jane Doe")] None in
  let first := firstRequest Demo.config (lit "hi") tailorOpts in
  let fallback := fallbackRequest Demo.config (lit "hi") tailorOpts in
  exists r,
    res_ok r = true
    /\ extractTextFromResponseJson (a_json (attemptOf r)) = inr (lit "Jane Doe")
    /\ (fetch h [] first = Responded r
        \/ exists r1,
             fetch h [] first = Responded r1
             /\ res_ok r1 = false
             /\ fetch h ([] ++ [EvFetch first]) fallback = Responded r).
Proof.
  intros h first fallback.
  refine (@callGemini_returns_text_of_ok_reply _ _ h Demo.config (lit "hi")
            tailorOpts [] [EvFetch first; EvFetch fallback] (lit "Jane Doe") _).
  reflexivity.
Defined.

(** X9.  With [fetch] available, an exception out of a call is one of
    three: the [Error] for two attempts that were both not [ok]; a
    rejection of [fetch] itself, handed on unchanged; or one of the two
    type errors of the extraction, on a reply that was [ok]. *)
Theorem callGemini_exceptions
    {number : Type} {NUM : JsNumber number} (host : Host number)
    (cfg : Config number) (prompt : jsstring) (opts : Options number)
    (tr tr' : trace) (e : exn) :
  has_fetch host = true ->
  callGemini host cfg prompt opts tr = (Throw e, tr') ->
  (exists r1 r2,
      fetch host tr (firstRequest cfg prompt opts) = Responded r1
      /\ res_ok r1 = false
      /\ fetch host (tr ++ [EvFetch (firstRequest cfg prompt opts)])
                (fallbackRequest cfg prompt opts) = Responded r2
      /\ res_ok r2 = false
      /\ e = Error (failureMessage (attemptOf r1) (attemptOf r2)))
  \/ fetch host tr (firstRequest cfg prompt opts) = FetchFailed e
  \/ fetch host (tr ++ [EvFetch (firstRequest cfg prompt opts)])
            (fallbackRequest cfg prompt opts) = FetchFailed e
  \/ e = NullPropertyError (lit "text")
  \/ e = NotPrimitiveError.
Proof.
  intros Hf H.
  destruct (callGemini_throw_cases host cfg prompt opts tr Hf H)
    as [H1 | [H2 | [H3 | [r [_ Hr]]]]]; auto.
  rewrite extractText_run in Hr.
  destruct (shapeRun_error _ _ Hr) as [[-> | ->] _]; auto.
Qed.

Lemma callGemini_exceptions_witness :
  let h := Demo.host [] [] [Demo.reply 200 Samples.nullPartResponse] None in
  let first := firstRequest Demo.config (lit "hi") tailorOpts in
  let fallback := fallbackRequest Demo.config (lit "hi") tailorOpts in
  let e := NullPropertyError (lit "text") in
  (exists r1 r2,
      fetch h [] first = Responded r1 /\ res_ok r1 = false
      /\ fetch h ([] ++ [EvFetch first]) fallback = Responded r2
      /\ res_ok r2 = false
      /\ e = Error (failureMessage (attemptOf r1) (attemptOf r2)))
  \/ fetch h [] first = FetchFailed e
  \/ fetch h ([] ++ [EvFetch first]) fallback = FetchFailed e
  \/ e = NullPropertyError (lit "text")
  \/ e = NotPrimitiveError.
Proof.
  intros h first fallback e.
  refine (@callGemini_exceptions _ _ h Demo.config (lit "hi") tailorOpts
            [] [EvFetch first] e eq_refl _).
  reflexivity.
Defined.

(* --------------------------------------------------------------------- *)
(** *** findResumeFile                                                    *)
(* --------------------------------------------------------------------- *)

Lemma str_eqb_eq (a b : jsstring) : str_eqb a b = true <-> a = b.
Proof.
  revert b. induction a as [|x a IH]; intros [|y b]; simpl;
    try (split; [discriminate | discriminate]); [tauto|].
  rewrite andb_true_iff, N.eqb_eq, IH. split.
  - now intros [-> ->].
  - intros H. now injection H.
Qed.

Lemma existsb_str_eqb (p : jsstring) (l : list jsstring) :
  existsb (str_eqb p) l = true <-> In p l.
Proof.
  rewrite existsb_exists. split.
  - intros [q [Hin Hq]]. apply str_eqb_eq in Hq. now subst.
  - intros H. exists p. split; [assumption | now apply str_eqb_eq].
Qed.

Lemma find_uniqPaths (f : jsstring -> bool) (seen candidates : list jsstring) :
  (forall q, In q seen -> f q = false) ->
  find f (uniqPaths seen candidates)
    = find (fun p => nonEmpty p && f p) candidates.
Proof.
  revert seen. induction candidates as [|p rest IH]; intros seen Hseen; simpl;
    [reflexivity|].
  destruct (nonEmpty p); simpl; [|now apply IH].
  destruct (existsb (str_eqb p) seen) eqn:E.
  - apply existsb_str_eqb in E. rewrite (Hseen _ E). now apply IH.
  - simpl. destruct (f p) eqn:Fp; [reflexivity|].
    apply IH. intros q [<-|Hq]; auto.
Qed.

Section ResumeLookup.

Context {number : Type} {NUM : JsNumber number}.
Variable host : Host number.

(** X11.  A resume at the requested location itself (the path as given
    when absolute, under the working directory otherwise) is preferred
    to every variant location. *)
Theorem findResumeFile_prefers_requested (requestedPath : jsstring) (tr : trace) :
  let location :=
    if path_isAbsolute host requestedPath then requestedPath
    else path_join host [cwd host; requestedPath] in
  location <> [] ->
  pathExists host tr location = true ->
  findResumeFile host requestedPath tr = (Normal (Some location), tr).
Proof.
  intros location Hne Hex.
  rewrite findResumeFile_resolve. unfold resolveResume.
  rewrite find_uniqPaths by (intros q []).
  unfold resumeCandidates. simpl. fold location.
  rewrite Hex. destruct location; [contradiction | reflexivity].
Qed.

(** X12.  The list the candidates are reduced to has no empty path and
    no repetition, and holds exactly the non-empty candidates. *)
Theorem uniqPaths_no_repetition (candidates : list jsstring) :
  NoDup (uniqPaths [] candidates)
  /\ forall p, In p (uniqPaths [] candidates) <-> (In p candidates /\ p <> []).
Proof.
  assert (G : forall seen,
             NoDup (uniqPaths seen candidates)
             /\ forall p, In p (uniqPaths seen candidates)
                          <-> (In p candidates /\ p <> [] /\ ~ In p seen)).
  { induction candidates as [|q rest IH]; intros seen; simpl.
    - split; [constructor | intros p; tauto].
    - destruct (nonEmpty q) eqn:Nq; simpl.
      + destruct (existsb (str_eqb q) seen) eqn:E.
        * apply existsb_str_eqb in E. destruct (IH seen) as [ND M].
          split; [assumption|]. intros p. rewrite M. split.
          -- tauto.
          -- intros [[<-|Hin] [Hne Hns]]; [contradiction | tauto].
        * assert (E' : ~ In q seen).
          { intros Hin. apply existsb_str_eqb in Hin. congruence. }
          destruct (IH (q :: seen)) as [ND M]. split.
          -- constructor; [|assumption]. rewrite M. simpl. tauto.
          -- intros p. simpl. rewrite M. simpl. split.
             ++ intros [<-|[Hin [Hne Hns]]].
                ** repeat split; auto. now destruct q.
                ** tauto.
             ++ intros [[<-|Hin] [Hne Hns]]; [now left|].
                destruct (list_eq_dec N.eq_dec q p) as [->|D]; [now left|].
                right. tauto.
      + destruct (IH seen) as [ND M]. split; [assumption|].
        intros p. rewrite M. split; [tauto|].
        intros [[<-|Hin] [Hne Hns]]; [|tauto].
        destruct q; [contradiction | discriminate]. }
  destruct (G []) as [ND M]. split; [assumption|].
  intros p. rewrite M. simpl. tauto.
Qed.

End ResumeLookup.

Lemma findResumeFile_prefers_requested_witness :
  findResumeFile (Demo.host [Demo.resume; lit "/work/Keshav-resume.docx"] [] [] None)
                 (lit "resumes/Keshav-resume.docx") []
    = (Normal (Some Demo.resume), []).
Proof.
  refine (@findResumeFile_prefers_requested _
            (Demo.host [Demo.resume; lit "/work/Keshav-resume.docx"] [] [] None)
            (lit "resumes/Keshav-resume.docx") [] _ _).
  - discriminate.
  - reflexivity.
Defined.

(* --------------------------------------------------------------------- *)
(** *** The brace-delimited substring of the critique                     *)
(* --------------------------------------------------------------------- *)

Lemma upToLast_spec (c : N) (s t : jsstring) :
  upToLast c s = Some t <->
  exists mid post, s = t ++ post /\ t = mid ++ [c] /\ ~ In c post.
Proof.
  revert t. induction s as [|d s IH]; intros t; simpl.
  - split; [discriminate|].
    intros [mid [post [H1 [H2 _]]]]. subst t. destruct mid; discriminate.
  - destruct (upToLast c s) as [u|] eqn:U.
    + split.
      * intros H. injection H as <-.
        destruct (proj1 (IH u) eq_refl) as [mid [post [H1 [H2 H3]]]].
        exists (d :: mid), post. subst. auto.
      * intros [mid [post [H1 [H2 H3]]]].
        destruct t as [|x t]; [destruct mid; discriminate|].
        simpl in H1. injection H1 as <- H1.
        destruct mid as [|y mid]; simpl in H2.
        -- injection H2 as -> ->. simpl in H1. subst s.
           destruct (proj1 (IH u) eq_refl) as [mid' [post' [K1 [K2 K3]]]].
           exfalso. apply H3. rewrite K1, K2.
           apply in_or_app. left. apply in_or_app. right. now left.
        -- injection H2 as -> ->.
           f_equal. f_equal. symmetry.
           assert (E : Some u = Some (mid ++ [c]));
             [|now injection E].
           apply IH. exists mid, post. auto.
    + split.
      * destruct (N.eqb_spec d c) as [->|D]; [|discriminate].
        intros H. injection H as <-. exists [], s. repeat split.
        intros Hin.
        assert (Hnone : forall s', In c s' -> upToLast c s' <> None).
        { clear. induction s' as [|x s' IHs]; simpl; [tauto|].
          intros [->|Hin].
          - destruct (upToLast c s'); [discriminate|].
            now rewrite N.eqb_refl.
          - specialize (IHs Hin). destruct (upToLast c s'); [discriminate|].
            contradiction. }
        now apply (Hnone s).
      * intros [mid [post [H1 [H2 H3]]]].
        destruct t as [|x t]; [destruct mid; discriminate|].
        simpl in H1. injection H1 as <- H1.
        destruct mid as [|y mid]; simpl in H2.
        -- injection H2 as -> ->. now rewrite N.eqb_refl.
        -- injection H2 as -> ->. exfalso.
           assert (E : (None : option jsstring) = Some (mid ++ [c]));
             [|discriminate].
           apply IH. exists mid, post. auto.
Qed.

Lemma matchBraces_spec (s m : jsstring) :
  matchBraces s = Some m <->
  exists pre mid post,
    s = pre ++ m ++ post
    /\ m = 123%N :: mid ++ [125%N]
    /\ ~ In 123%N pre
    /\ ~ In 125%N post.
Proof.
  revert m. induction s as [|c s IH]; intros m; simpl.
  - split; [discriminate|].
    intros [pre [mid [post [H1 [H2 _]]]]]. subst m.
    destruct pre; discriminate.
  - destruct (N.eqb_spec c 123) as [->|D].
    + destruct (upToLast 125 s) as [t|] eqn:U.
      * apply upToLast_spec in U as [mid [post [H1 [H2 H3]]]].
        split.
        -- intros H. injection H as <-. exists [], mid, post.
           subst. simpl. rewrite <- app_assoc. auto.
        -- intros [pre [mid' [post' [K1 [K2 [K3 K4]]]]]].
           destruct pre as [|x pre].
           ++ simpl in K1. subst m. simpl in K1. injection K1 as K1.
              f_equal. f_equal.
              assert (E : upToLast 125 s = Some (mid' ++ [125%N])).
              { apply upToLast_spec. exists mid', post'. auto. }
              assert (E' : upToLast 125 s = Some t).
              { apply upToLast_spec. exists mid, post. auto. }
              congruence.
           ++ simpl in K1. injection K1 as <- _. exfalso. apply K3. now left.
      * split; [discriminate|].
        intros [pre [mid' [post' [K1 [K2 [K3 K4]]]]]].
        destruct pre as [|x pre].
        -- simpl in K1. subst m. simpl in K1. injection K1 as K1.
           exfalso.
           assert (E : upToLast 125 s = Some (mid' ++ [125%N])).
           { apply upToLast_spec. exists mid', post'. auto. }
           congruence.
        -- simpl in K1. injection K1 as <- _. exfalso. apply K3. now left.
    + rewrite IH. split.
      * intros [pre [mid [post [H1 [H2 [H3 H4]]]]]].
        exists (c :: pre), mid, post. subst. repeat split; auto.
        intros [E|Hin]; [now apply D | contradiction].
      * intros [pre [mid [post [H1 [H2 [H3 H4]]]]]].
        destruct pre as [|x pre].
        -- subst m. simpl in H1. injection H1 as -> _. contradiction.
        -- simpl in H1. injection H1 as <- H1.
           exists pre, mid, post. repeat split; auto.
           intros Hin. apply H3. now right.
Qed.

(** X13.  The pattern finds a match exactly when the text has an opening
    brace with a closing brace after it, and the match then runs from
    the first opening brace to the last closing brace. *)
Theorem matchBraces_first_to_last (s m : jsstring) :
  matchBraces s = Some m <->
  exists pre mid post,
    s = pre ++ m ++ post
    /\ m = 123%N :: mid ++ [125%N]
    /\ ~ In 123%N pre
    /\ ~ In 125%N post.
Proof. apply matchBraces_spec. Qed.

(** X14.  A critique that wraps a JSON object in other text (prose, a
    code fence) is reduced to the object: when the text from the first
    opening brace to the last closing brace parses as JSON, the gap
    analysis is exactly that text. *)
Theorem gapsJsonOf_strips_surrounding_text
    {number : Type} {NUM : JsNumber number} (host : Host number)
    (pre mid post : jsstring) (parsed : JSON number) :
  ~ In 123%N pre -> ~ In 125%N post ->
  JSON_parse host (123%N :: mid ++ [125%N]) = Some parsed ->
  gapsJsonOf host (pre ++ (123%N :: mid ++ [125%N]) ++ post)
    = 123%N :: mid ++ [125%N].
Proof.
  intros Hpre Hpost Hparse. unfold gapsJsonOf.
  assert (M : matchBraces (pre ++ (123%N :: mid ++ [125%N]) ++ post)
              = Some (123%N :: mid ++ [125%N])).
  { apply matchBraces_spec. exists pre, mid, post. auto. }
  now rewrite M, Hparse.
Qed.

Lemma gapsJsonOf_strips_surrounding_text_witness :
  gapsJsonOf (Demo.host [] [] [] None)
             (lit "Here are the gaps: " ++ (123%N :: [] ++ [125%N]) ++ lit " (none).")
    = 123%N :: [] ++ [125%N].
Proof.
  refine (@gapsJsonOf_strips_surrounding_text _ _ (Demo.host [] [] [] None)
            (lit "Here are the gaps: ") [] (lit " (none).") (JObj []) _ _ _).
  - vm_compute. intuition discriminate.
  - vm_compute. intuition discriminate.
  - reflexivity.
Defined.

(** X15.  The gap analysis handed to the revision stage is either the
    raw critique text, or a part of it that starts with an opening
    brace, ends with a closing brace and parses as JSON. *)
Theorem gapsJsonOf_raw_or_parsed
    {number : Type} {NUM : JsNumber number} (host : Host number)
    (gapsRaw : jsstring) :
  gapsJsonOf host gapsRaw = gapsRaw
  \/ (JSON_parse host (gapsJsonOf host gapsRaw) <> None
      /\ exists pre mid post,
           gapsRaw = pre ++ gapsJsonOf host gapsRaw ++ post
           /\ gapsJsonOf host gapsRaw = 123%N :: mid ++ [125%N]).
Proof.
  unfold gapsJsonOf.
  destruct (matchBraces gapsRaw) as [m|] eqn:M.
  - destruct (JSON_parse host m) as [j|] eqn:P; [|now left].
    right. split; [congruence|].
    apply matchBraces_spec in M as [pre [mid [post [H1 [H2 _]]]]].
    exists pre, mid, post. auto.
  - left. now destruct (JSON_parse host gapsRaw).
Qed.

(* --------------------------------------------------------------------- *)
(** *** Template filling and rendering                                    *)
(* --------------------------------------------------------------------- *)

Lemma GetSubstitution_plain (matched before after repl : jsstring) :
  ~ In 36%N repl -> GetSubstitution matched before after repl = repl.
Proof.
  induction repl as [|c r IH]; intros H; simpl; [reflexivity|].
  destruct (N.eqb_spec c 36) as [->|D].
  - exfalso. apply H. now left.
  - rewrite IH; [reflexivity|]. intros Hin. apply H. now right.
Qed.

Lemma replaceFrom_absent (before_rev s pat repl : jsstring) :
  includes s pat = false ->
  replaceFrom before_rev s pat repl = rev before_rev ++ s.
Proof.
  revert before_rev. induction s as [|c s IH]; intros before_rev; simpl.
  - rewrite orb_false_r. intros ->. now rewrite app_nil_r.
  - intros H. apply orb_false_iff in H as [H1 H2]. rewrite H1.
    rewrite (IH _ H2). simpl. now rewrite <- app_assoc.
Qed.

(** X16.  With the built-in template, and a body and title free of the
    dollar sign, the page written is the template with the title in
    the [title] element and the body in the [body] element. *)
Theorem fillTemplate_default (htmlResume title : jsstring) :
  ~ In 36%N htmlResume -> ~ In 36%N title ->
  fillTemplate defaultTemplate htmlResume title
    = lit "<!doctype html><html><head><meta charset=" ++ quoted (lit "utf-8")
      ++ lit "><title>" ++ title ++ lit "</title></head><body>"
      ++ htmlResume ++ lit "</body></html>".
Proof.
  intros Hh Ht. unfold fillTemplate, String_replace, defaultTemplate.
  cbv -[GetSubstitution].
  rewrite !GetSubstitution_plain by assumption.
  reflexivity.
Qed.

Lemma fillTemplate_default_witness :
  fillTemplate defaultTemplate (lit "<p>Jane Doe</p>") (lit "Resume")
    = lit "<!doctype html><html><head><meta charset=" ++ quoted (lit "utf-8")
      ++ lit "><title>" ++ lit "Resume" ++ lit "</title></head><body>"
      ++ lit "<p>Jane Doe</p>" ++ lit "</body></html>".
Proof.
  apply fillTemplate_default; vm_compute; intuition discriminate.
Defined.

(** X17.  A template that holds neither placeholder is written out as
    it is: the resume and the title do not reach the page. *)
Theorem fillTemplate_without_placeholders (template htmlResume title : jsstring) :
  includes template (lit "{{CONTENT}}") = false ->
  includes template (lit "{{TITLE}}") = false ->
  fillTemplate template htmlResume title = template.
Proof.
  intros Hc Ht. unfold fillTemplate, String_replace.
  rewrite (replaceFrom_absent [] template _ _ Hc). simpl.
  now rewrite (replaceFrom_absent [] template _ _ Ht).
Qed.

Lemma fillTemplate_without_placeholders_witness :
  fillTemplate (lit "<html><body>{CONTENT}</body></html>")
               (lit "<p>Jane Doe</p>") (lit "Resume")
    = lit "<html><body>{CONTENT}</body></html>".
Proof.
  apply fillTemplate_without_placeholders; reflexivity.
Defined.

(* --------------------------------------------------------------------- *)
(** *** The main flow: what a run does and does not do                    *)
(* --------------------------------------------------------------------- *)

Lemma emitsOnly_bind_result {A B} (P : event -> Prop) (m : M A) (k : A -> M B) :
  emitsOnly P m ->
  (forall a tr tr', m tr = (Normal a, tr') -> emitsOnly P (k a)) ->
  emitsOnly P (bind m k).
Proof.
  intros Hm Hk tr. unfold bind.
  destruct (Hm tr) as [evs [E1 F1]].
  destruct (m tr) as [[a|e|c] tr1] eqn:R; simpl in E1; subst tr1.
  - destruct (Hk a tr (tr ++ evs) R (tr ++ evs)) as [evs2 [E2 F2]].
    exists (evs ++ evs2). rewrite E2, app_assoc. split; [reflexivity|].
    apply Forall_app; auto.
  - exists evs. auto.
  - exists evs. auto.
Qed.

Section RunEffectsProofs.

Context {number : Type} {NUM : JsNumber number}.
Variable host : Host number.
Variable cfg : Config number.

Let P : event -> Prop := expectedEffect host cfg.

Lemma expected_callGemini (prompt : jsstring) (opts : Options number) :
  opt_model opts = None -> emitsOnly P (callGemini host cfg prompt opts).
Proof.
  intros Hm.
  assert (Hreq : forall body, P (EvFetch (postRequest (requestUrl cfg opts) body))).
  { intros body. unfold P. simpl. unfold requestUrl, endpoint. rewrite Hm.
    repeat split. }
  unfold callGemini, postJson. cbv zeta. auto 20 with effects.
Qed.

Lemma expected_write (name data : jsstring) :
  In name artifactNames -> emitsOnly P (writeFileSync (outputFile host name) data).
Proof.
  intros H. apply emitsOnly_emit. unfold P. simpl.
  change (In (outputFile host name) (map (outputFile host) artifactNames)).
  now apply in_map.
Qed.

Lemma expected_ensureDir : emitsOnly P (ensureDir host (outputDir host)).
Proof.
  unfold ensureDir, mkdirSync.
  assert (P (EvMkdir (outputDir host))) by reflexivity.
  auto 10 with effects.
Qed.

Lemma expected_saveMarkdownAsPdf (md title : jsstring) :
  emitsOnly P (saveMarkdownAsPdf host md
                 (outputFile host (lit "tailored_resume_final.pdf")) title).
Proof.
  unfold saveMarkdownAsPdf, readFileSync_utf8. cbv zeta.
  assert (P (EvReadFile (templatePath host))) by (right; reflexivity).
  assert (P (EvPdf (outputFile host (lit "tailored_resume_final.pdf"))))
    by reflexivity.
  assert (P EvBrowserLaunch) by exact I.
  assert (P EvNewPage) by exact I.
  assert (P EvBrowserClose) by exact I.
  assert (forall h, P (EvSetContent h)) by (intros h; exact I).
  pose proof expected_ensureDir.
  pose proof (fun data => @expected_write (lit "tailored_resume_rendered.html") data
                            ltac:(simpl; auto 10)).
  auto 30 with effects.
Qed.

Lemma expected_stages (p : jsstring) :
  In p (resumeCandidates host (requestedResume cfg)) ->
  emitsOnly P (stages host cfg p).
Proof.
  intros Hp. unfold stages, extractTextFromDocx, readFileSync. cbv zeta.
  assert (P (EvReadFile p)) by (left; exact Hp).
  pose proof (fun prompt => @expected_callGemini prompt tailorOpts eq_refl).
  pose proof (fun prompt => @expected_callGemini prompt reviewOpts eq_refl).
  pose proof (fun prompt => @expected_callGemini prompt fixOpts eq_refl).
  pose proof (fun data => @expected_write (lit "tailored_resume_stage1.md") data
                            ltac:(simpl; auto 10)).
  pose proof (fun data => @expected_write (lit "recruiter_gaps.json.txt") data
                            ltac:(simpl; auto 10)).
  pose proof (fun data => @expected_write (lit "tailored_resume_final.md") data
                            ltac:(simpl; auto 10)).
  pose proof expected_saveMarkdownAsPdf.
  auto 30 with effects.
Qed.

Lemma expected_onError (err : exn) : emitsOnly P (onError host err).
Proof.
  unfold onError.
  pose proof expected_ensureDir.
  pose proof (fun data => @expected_write (lit "error.txt") data
                            ltac:(simpl; auto 10)).
  auto 20 with effects.
Qed.

Lemma findResumeFile_candidate (requestedPath p : jsstring) (tr tr' : trace) :
  findResumeFile host requestedPath tr = (Normal (Some p), tr') ->
  In p (resumeCandidates host requestedPath).
Proof.
  rewrite findResumeFile_resolve. intros H. injection H as H _.
  unfold resolveResume in H. apply find_some in H as [H _].
  eapply uniqPaths_incl; eauto.
Qed.

Lemma expected_findResumeFile (requestedPath : jsstring) :
  emitsOnly P (findResumeFile host requestedPath).
Proof.
  intros tr. exists []. rewrite findResumeFile_resolve. simpl.
  now rewrite app_nil_r.
Qed.

Lemma expected_main : emitsOnly P (main host cfg).
Proof.
  unfold main. apply emitsOnly_try_catch; [|apply expected_onError].
  unfold mainBody.
  apply emitsOnly_bind; [apply expected_ensureDir|]. intros _.
  apply emitsOnly_bind_result; [apply expected_findResumeFile|].
  intros [p|] tr tr' Hfind;
    [| apply emitsOnly_bind_result;
       [apply emitsOnly_exit | intros q t t' Hq; discriminate Hq]].
  apply findResumeFile_candidate in Hfind.
  apply emitsOnly_bind_result.
  - destruct (nonEmpty p); auto with effects.
  - intros q t t' Hq.
    assert (q = p) as -> by (destruct (nonEmpty p); now inversion Hq).
    pose proof (expected_stages Hfind). auto 10 with effects.
Qed.

End RunEffectsProofs.

(** X19.  Whatever the host does, the effects of the main flow stay
    within these: POST requests with a JSON content type to the one
    endpoint URL built from the model and the key; creation of the
    output directory; writes of the five named artifacts inside it;
    reads of a candidate resume location or of the template; export of
    the final PDF inside the output directory; and the browser steps. *)
Theorem main_effects_are_confined
    {number : Type} {NUM : JsNumber number} (host : Host number)
    (cfg : Config number) (tr : trace) :
  exists evs,
    snd (main host cfg tr) = tr ++ evs
    /\ Forall (expectedEffect host cfg) evs.
Proof. apply expected_main. Qed.

Lemma sendsAtMost_quiet {A} (m : M A) : emitsOnly notFetch m -> sendsAtMost 0 m.
Proof.
  intros H tr. destruct (H tr) as [evs [E F]]. exists evs. split; [assumption|].
  clear E. unfold networkCalls.
  induction F as [|e evs He _ IH]; simpl; [auto|].
  unfold notFetch in He. now rewrite He.
Qed.

Lemma sendsAtMost_bind {A B} (n1 n2 : nat) (m : M A) (k : A -> M B) :
  sendsAtMost n1 m -> (forall a, sendsAtMost n2 (k a)) ->
  sendsAtMost (n1 + n2) (bind m k).
Proof.
  intros Hm Hk tr. unfold bind.
  destruct (Hm tr) as [evs [E1 L1]].
  destruct (m tr) as [[a|e|c] tr1]; simpl in E1; subst tr1.
  - destruct (Hk a (tr ++ evs)) as [evs2 [E2 L2]].
    exists (evs ++ evs2). rewrite E2, app_assoc. split; [reflexivity|].
    unfold networkCalls in *. rewrite filter_app, length_app. lia.
  - exists evs. split; [reflexivity | lia].
  - exists evs. split; [reflexivity | lia].
Qed.

Lemma sendsAtMost_try_catch {A} (n1 n2 : nat) (m : M A) (h : exn -> M A) :
  sendsAtMost n1 m -> (forall e, sendsAtMost n2 (h e)) ->
  sendsAtMost (n1 + n2) (try_catch m h).
Proof.
  intros Hm Hh tr. unfold try_catch.
  destruct (Hm tr) as [evs [E1 L1]].
  destruct (m tr) as [[a|e|c] tr1]; simpl in E1; subst tr1.
  - exists evs. split; [reflexivity | lia].
  - destruct (Hh e (tr ++ evs)) as [evs2 [E2 L2]].
    exists (evs ++ evs2). rewrite E2, app_assoc. split; [reflexivity|].
    unfold networkCalls in *. rewrite filter_app, length_app. lia.
  - exists evs. split; [reflexivity | lia].
Qed.

Section RunCounts.

Context {number : Type} {NUM : JsNumber number}.
Variable host : Host number.
Variable cfg : Config number.

Hint Extern 1 (notFetch _) => reflexivity : effects.

Lemma quiet_extractTextFromDocx (p : jsstring) :
  emitsOnly notFetch (extractTextFromDocx host p).
Proof. unfold extractTextFromDocx, readFileSync. auto 20 with effects. Qed.

Lemma quiet_ensureDir (dir : jsstring) : emitsOnly notFetch (ensureDir host dir).
Proof. unfold ensureDir, mkdirSync. auto 20 with effects. Qed.

Lemma quiet_saveMarkdownAsPdf (md out title : jsstring) :
  emitsOnly notFetch (saveMarkdownAsPdf host md out title).
Proof.
  unfold saveMarkdownAsPdf, ensureDir, readFileSync_utf8, writeFileSync, mkdirSync.
  cbv zeta. auto 30 with effects.
Qed.

Lemma quiet_onError (err : exn) : emitsOnly notFetch (onError host err).
Proof.
  unfold onError, ensureDir, writeFileSync, mkdirSync. auto 30 with effects.
Qed.

Lemma quiet_findResumeFile (requestedPath : jsstring) :
  emitsOnly notFetch (findResumeFile host requestedPath).
Proof.
  intros tr. exists []. rewrite findResumeFile_resolve. simpl.
  now rewrite app_nil_r.
Qed.

Lemma sendsAtMost_callGemini (prompt : jsstring) (opts : Options number) :
  sendsAtMost 2 (callGemini host cfg prompt opts).
Proof.
  intros tr.
  destruct (callGemini_at_most_two_posts host cfg prompt opts tr)
    as [evs [E [_ L]]].
  exists evs. split; [assumption|].
  unfold networkCalls. pose proof (filter_length_le isFetch evs). lia.
Qed.

Lemma sendsAtMost_stages (p : jsstring) : sendsAtMost 6 (stages host cfg p).
Proof.
  unfold stages. cbv zeta.
  change 6%nat with (0 + (2 + (0 + (2 + (0 + (2 + (0 + 0)))))))%nat.
  repeat (apply sendsAtMost_bind; [|intros]);
    first [ apply sendsAtMost_callGemini
          | apply sendsAtMost_quiet;
            first [ apply quiet_extractTextFromDocx
                  | apply quiet_saveMarkdownAsPdf
                  | apply emitsOnly_emit; reflexivity ] ].
Qed.

Lemma sendsAtMost_main : sendsAtMost 6 (main host cfg).
Proof.
  unfold main, mainBody.
  change 6%nat with ((0 + (0 + (0 + (6 + 0)))) + 0)%nat.
  apply sendsAtMost_try_catch;
    [| intros e; apply sendsAtMost_quiet, quiet_onError].
  repeat (apply sendsAtMost_bind; [|intros]).
  - apply sendsAtMost_quiet, quiet_ensureDir.
  - apply sendsAtMost_quiet, quiet_findResumeFile.
  - apply sendsAtMost_quiet.
    match goal with
    | |- emitsOnly _ (match ?r with _ => _ end) =>
        destruct r as [q|]; [destruct (nonEmpty q)|]; auto with effects
    end.
  - apply sendsAtMost_stages.
  - apply sendsAtMost_quiet. auto with effects.
Qed.

End RunCounts.

(** X20.  A run of the main flow makes at most six network calls: at
    most two for each of the three stages. *)
Theorem main_sends_at_most_six_requests
    {number : Type} {NUM : JsNumber number} (host : Host number)
    (cfg : Config number) (tr : trace) :
  exists evs,
    snd (main host cfg tr) = tr ++ evs /\ (networkCalls evs <= 6)%nat.
Proof. apply sendsAtMost_main. Qed.

Lemma str_eqb_refl (a : jsstring) : str_eqb a a = true.
Proof. now apply str_eqb_eq. Qed.

Lemma bind_normal {A B} (m : M A) (k : A -> M B) (tr tr' : trace) (b : B) :
  bind m k tr = (Normal b, tr') ->
  exists a tr1, m tr = (Normal a, tr1) /\ k a tr1 = (Normal b, tr').
Proof.
  unfold bind. destruct (m tr) as [[a|e|c] tr1]; try discriminate.
  intros H. exists a, tr1. auto.
Qed.

Section RunTraces.

Context {number : Type} {NUM : JsNumber number}.
Variable host : Host number.
Variable cfg : Config number.

Lemma pathExists_app (tr evs : trace) (p : jsstring) :
  pathExists host tr p = true -> pathExists host (tr ++ evs) p = true.
Proof.
  unfold pathExists. rewrite existsb_app.
  destruct (fs_initial host p); [reflexivity|]. simpl. now intros ->.
Qed.

Lemma pathExists_afterEnsure (tr : trace) :
  pathExists host (afterEnsureOutput host tr) (outputDir host) = true.
Proof.
  unfold afterEnsureOutput.
  destruct (pathExists host tr (outputDir host)) eqn:E; [assumption|].
  unfold pathExists. rewrite existsb_app. simpl.
  rewrite str_eqb_refl. now rewrite !orb_true_r.
Qed.

Lemma afterEnsureOutput_stable (tr : trace) :
  pathExists host tr (outputDir host) = true -> afterEnsureOutput host tr = tr.
Proof. unfold afterEnsureOutput. now intros ->. Qed.

Lemma extractTextFromDocx_throw (p : jsstring) (e : exn) (tr : trace) :
  (fs_readFile host p = inl e
   \/ exists buffer, fs_readFile host p = inr buffer
                     /\ mammoth_extractRawText host buffer = inl e) ->
  extractTextFromDocx host p tr = (Throw e, tr ++ [EvReadFile p]).
Proof.
  unfold extractTextFromDocx, readFileSync, bind, emit.
  intros [H | [buffer [H1 H2]]].
  - now rewrite H.
  - rewrite H1. simpl. now rewrite H2.
Qed.

Lemma extractTextFromDocx_normal (p text : jsstring) (tr tr' : trace) :
  extractTextFromDocx host p tr = (Normal text, tr') -> tr' = tr ++ [EvReadFile p].
Proof.
  unfold extractTextFromDocx, readFileSync, bind, emit.
  destruct (fs_readFile host p) as [e|buffer]; simpl; [discriminate|].
  destruct (mammoth_extractRawText host buffer); simpl; [discriminate|].
  intros H. now injection H.
Qed.

Lemma callGemini_normal_trace (prompt text : jsstring) (opts : Options number)
    (tr tr' : trace) :
  callGemini host cfg prompt opts tr = (Normal text, tr') ->
  exists calls,
    tr' = tr ++ calls
    /\ Forall (fun e => isFetch e = true) calls
    /\ (1 <= List.length calls <= 2)%nat.
Proof.
  intros H. pose proof (callGemini_needs_fetch _ _ _ _ _ H) as Hf.
  destruct (callGemini_at_most_two_posts host cfg prompt opts tr)
    as [calls [E [F L]]].
  destruct (callGemini_first_request host cfg prompt opts tr Hf) as [rest R].
  rewrite H in E, R. simpl in E, R.
  exists calls. split; [assumption|]. split.
  - eapply Forall_impl; [|exact F]. intros [req| | | | | | | |]; simpl; auto.
  - split; [|assumption].
    rewrite E in R. apply app_inv_head in R. subst calls. simpl. lia.
Qed.

Lemma saveMarkdownAsPdf_normal (md out title : jsstring) (tr tr' : trace) :
  pathExists host tr (outputDir host) = true ->
  saveMarkdownAsPdf host md out title tr = (Normal tt, tr') ->
  exists pre html,
    tr' = tr ++ pre
             ++ [ EvWriteFile (outputFile host (lit "tailored_resume_rendered.html")) html;
                  EvBrowserLaunch; EvNewPage; EvSetContent html; EvPdf out;
                  EvBrowserClose ]
    /\ (pre = [] \/ pre = [EvReadFile (templatePath host)]).
Proof.
  intros Hex.
  unfold saveMarkdownAsPdf, ensureDir, bind, existsSync, readFileSync_utf8,
    writeFileSync, mkdirSync, attempt, emit, bind.
  destruct (pathExists host tr (templatePath host)).
  - destruct (fs_readFile_utf8 host (templatePath host)) as [e|template]; simpl;
      [discriminate|].
    rewrite (pathExists_app tr [EvReadFile (templatePath host)] _ Hex).
    destruct (launch_error host); simpl; [discriminate|].
    destruct (newPage_error host); simpl; [discriminate|].
    destruct (setContent_error host _); simpl; [discriminate|].
    destruct (pdf_error host _ _); simpl; [discriminate|].
    destruct (close_error host); simpl; [discriminate|].
    intros H. injection H as <-.
    eexists [EvReadFile (templatePath host)], _. split; [|now right].
    rewrite <- !app_assoc. reflexivity.
  - simpl. rewrite Hex.
    destruct (launch_error host); simpl; [discriminate|].
    destruct (newPage_error host); simpl; [discriminate|].
    destruct (setContent_error host _); simpl; [discriminate|].
    destruct (pdf_error host _ _); simpl; [discriminate|].
    destruct (close_error host); simpl; [discriminate|].
    intros H. injection H as <-.
    eexists [], _. split; [|now left].
    rewrite <- !app_assoc. reflexivity.
Qed.

End RunTraces.

(** X22.  A run that ends with status 0 has done, in this order: read
    the resume; one or two requests and the write of the stage-1 draft;
    one or two requests and the write of the gap analysis; one or two
    requests and the write of the final draft; at most a read of the
    template; the write of the rendered page, the browser steps on that
    same page, the export of the final PDF and the close of the
    browser. *)
Theorem successful_run_trace
    {number : Type} {NUM : JsNumber number} (host : Host number)
    (cfg : Config number) (tr : trace) :
  fst (main host cfg tr) = Exit 0 ->
  exists p tailored gapsRaw fixedResume html calls1 calls2 calls3 pre,
    snd (main host cfg tr)
      = afterEnsureOutput host tr
          ++ [EvReadFile p]
          ++ calls1
          ++ [EvWriteFile (outputFile host (lit "tailored_resume_stage1.md")) tailored]
          ++ calls2
          ++ [EvWriteFile (outputFile host (lit "recruiter_gaps.json.txt"))
                          (gapsJsonOf host gapsRaw)]
          ++ calls3
          ++ [EvWriteFile (outputFile host (lit "tailored_resume_final.md"))
                          fixedResume]
          ++ pre
          ++ [ EvWriteFile (outputFile host (lit "tailored_resume_rendered.html")) html;
               EvBrowserLaunch; EvNewPage; EvSetContent html;
               EvPdf (outputFile host (lit "tailored_resume_final.pdf"));
               EvBrowserClose ]
    /\ In p (resumeCandidates host (requestedResume cfg))
    /\ Forall (fun calls => Forall (fun e => isFetch e = true) calls
                            /\ (1 <= List.length calls <= 2)%nat)
              [calls1; calls2; calls3]
    /\ (pre = [] \/ pre = [EvReadFile (templatePath host)]).
Proof.
  unfold main, try_catch. rewrite mainBody_run.
  destruct (resolveResume _ _ _) as [p|] eqn:R; [|discriminate].
  destruct (stages host cfg p (afterEnsureOutput host tr)) as [[u|e|c] tr2] eqn:S;
    simpl; [intros _ | rewrite onError_run; discriminate | ].
  2: { exfalso. pose proof (neverExits_stages host cfg p (afterEnsureOutput host tr)) as NE.
       rewrite S in NE. now apply (NE c). }
  unfold stages in S.
  apply bind_normal in S as [resumeText [t1 [S1 S]]].
  apply extractTextFromDocx_normal in S1. cbv zeta in S.
  apply bind_normal in S as [tailored [t2 [S2 S]]].
  apply callGemini_normal_trace in S2 as [calls1 [E2 F2]].
  apply bind_normal in S as [u1 [t3 [S3 S]]].
  unfold writeFileSync, emit in S3. injection S3 as _ S3.
  apply bind_normal in S as [gapsRaw [t4 [S4 S]]].
  apply callGemini_normal_trace in S4 as [calls2 [E4 F4]].
  apply bind_normal in S as [u2 [t5 [S5 S]]].
  unfold writeFileSync, emit in S5. injection S5 as _ S5.
  apply bind_normal in S as [fixedResume [t6 [S6 S]]].
  apply callGemini_normal_trace in S6 as [calls3 [E6 F6]].
  apply bind_normal in S as [u3 [t7 [S7 S]]].
  unfold writeFileSync, emit in S7. injection S7 as _ S7.
  destruct u.
  apply saveMarkdownAsPdf_normal in S as [pre [html [E8 Hpre]]].
  - exists p, tailored, gapsRaw, fixedResume, html, calls1, calls2, calls3, pre.
    split; [| split; [| split]].
    + subst. rewrite <- !app_assoc. reflexivity.
    + unfold resolveResume in R. apply find_some in R as [R _].
      exact (uniqPaths_incl _ _ _ R).
    + apply Forall_cons; [exact F2|]. apply Forall_cons; [exact F4|].
      apply Forall_cons; [exact F6|]. apply Forall_nil.
    + assumption.
  - subst. rewrite <- !app_assoc. apply pathExists_app, pathExists_afterEnsure.
Qed.

Lemma successful_run_trace_witness :
  let h := Demo.host [Demo.resume] (lit "Jane Doe") Demo.happyScript None in
  exists p tailored gapsRaw fixedResume html calls1 calls2 calls3 pre,
    snd (main h Demo.config [])
      = afterEnsureOutput h []
          ++ [EvReadFile p]
          ++ calls1
          ++ [EvWriteFile (outputFile h (lit "tailored_resume_stage1.md")) tailored]
          ++ calls2
          ++ [EvWriteFile (outputFile h (lit "recruiter_gaps.json.txt"))
                          (gapsJsonOf h gapsRaw)]
          ++ calls3
          ++ [EvWriteFile (outputFile h (lit "tailored_resume_final.md"))
                          fixedResume]
          ++ pre
          ++ [ EvWriteFile (outputFile h (lit "tailored_resume_rendered.html")) html;
               EvBrowserLaunch; EvNewPage; EvSetContent html;
               EvPdf (outputFile h (lit "tailored_resume_final.pdf"));
               EvBrowserClose ]
    /\ In p (resumeCandidates h (requestedResume Demo.config))
    /\ Forall (fun calls => Forall (fun e => isFetch e = true) calls
                            /\ (1 <= List.length calls <= 2)%nat)
              [calls1; calls2; calls3]
    /\ (pre = [] \/ pre = [EvReadFile (templatePath h)]).
Proof.
  intros h.
  apply (@successful_run_trace _ _ h Demo.config []).
  vm_compute. reflexivity.
Defined.

(* --------------------------------------------------------------------- *)
(** *** The first variant                                                 *)
(* --------------------------------------------------------------------- *)

Section FirstVariant.

Context {number : Type} {NUM : JsNumber number}.
Variable host : Host number.
Variable cfg : Config number.
Variable invalidData : JSON number -> exn.

Lemma v1_callGemini_cases (prompt : jsstring) (options : Options number)
    (tr : trace) :
  has_fetch host = true ->
  V1.callGemini host cfg prompt options tr =
    match fetch host tr (V1.requestOf cfg prompt options) with
    | FetchFailed e => (Throw e, tr ++ [EvFetch (V1.requestOf cfg prompt options)])
    | Responded res =>
        match res_json res with
        | None =>
            (Throw (Error (lit "Invalid JSON from Gemini: "
                             ++ Z_toString (res_status res) ++ lit " "
                             ++ match res_text res with
                                | Some text => text
                                | None => []
                                end)),
             tr ++ [EvFetch (V1.requestOf cfg prompt options)])
        | Some json =>
            if res_ok res then
              liftR (V1.responseText json)
                    (tr ++ [EvFetch (V1.requestOf cfg prompt options)])
            else
              (Throw (Error (lit "Gemini API Error: " ++ JSON_stringify json)),
               tr ++ [EvFetch (V1.requestOf cfg prompt options)])
        end
    end.
Proof.
  intros Hf. unfold V1.callGemini. rewrite Hf. simpl.
  unfold bind, doFetch.
  destruct (fetch host tr _) as [res|e]; [|reflexivity].
  destruct (res_json res); [|reflexivity].
  now destruct (res_ok res).
Qed.

End FirstVariant.

(** X23.  In the first variant, with [fetch] available, a call sends
    exactly one request and never a second one, whatever the reply. *)
Theorem v1_callGemini_single_request
    {number : Type} {NUM : JsNumber number} (host : Host number)
    (cfg : Config number) (prompt : jsstring) (options : Options number)
    (tr : trace) :
  has_fetch host = true ->
  snd (V1.callGemini host cfg prompt options tr)
    = tr ++ [EvFetch (V1.requestOf cfg prompt options)].
Proof.
  intros Hf. rewrite (v1_callGemini_cases host cfg prompt options tr Hf).
  destruct (fetch host tr _) as [res|e]; [|reflexivity].
  destruct (res_json res); [|reflexivity].
  destruct (res_ok res); [|reflexivity].
  now destruct (V1.responseText j).
Qed.

Lemma v1_callGemini_single_request_witness :
  snd (V1.callGemini (Demo.host [] [] [Demo.reply 503 (JObj [])] None)
                     Demo.config (lit "hi") V1.noOptions [])
    = [] ++ [EvFetch (V1.requestOf Demo.config (lit "hi") V1.noOptions)].
Proof.
  exact (@v1_callGemini_single_request _ _
           (Demo.host [] [] [Demo.reply 503 (JObj [])] None)
           Demo.config (lit "hi") V1.noOptions [] eq_refl).
Defined.

(** X24.  In the first variant, with [fetch] available, a reply whose
    status is not [ok] and whose body is JSON makes the call throw an
    [Error] whose message is ["Gemini API Error: "] followed by the
    serialisation of the body, for every body, the falsy ones included. *)
Theorem v1_callGemini_error_carries_body
    {number : Type} {NUM : JsNumber number} (host : Host number)
    (cfg : Config number) (prompt : jsstring) (options : Options number)
    (tr : trace) (res : Response number) (json : JSON number) :
  has_fetch host = true ->
  fetch host tr (V1.requestOf cfg prompt options) = Responded res ->
  res_ok res = false -> res_json res = Some json ->
  fst (V1.callGemini host cfg prompt options tr)
    = Throw (Error (lit "Gemini API Error: " ++ JSON_stringify json))
  /\ includes (lit "Gemini API Error: " ++ JSON_stringify json)
              (JSON_stringify json) = true.
Proof.
  intros Hf F O J. rewrite (v1_callGemini_cases host cfg prompt options tr Hf).
  rewrite F, J, O. split; [reflexivity|].
  rewrite <- (app_nil_r (JSON_stringify json)) at 1.
  apply includes_app.
Qed.

Lemma v1_callGemini_error_carries_body_witness :
  fst (V1.callGemini (Demo.host [] [] [Demo.reply 500 (JBool false)] None)
                     Demo.config (lit "hi") V1.noOptions [])
    = Throw (Error (lit "Gemini API Error: " ++ JSON_stringify (@JBool Demo.decimal false)))
  /\ includes (lit "Gemini API Error: " ++ JSON_stringify (@JBool Demo.decimal false))
              (JSON_stringify (@JBool Demo.decimal false)) = true.
Proof.
  refine (@v1_callGemini_error_carries_body _ _
            (Demo.host [] [] [Demo.reply 500 (JBool false)] None)
            Demo.config (lit "hi") V1.noOptions []
            {| res_status := 500; res_json := Some (JBool false); res_text := None |}
            (JBool false) _ _ _ _); reflexivity.
Defined.

(** X25.  The two variants parse a reply alike whenever the reply is
    truthy, its [output_text] is absent, a non-empty string or a falsy
    value that is not a string, and its [candidates] is absent, falsy or
    an array: the first variant then returns, as a string, what the
    second returns. *)
Theorem v1_responseText_agrees
    {number : Type} {NUM : JsNumber number} (json : JSON number) :
  truthy json = true ->
  match field json (lit "output_text") with
  | Some (JStr s) => s <> []
  | Some v => truthy v = false
  | None => True
  end ->
  match field json (lit "candidates") with
  | Some (JArr _) | None => True
  | Some v => truthy v = false
  end ->
  V1.responseText json = V1.asValue (extractTextFromResponseJson json).
Proof.
  intros T Ho Hc. unfold V1.responseText, extractTextFromResponseJson.
  rewrite T. simpl negb. cbv iota.
  pose proof (truthy_not_null _ T) as Hn.
  rewrite !(getProp_field _ _ Hn). simpl rbind.
  destruct (field json (lit "candidates")) as [[| b | n | s | cands | fields]|];
    simpl in Hc;
    destruct (field json (lit "output_text")) as [[| b' | n' | s' | items' | fields']|];
    simpl in Ho |- *;
    try rewrite Ho; try rewrite Hc; simpl;
    try reflexivity; try discriminate;
    try (destruct s' as [|u s']; [contradiction | reflexivity]).
  all: destruct (first cands) as [c|]; [destruct (truthy c)|]; reflexivity.
Qed.

Lemma v1_responseText_agrees_witness :
  V1.responseText Demo.partsResponse
    = V1.asValue (extractTextFromResponseJson Demo.partsResponse).
Proof.
  apply v1_responseText_agrees; [reflexivity | exact I | exact I].
Defined.

Section FirstVariantRun.

Context {number : Type} {NUM : JsNumber number}.
Variable host : Host number.
Variable cfg : Config number.
Variable invalidData : JSON number -> exn.

Hint Resolve neverExits_existsSync neverExits_doFetch
  neverExits_extractTextFromDocx : effects.
Hint Resolve emitsOnly_existsSync emitsOnly_doFetch : effects.
Hint Extern 1 (notFetch _) => reflexivity : effects.

Lemma v1_neverExits_callGemini (prompt : jsstring) (options : Options number) :
  neverExits (V1.callGemini host cfg prompt options).
Proof.
  unfold V1.callGemini. destruct (negb (has_fetch host)); [auto with effects|].
  apply neverExits_bind; [auto with effects|]. intros res.
  destruct (res_json res); [|auto with effects].
  destruct (negb (res_ok res)); auto with effects.
Qed.

Lemma v1_neverExits_writeValue (p : jsstring) (v : JSON number) :
  neverExits (V1.writeValue invalidData p v).
Proof.
  unfold V1.writeValue, writeFileSync. destruct v; auto 10 with effects.
Qed.

Lemma v1_neverExits_renderPDF (md pathOut : jsstring) :
  neverExits (V1.renderPDF host md pathOut).
Proof.
  unfold V1.renderPDF, ensureDir, readFileSync_utf8, writeFileSync, mkdirSync.
  cbv zeta. auto 30 with effects.
Qed.

Lemma v1_neverExits_mainBody : neverExits (V1.mainBody host cfg invalidData).
Proof.
  unfold V1.mainBody.
  repeat (apply neverExits_bind; [|intros]);
    first [ apply v1_neverExits_callGemini
          | apply v1_neverExits_writeValue
          | apply v1_neverExits_renderPDF
          | unfold ensureDir, mkdirSync, readFileSync_utf8, writeFileSync;
            auto 20 with effects ].
Qed.

Lemma v1_onError_run (err : exn) (tr : trace) :
  V1.onError host err tr
    = (Exit 1,
       tr ++ (if pathExists host tr (lit "output") then []
              else [EvMkdir (lit "output")])
          ++ [EvWriteFile (lit "output/error.txt") (String_of_exn err)]).
Proof.
  unfold V1.onError, ensureDir, bind, existsSync, writeFileSync, mkdirSync,
    emit, process_exit, ret.
  destruct (pathExists host tr (lit "output")); simpl;
    [reflexivity | now rewrite <- app_assoc].
Qed.

Lemma v1_quiet_writeValue (p : jsstring) (v : JSON number) :
  emitsOnly notFetch (V1.writeValue invalidData p v).
Proof.
  unfold V1.writeValue, writeFileSync. destruct v; auto 10 with effects.
Qed.

Lemma v1_quiet_renderPDF (md pathOut : jsstring) :
  emitsOnly notFetch (V1.renderPDF host md pathOut).
Proof.
  unfold V1.renderPDF, ensureDir, readFileSync_utf8, writeFileSync, mkdirSync.
  cbv zeta. auto 30 with effects.
Qed.

Lemma v1_sendsAtMost_callGemini (prompt : jsstring) (options : Options number) :
  sendsAtMost 1 (V1.callGemini host cfg prompt options).
Proof.
  intros tr. case_eq (has_fetch host); intros Hf.
  - exists [EvFetch (V1.requestOf cfg prompt options)]. split; [|reflexivity].
    rewrite (v1_callGemini_cases host cfg prompt options tr Hf).
    destruct (fetch host tr _) as [res|e]; [|reflexivity].
    destruct (res_json res); [|reflexivity].
    destruct (res_ok res); [|reflexivity].
    now destruct (V1.responseText j).
  - exists []. unfold V1.callGemini. rewrite Hf. simpl.
    split; [now rewrite app_nil_r | unfold networkCalls; simpl; lia].
Qed.

Lemma v1_sendsAtMost_main : sendsAtMost 3 (V1.main host cfg invalidData).
Proof.
  unfold V1.main, V1.mainBody.
  change 3%nat
    with ((0 + (0 + (0 + (0 + (1 + (0 + (1 + (0 + (1 + (0 + 0)))))))))) + 0)%nat.
  apply sendsAtMost_try_catch.
  - repeat (apply sendsAtMost_bind; [|intros]);
      first [ apply v1_sendsAtMost_callGemini
            | apply sendsAtMost_quiet;
              first [ apply v1_quiet_writeValue
                    | apply v1_quiet_renderPDF
                    | apply quiet_extractTextFromDocx
                    | apply quiet_ensureDir
                    | auto with effects ] ].
  - intros e. apply sendsAtMost_quiet.
    unfold V1.onError, ensureDir, writeFileSync, mkdirSync. auto 30 with effects.
Qed.

End FirstVariantRun.




(** X28.  A run of the first variant makes at most three network
    calls: one for each stage, with no second attempt. *)
Theorem v1_main_sends_at_most_three_requests
    {number : Type} {NUM : JsNumber number} (host : Host number)
    (cfg : Config number) (invalidData : JSON number -> exn) (tr : trace) :
  exists evs,
    snd (V1.main host cfg invalidData tr) = tr ++ evs
    /\ (networkCalls evs <= 3)%nat.
Proof. apply v1_sendsAtMost_main. Qed.


(* ===================================================================== *)
(** ** Properties of the script on raw flags and a refusing file system   *)
(* ===================================================================== *)

Section RawRuns.

Context {number : Type} {NUM : JsNumber number}.
Variable host : Host number.
Variable faults : Faults number.

Lemma raw_ensureDir_run (tr : trace) :
  Raw.ensureDir host faults (outputDir host) tr =
    if pathExists host tr (outputDir host) then (Normal tt, tr)
    else match mkdir_error faults tr (outputDir host) with
         | None => (Normal tt, tr ++ [EvMkdir (outputDir host)])
         | Some e => (Throw e, tr)
         end.
Proof.
  unfold Raw.ensureDir, bind, existsSync, Raw.mkdirSync.
  destruct (pathExists host tr (outputDir host)); [reflexivity|].
  now destruct (mkdir_error faults tr (outputDir host)).
Qed.

Lemma raw_ensureDir_ready (tr tr1 : trace) :
  Raw.afterEnsureOutput host faults tr = Some tr1 ->
  Raw.ensureDir host faults (outputDir host) tr = (Normal tt, tr1).
Proof.
  rewrite raw_ensureDir_run. unfold Raw.afterEnsureOutput.
  destruct (pathExists host tr (outputDir host)).
  - now intros [= ->].
  - destruct (mkdir_error faults tr (outputDir host)); [discriminate|].
    now intros [= <-].
Qed.

Lemma raw_ensureDir_refused (tr : trace) :
  Raw.afterEnsureOutput host faults tr = None ->
  exists e, mkdir_error faults tr (outputDir host) = Some e
            /\ Raw.ensureDir host faults (outputDir host) tr = (Throw e, tr).
Proof.
  rewrite raw_ensureDir_run. unfold Raw.afterEnsureOutput.
  destruct (pathExists host tr (outputDir host)); [discriminate|].
  destruct (mkdir_error faults tr (outputDir host)) as [e|]; [|discriminate].
  intros _. now exists e.
Qed.

(** The [catch] block never fails: it ends the process with 10, with or
    without the error artifact. *)
Lemma raw_onError_run (err : exn) (tr : trace) :
  Raw.onError host faults err tr
    = (Exit 10, Raw.afterErrorReport host faults err tr).
Proof.
  unfold Raw.onError, Raw.afterErrorReport, Raw.afterEnsureOutput.
  unfold bind at 1. unfold try_catch. unfold bind at 1.
  rewrite raw_ensureDir_run.
  destruct (pathExists host tr (outputDir host)).
  - unfold Raw.writeFileSync, attempt.
    now destruct (writeFile_error faults tr _ _).
  - destruct (mkdir_error faults tr (outputDir host)); [reflexivity|].
    unfold Raw.writeFileSync, attempt.
    now destruct (writeFile_error faults _ _ _).
Qed.

Lemma raw_findResumeFile_text (p : jsstring) (tr : trace) :
  Raw.findResumeFile host faults (JStr p) tr
    = (Normal (resolveResume host p tr), tr).
Proof. apply findResumeFile_resolve. Qed.

Hint Resolve neverExits_existsSync neverExits_doFetch neverExits_callGemini
  neverExits_extractTextFromDocx : effects.

Lemma raw_neverExits_writeFileSync (p data : jsstring) :
  neverExits (Raw.writeFileSync faults p data).
Proof.
  intros tr c. unfold Raw.writeFileSync, attempt.
  destruct (writeFile_error faults tr p data); discriminate.
Qed.

Lemma raw_neverExits_ensureDir (dir : jsstring) :
  neverExits (Raw.ensureDir host faults dir).
Proof.
  intros tr c. unfold Raw.ensureDir, bind, existsSync, Raw.mkdirSync, attempt.
  destruct (pathExists host tr dir); [discriminate|].
  destruct (mkdir_error faults tr dir); discriminate.
Qed.

Hint Resolve raw_neverExits_writeFileSync raw_neverExits_ensureDir : effects.

Lemma raw_neverExits_saveMarkdownAsPdf (md out title : jsstring) :
  neverExits (Raw.saveMarkdownAsPdf host faults md out title).
Proof.
  unfold Raw.saveMarkdownAsPdf, readFileSync_utf8. cbv zeta.
  auto 30 with effects.
Qed.

Hint Resolve raw_neverExits_saveMarkdownAsPdf : effects.

Lemma raw_neverExits_stages (cfg : Config number) (flags : Raw.Flags number)
    (resumeFile : jsstring) :
  neverExits (Raw.stages host faults cfg flags resumeFile).
Proof. unfold Raw.stages. cbv zeta. auto 40 with effects. Qed.

(** The [try] block, by what the output directory, the lookup and the
    stages do. *)
Lemma raw_mainBody_run (cfg : Config number) (flags : Raw.Flags number)
    (tr tr1 : trace) (p : jsstring) :
  Raw.afterEnsureOutput host faults tr = Some tr1 ->
  Raw.requestedResume flags = JStr p ->
  Raw.mainBody host faults cfg flags tr =
    match resolveResume host p tr1 with
    | None => (Exit 2, tr1)
    | Some q =>
        match Raw.stages host faults cfg flags q tr1 with
        | (Normal _, tr2) => (Exit 0, tr2)
        | (Throw e, tr2) => (Throw e, tr2)
        | (Exit c, tr2) => (Exit c, tr2)
        end
    end.
Proof.
  intros Hdir Hp. unfold Raw.mainBody, bind at 1.
  rewrite (raw_ensureDir_ready _ Hdir).
  unfold bind at 1. rewrite Hp, raw_findResumeFile_text.
  destruct (resolveResume host p tr1) as [q|] eqn:R; [|reflexivity].
  rewrite (resolveResume_nonEmpty _ _ _ R).
  unfold bind, ret, process_exit.
  now destruct (Raw.stages host faults cfg flags q tr1) as [[u|e|c] tr2].
Qed.

Lemma raw_mainBody_refused (cfg : Config number) (flags : Raw.Flags number)
    (tr : trace) (e : exn) :
  pathExists host tr (outputDir host) = false ->
  mkdir_error faults tr (outputDir host) = Some e ->
  Raw.mainBody host faults cfg flags tr = (Throw e, tr).
Proof.
  intros Hex He. unfold Raw.mainBody, bind at 1.
  now rewrite raw_ensureDir_run, Hex, He.
Qed.

Lemma raw_mainBody_never_returns (cfg : Config number) (flags : Raw.Flags number)
    (tr : trace) :
  match Raw.mainBody host faults cfg flags tr with
  | (Normal _, _) => False
  | (Throw _, _) => True
  | (Exit code, _) => code = 0%Z \/ code = 2%Z
  end.
Proof.
  unfold Raw.mainBody, bind at 1.
  destruct (Raw.ensureDir host faults (outputDir host) tr) as [[[]|e|c] tr1] eqn:E.
  - unfold bind at 1.
    destruct (Raw.findResumeFile host faults (Raw.requestedResume flags) tr1)
      as [[r|e|c] tr2] eqn:F.
    + assert (Hstages : forall q,
                match bind (Raw.stages host faults cfg flags q)
                           (fun _ => @process_exit unit 0) tr2 with
                | (Normal _, _) => False
                | (Throw _, _) => True
                | (Exit code, _) => code = 0%Z \/ code = 2%Z
                end).
      { intros q. unfold bind, process_exit.
        pose proof (raw_neverExits_stages cfg flags q tr2) as NE.
        destruct (Raw.stages host faults cfg flags q tr2) as [[u|e|c] tr3];
          [now left | exact I | exfalso; now apply (NE c)]. }
      unfold bind at 1.
      destruct r as [q|]; [destruct (nonEmpty q)|]; simpl;
        try (now right); apply Hstages.
    + exact I.
    + unfold Raw.findResumeFile in F.
      destruct (Raw.requestedResume flags); try discriminate F.
      rewrite findResumeFile_resolve in F. discriminate F.
  - exact I.
  - exfalso. apply (@raw_neverExits_ensureDir (outputDir host) tr c).
    now rewrite E.
Qed.

End RawRuns.

(** C3, as amended.  The main flow ends the process with status 0, 2 or
    10 and with no other.  With the output directory in place and a
    resume path that is text: the status is 2 when no candidate location
    exists; it is 0 when the resume is found and every stage returns;
    it is 10 when a stage throws.  It is 10 as well when the output
    directory is missing and cannot be created.  On every exception of
    the [try] block the status is 10 and the run ends as
    [afterErrorReport] says: [String(err)] is written to [error.txt] as
    the last effect when the output directory is there or can be
    created and the write is accepted, and nothing is written otherwise
    (the failure of the report is dropped). *)
Theorem main_exit_status
    {number : Type} {NUM : JsNumber number} (host : Host number)
    (faults : Faults number) (cfg : Config number) (flags : Raw.Flags number)
    (tr : trace) :
  (exists code,
     fst (Raw.main host faults cfg flags tr) = Exit code
     /\ (code = 0 \/ code = 2 \/ code = 10)%Z)
  /\ (forall tr1 p,
        Raw.afterEnsureOutput host faults tr = Some tr1 ->
        Raw.requestedResume flags = JStr p ->
        match resolveResume host p tr1 with
        | None => Raw.main host faults cfg flags tr = (Exit 2, tr1)
        | Some q =>
            match Raw.stages host faults cfg flags q tr1 with
            | (Normal _, tr2) => Raw.main host faults cfg flags tr = (Exit 0, tr2)
            | (Throw err, tr2) =>
                Raw.main host faults cfg flags tr
                  = (Exit 10, Raw.afterErrorReport host faults err tr2)
            | (Exit _, _) => False
            end
        end)
  /\ (forall e,
        pathExists host tr (outputDir host) = false ->
        mkdir_error faults tr (outputDir host) = Some e ->
        Raw.main host faults cfg flags tr
          = (Exit 10, Raw.afterErrorReport host faults e tr))
  /\ (forall err tr2,
        Raw.mainBody host faults cfg flags tr = (Throw err, tr2) ->
        Raw.main host faults cfg flags tr
          = (Exit 10, Raw.afterErrorReport host faults err tr2)).
Proof.
  assert (Hthrow : forall err tr2,
            Raw.mainBody host faults cfg flags tr = (Throw err, tr2) ->
            Raw.main host faults cfg flags tr
              = (Exit 10, Raw.afterErrorReport host faults err tr2)).
  { intros err tr2 H. unfold Raw.main, try_catch. rewrite H.
    apply raw_onError_run. }
  split; [| split; [| split]].
  - pose proof (raw_mainBody_never_returns host faults cfg flags tr) as R.
    destruct (Raw.mainBody host faults cfg flags tr) as [[u|err|c] tr2] eqn:E.
    + destruct R.
    + rewrite (Hthrow _ _ eq_refl). exists 10%Z. auto.
    + unfold Raw.main, try_catch. rewrite E. exists c. simpl. tauto.
  - intros tr1 p Hdir Hp.
    pose proof (raw_mainBody_run host faults cfg flags tr Hdir Hp) as B.
    destruct (resolveResume host p tr1) as [q|].
    + pose proof (raw_neverExits_stages host faults cfg flags q tr1) as NE.
      destruct (Raw.stages host faults cfg flags q tr1) as [[u|err|c] tr2].
      * unfold Raw.main, try_catch. now rewrite B.
      * now apply Hthrow.
      * now apply (NE c).
    + unfold Raw.main, try_catch. now rewrite B.
  - intros e Hex He. apply Hthrow. now apply raw_mainBody_refused.
  - exact Hthrow.
Qed.

Lemma main_exit_status_witness :
  let up := Demo.host [Demo.resume] (lit "Jane Doe") Demo.happyScript None in
  let down := Demo.host [Demo.resume] (lit "Jane Doe") [] None in
  Raw.main (Demo.host [] [] [] None) (RawDemo.faults false) Demo.config
           RawDemo.flags []
    = (Exit 2, [EvMkdir (lit "/work/output")])
  /\ fst (Raw.main up (RawDemo.faults false) Demo.config RawDemo.flags [])
     = Exit 0
  /\ Raw.main down (RawDemo.faults false) Demo.config RawDemo.flags []
     = (Exit 10,
        [ EvMkdir (lit "/work/output");
          EvReadFile Demo.resume;
          EvFetch (firstRequest Demo.config
                     (buildTailorPrompt (lit "Jane Doe") (lit "Software Engineer")
                                        (lit "Build things"))
                     tailorOpts);
          EvWriteFile (lit "/work/output/error.txt") (lit "TypeError: fetch failed") ]).
Proof.
  intros up down. split; [| split].
  - exact (proj1 (proj2 (main_exit_status (Demo.host [] [] [] None)
                           (RawDemo.faults false) Demo.config RawDemo.flags []))
                 [EvMkdir (lit "/work/output")]
                 (lit "resumes/Keshav-resume.docx") eq_refl eq_refl).
  - pose proof (proj1 (proj2 (main_exit_status up (RawDemo.faults false)
                                Demo.config RawDemo.flags []))
                      [EvMkdir (lit "/work/output")]
                      (lit "resumes/Keshav-resume.docx") eq_refl eq_refl) as H.
    vm_compute in H. vm_compute. exact (f_equal fst H).
  - pose proof (proj1 (proj2 (main_exit_status down (RawDemo.faults false)
                                Demo.config RawDemo.flags []))
                      [EvMkdir (lit "/work/output")]
                      (lit "resumes/Keshav-resume.docx") eq_refl eq_refl) as H.
    vm_compute in H. vm_compute. exact H.
Defined.

(** The claim as it was stated fails where the report is refused: the
    output directory exists but takes no write, the network is down;
    the run ends with status 10 after the read and the request, and no
    [error.txt] is written. *)
Lemma main_error_artifact_not_written :
  let r := Raw.main (Demo.host [lit "/work/output"; Demo.resume] (lit "Jane Doe")
                               [] None)
                    (RawDemo.faults true) Demo.config RawDemo.flags [] in
  fst r = Exit 10
  /\ snd r = [ EvReadFile Demo.resume;
               EvFetch (firstRequest Demo.config
                          (buildTailorPrompt (lit "Jane Doe")
                             (lit "Software Engineer") (lit "Build things"))
                          tailorOpts) ]
  /\ existsb (creates (lit "/work/output/error.txt")) (snd r) = false.
Proof. vm_compute. repeat split. Qed.




(** With text flags and a file system that accepts every write, the main
    flow above is the main flow of the text embedding. *)
Lemma raw_main_on_text_flags
    {number : Type} {NUM : JsNumber number} (host : Host number)
    (cfg : Config number) (invalid : JSON number -> exn) (tr : trace) :
  Raw.main host
    {| mkdir_error := fun _ _ => None;
       writeFile_error := fun _ _ _ => None;
       invalidPathArgument := invalid |}
    cfg
    {| Raw.jobTitle := JStr (jobTitle cfg);
       Raw.jobDesc := JStr (jobDesc cfg);
       Raw.company := JStr (company cfg);
       Raw.resumePathInput := JStr (resumePathInput cfg) |}
    tr
  = main host cfg tr.
Proof.
  unfold Raw.main, main, Raw.mainBody, mainBody, Raw.requestedResume,
    requestedResume, Raw.orValue, orElse, nonEmpty. simpl.
  destruct (resumePathInput cfg); reflexivity.
Qed.

(** X10.  [findResumeFile] has no effect, whatever it is handed.  Handed
    a string, it does not throw and returns the first candidate
    location, in the order the candidates are built, that is a non-empty
    path and exists; the removal of repeated candidates does not change
    the result.  Handed anything else (the number, boolean, array or
    object a flag can be), it throws the [TypeError] of
    [path.isAbsolute] before it looks anywhere. *)
Theorem findResumeFile_first_existing
    {number : Type} {NUM : JsNumber number} (host : Host number)
    (faults : Faults number) (requestedPath : JSON number) (tr : trace) :
  Raw.findResumeFile host faults requestedPath tr
    = (match requestedPath with
       | JStr p =>
           Normal (find (fun q => nonEmpty q && pathExists host tr q)
                        (resumeCandidates host p))
       | _ => Throw (invalidPathArgument faults requestedPath)
       end,
       tr).
Proof.
  destruct requestedPath; try reflexivity.
  rewrite raw_findResumeFile_text. unfold resolveResume.
  rewrite find_uniqPaths; [reflexivity|]. intros q [].
Qed.

Section RawRenderer.

Context {number : Type} {NUM : JsNumber number}.
Variable host : Host number.
Variable faults : Faults number.

Lemma raw_browser_steps (markdownText outPdfPath html : jsstring) (tr pre : trace) :
  noBrowserStep pre ->
  exists evs,
    snd ((attempt (launch_error host) EvBrowserLaunch ;;
          attempt (newPage_error host) EvNewPage ;;
          attempt (setContent_error host html) (EvSetContent html) ;;
          attempt (pdf_error host html outPdfPath) (EvPdf outPdfPath) ;;
          attempt (close_error host) EvBrowserClose)
           ((tr ++ pre)
              ++ [EvWriteFile (outputFile host (lit "tailored_resume_rendered.html"))
                              html]))
      = tr ++ evs
    /\ pageBeforeBrowser host outPdfPath evs.
Proof.
  intros Q.
  assert (QW : noBrowserStep (pre ++ [EvWriteFile
                 (outputFile host (lit "tailored_resume_rendered.html")) html])).
  { apply Forall_app. split; [exact Q | repeat constructor]. }
  assert (Steps : forall post,
            (forall h, In (EvSetContent h) post -> h = html) ->
            (forall p, In (EvPdf p) post -> p = outPdfPath) ->
            pageBeforeBrowser host outPdfPath
              (pre ++ EvWriteFile
                        (outputFile host (lit "tailored_resume_rendered.html")) html
                   :: EvBrowserLaunch :: post)).
  { intros post Hs Hp. right. exists pre, html, post. auto. }
  unfold bind, attempt, emit, throw.
  destruct (launch_error host); simpl.
  { eexists. split; [rewrite <- app_assoc; reflexivity | now left]. }
  destruct (newPage_error host); simpl.
  { eexists. split; [rewrite <- !app_assoc; simpl; reflexivity|].
    apply Steps; simpl; tauto. }
  destruct (setContent_error host html); simpl.
  { eexists. split; [rewrite <- !app_assoc; simpl; reflexivity|].
    apply Steps; simpl; intuition discriminate. }
  destruct (pdf_error host html outPdfPath); simpl.
  { eexists. split; [rewrite <- !app_assoc; simpl; reflexivity|].
    apply Steps; simpl; intuition congruence. }
  destruct (close_error host); simpl.
  { eexists. split; [rewrite <- !app_assoc; simpl; reflexivity|].
    apply Steps; simpl; intuition congruence. }
  eexists. split; [rewrite <- !app_assoc; simpl; reflexivity|].
  apply Steps; simpl; intuition congruence.
Qed.

Lemma raw_saveMarkdownAsPdf_rendered (markdownText outPdfPath title : jsstring)
    (tr : trace) :
  exists evs,
    snd (Raw.saveMarkdownAsPdf host faults markdownText outPdfPath title tr)
      = tr ++ evs
    /\ pageBeforeBrowser host outPdfPath evs.
Proof.
  assert (Page : forall template pre,
            noBrowserStep pre ->
            exists evs,
              snd ((Raw.ensureDir host faults (outputDir host) ;;
                    Raw.writeFileSync faults
                      (outputFile host (lit "tailored_resume_rendered.html"))
                      (fillTemplate template (marked_parse host markdownText) title) ;;
                    attempt (launch_error host) EvBrowserLaunch ;;
                    attempt (newPage_error host) EvNewPage ;;
                    attempt (setContent_error host
                               (fillTemplate template
                                  (marked_parse host markdownText) title))
                            (EvSetContent
                               (fillTemplate template
                                  (marked_parse host markdownText) title)) ;;
                    attempt (pdf_error host
                               (fillTemplate template
                                  (marked_parse host markdownText) title)
                               outPdfPath)
                            (EvPdf outPdfPath) ;;
                    attempt (close_error host) EvBrowserClose) (tr ++ pre))
                = tr ++ evs
              /\ pageBeforeBrowser host outPdfPath evs).
  { intros template pre Q.
    unfold bind at 1. unfold Raw.ensureDir, bind at 1, existsSync.
    destruct (pathExists host (tr ++ pre) (outputDir host)); simpl.
    - unfold bind at 1. unfold Raw.writeFileSync at 1, attempt at 1.
      destruct (writeFile_error faults (tr ++ pre) _ _); simpl.
      + exists pre. split; [reflexivity | now left].
      + apply (raw_browser_steps markdownText outPdfPath _ tr Q).
    - unfold Raw.mkdirSync, attempt at 1.
      destruct (mkdir_error faults (tr ++ pre) (outputDir host)); simpl.
      + exists pre. split; [reflexivity | now left].
      + unfold bind at 1.
        unfold Raw.writeFileSync at 1, attempt at 1.
        destruct (writeFile_error faults _ _ _); simpl.
        * exists (pre ++ [EvMkdir (outputDir host)]).
          split; [now rewrite app_assoc | left].
          apply Forall_app. split; [exact Q | repeat constructor].
        * rewrite <- (app_assoc tr pre).
          apply (raw_browser_steps markdownText outPdfPath _ tr).
          apply Forall_app. split; [exact Q | repeat constructor]. }
  unfold Raw.saveMarkdownAsPdf. cbv zeta.
  unfold bind at 1. unfold existsSync at 1.
  destruct (pathExists host tr (templatePath host)).
  - unfold bind at 1. unfold readFileSync_utf8. unfold bind at 1.
    unfold emit at 1.
    destruct (fs_readFile_utf8 host (templatePath host)) as [e|template]; simpl.
    + exists [EvReadFile (templatePath host)]. split; [reflexivity | left].
      repeat constructor.
    + apply Page. repeat constructor.
  - unfold bind at 1. simpl.
    specialize (Page defaultTemplate [] (Forall_nil _)).
    rewrite app_nil_r in Page. exact Page.
Qed.

End RawRenderer.

(** X18.  In a run of the renderer the browser is launched only after
    the filled page has been written: either no browser step and no
    export happens at all (the template could not be read, the output
    directory not created, or the page not written), or the write of
    the page to the rendered-HTML artifact is immediately followed by
    the launch, no browser step precedes it, the only content set in
    the page afterwards is the content of that artifact, and the only
    PDF exported goes to the path the renderer was given. *)
Theorem saveMarkdownAsPdf_persists_html_first
    {number : Type} {NUM : JsNumber number} (host : Host number)
    (faults : Faults number) (markdownText outPdfPath title : jsstring)
    (tr : trace) :
  exists evs,
    snd (Raw.saveMarkdownAsPdf host faults markdownText outPdfPath title tr)
      = tr ++ evs
    /\ (Forall (fun e => isBrowserStep e = false) evs
        \/ exists pre html post,
             evs = pre ++ EvWriteFile
                            (outputFile host (lit "tailored_resume_rendered.html"))
                            html
                       :: EvBrowserLaunch :: post
             /\ Forall (fun e => isBrowserStep e = false) pre
             /\ (forall h, In (EvSetContent h) post -> h = html)
             /\ (forall p, In (EvPdf p) post -> p = outPdfPath)).
Proof. apply raw_saveMarkdownAsPdf_rendered. Qed.

Lemma raw_ensured_exists
    {number : Type} {NUM : JsNumber number} (host : Host number)
    (faults : Faults number) (tr tr1 evs : trace) :
  Raw.afterEnsureOutput host faults tr = Some tr1 ->
  pathExists host (tr1 ++ evs) (outputDir host) = true.
Proof.
  unfold Raw.afterEnsureOutput.
  destruct (pathExists host tr (outputDir host)) eqn:E.
  - intros [= <-]. now apply pathExists_app.
  - destruct (mkdir_error faults tr (outputDir host)); [discriminate|].
    intros [= <-]. apply pathExists_app.
    unfold pathExists. rewrite existsb_app. simpl.
    rewrite str_eqb_refl. now rewrite !orb_true_r.
Qed.

(** X21.  When the output directory is in place, the resume path is
    text and the resume is found but cannot be read, or mammoth rejects
    it, the run ends with status 10.  Beyond ensuring the output
    directory its effects are the read of the resume and the write of
    [String(err)] to [error.txt], or the read alone when that write is
    refused.  No network call is made and no other artifact is
    written. *)
Theorem unreadable_resume_stops_the_run
    {number : Type} {NUM : JsNumber number} (host : Host number)
    (faults : Faults number) (cfg : Config number) (flags : Raw.Flags number)
    (tr tr1 : trace) (p q : jsstring) (e : exn) :
  Raw.afterEnsureOutput host faults tr = Some tr1 ->
  Raw.requestedResume flags = JStr p ->
  resolveResume host p tr1 = Some q ->
  (fs_readFile host q = inl e
   \/ exists buffer, fs_readFile host q = inr buffer
                     /\ mammoth_extractRawText host buffer = inl e) ->
  Raw.main host faults cfg flags tr
    = (Exit 10,
       tr1 ++ EvReadFile q
           :: match writeFile_error faults (tr1 ++ [EvReadFile q])
                                    (outputFile host (lit "error.txt"))
                                    (String_of_exn e) with
              | None => [EvWriteFile (outputFile host (lit "error.txt"))
                                     (String_of_exn e)]
              | Some _ => []
              end).
Proof.
  intros Hdir Hp Hres Hfail.
  unfold Raw.main, try_catch.
  rewrite (raw_mainBody_run host faults cfg flags tr Hdir Hp), Hres.
  unfold Raw.stages. unfold bind at 1.
  rewrite (@extractTextFromDocx_throw _ host q e _ Hfail).
  rewrite raw_onError_run.
  unfold Raw.afterErrorReport, Raw.afterEnsureOutput.
  rewrite (raw_ensured_exists host faults tr [EvReadFile q] Hdir).
  destruct (writeFile_error faults _ _ _); now rewrite <- ?app_assoc.
Qed.

Lemma unreadable_resume_stops_the_run_witness :
  let h := Demo.host [Demo.resume] [] Demo.happyScript None in
  let broken :=
    {| JSON_parse := JSON_parse h; path_isAbsolute := path_isAbsolute h;
       path_join := path_join h; path_basename := path_basename h;
       String_toLowerCase := String_toLowerCase h; marked_parse := marked_parse h;
       cwd := cwd h; dirname := dirname h; has_fetch := has_fetch h;
       fetch := fetch h; fs_initial := fs_initial h;
       fs_readFile := fs_readFile h; fs_readFile_utf8 := fs_readFile_utf8 h;
       mammoth_extractRawText :=
         fun _ => inl (Error (lit "Could not find main document part"));
       launch_error := None; newPage_error := None;
       setContent_error := fun _ => None; pdf_error := fun _ _ => None;
       close_error := None |} in
  Raw.main broken (RawDemo.faults false) Demo.config RawDemo.flags []
    = (Exit 10,
       [ EvMkdir (lit "/work/output");
         EvReadFile Demo.resume;
         EvWriteFile (lit "/work/output/error.txt")
                     (lit "Error: Could not find main document part") ]).
Proof.
  intros h broken.
  refine (@unreadable_resume_stops_the_run _ _ broken (RawDemo.faults false)
            Demo.config RawDemo.flags [] [EvMkdir (lit "/work/output")]
            (lit "resumes/Keshav-resume.docx") Demo.resume
            (Error (lit "Could not find main document part")) _ _ _ _).
  - reflexivity.
  - reflexivity.
  - reflexivity.
  - right. exists [80; 75]%N. split; reflexivity.
Defined.

(* --------------------------------------------------------------------- *)
(** *** The script as a whole                                             *)
(* --------------------------------------------------------------------- *)

Lemma raw_main_exits {number : Type} {NUM : JsNumber number} (host : Host number)
    (faults : Faults number) (cfg : Config number) (flags : Raw.Flags number)
    (tr : trace) :
  exists code,
    fst (Raw.main host faults cfg flags tr) = Exit code
    /\ (code = 0 \/ code = 2 \/ code = 10)%Z.
Proof.
  pose proof (raw_mainBody_never_returns host faults cfg flags tr) as R.
  unfold Raw.main, try_catch.
  destruct (Raw.mainBody host faults cfg flags tr) as [[u|err|c] tr2].
  - destruct R.
  - rewrite raw_onError_run. exists 10%Z. auto.
  - exists c. simpl. tauto.
Qed.

(** X29.  Once its modules are loaded, a run of the script whose calls
    to the host all return ends with one of four statuses: 0, 1, 2 or
    10, and never by running off the end of the script.  Status 1 has two causes, both at module
    level: the key is absent or empty (the credential check), or the
    string conversion of the max-iterations flag throws and nothing
    catches it; either way the run has no effect at all. *)
Theorem run_exit_statuses
    {number : Type} {NUM : JsNumber number} (host : Host number)
    (faults : Faults number) (penv : ProcessEnv) (argv : Raw.Argv number) :
  (forall u, fst (Raw.run host faults penv argv) <> Normal u)
  /\ (exists status,
        Raw.exitStatus (fst (Raw.run host faults penv argv)) = status
        /\ (status = 0 \/ status = 1 \/ status = 2 \/ status = 10)%Z
        /\ (status = 1%Z <->
            orElse (env_GEMINI_API_KEY penv) [] = []
            \/ exists e, Raw.maxIterationsOf argv = inl e)
        /\ (status = 1%Z -> snd (Raw.run host faults penv argv) = [])).
Proof.
  unfold Raw.run, Raw.program, orElse.
  destruct (env_GEMINI_API_KEY penv) as [[|c key]|]; simpl.
  - split; [discriminate|]. exists 1%Z. repeat split; auto.
  - destruct (Raw.maxIterationsOf argv) as [e|n].
    + split; [discriminate|]. exists 1%Z. repeat split; eauto.
    + destruct (raw_main_exits host faults
                  (Raw.envConfig (c :: key) penv) (Raw.flagsOf argv) [])
        as [code [E H]].
      rewrite E. split; [discriminate|]. exists code. simpl.
      split; [reflexivity|]. split; [tauto|].
      split; [|lia]. split; [lia|].
      intros [D | [e D]]; discriminate D.
  - split; [discriminate|]. exists 1%Z. repeat split; auto.
Qed.

(** Both causes of status 1 on the example host: no key; and
    [--max-iterations.toString=x], from which minimist builds an object
    that [parseInt] cannot convert. *)
Example run_status_1 :
  let h := Demo.host [Demo.resume] (lit "Jane Doe") Demo.happyScript None in
  let noFlags (v : option (JSON Demo.decimal)) :=
    {| Raw.arg_job_title := None; Raw.arg_jobTitle := None;
       Raw.arg_job_desc := None; Raw.arg_jobDesc := None;
       Raw.arg_job_description := None; Raw.arg_company := None;
       Raw.arg_resume_path := None; Raw.arg_max_iterations := v |} in
  let env (key : option jsstring) :=
    {| env_GEMINI_API_KEY := key; env_GEMINI_MODEL := None;
       env_MAX_OUTPUT_TOKENS := None |} in
  Raw.run h (RawDemo.faults false) (env None) (noFlags None) = (Exit 1, [])
  /\ Raw.run h (RawDemo.faults false) (env (Some (lit "k")))
             (noFlags (Some (JObj [(lit "toString", JStr (lit "x"))])))
     = (Throw NotPrimitiveError, [])
  /\ fst (Raw.run h (RawDemo.faults false) (env (Some (lit "k")))
                  (noFlags (Some (JNum (Demo.Dec 3 0)))))
     = Exit 0.
Proof. vm_compute. repeat split. Qed.
